(** * RFID scan acquisition pipeline: a shallow embedding

    The development embeds the two listener services of the repository,
    [rfid_listener.py] (class [RFIDListener]) and
    [rfid_listener_enhanced.py] (class [EnhancedRFIDListener]), and
    states the properties of the scan pipeline over the embedding.

    Modelling conventions.
    - A Python [str] is a [string]; a character is a code point in
      U+0000..U+00FF (Rocq's [ascii]).  The character classes of
      [str.strip] and [str.isalnum] are those of CPython on that range.
    - [time.time()] is a clock reading in microseconds, an integer; the
      window [1.0] and the interval [SCAN_TIMEOUT = 2.0] are written in
      the same unit.
    - Effects (logging, the HTTP request, sleeping, timers) are recorded
      in an ordered trace next to the threaded listener state.
    - What the outside world answers (the HTTP response, the bytes of a
      read, the file system) is an explicit argument. *)

From Stdlib Require Import ZArith List String Ascii Bool Lia.
From Stdlib Require Import Strings.Byte DecimalString Sorted.
Import ListNotations.

Local Open Scope string_scope.
Local Open Scope Z_scope.

(* ================================================================== *)
(** * Python string primitives *)
(* ================================================================== *)

Module PyStr.

Definition code (c : ascii) : N := N_of_ascii c.

Definition between (lo hi : N) (c : ascii) : bool :=
  (N.leb lo (code c) && N.leb (code c) hi)%bool.

(** [str.isspace] on one character: TAB..CR, FS..US, SPACE, NEL, NBSP. *)
Definition isspace (c : ascii) : bool :=
  (between 9 13 c || between 28 32 c || N.eqb (code c) 133
   || N.eqb (code c) 160)%bool.

(** [str.isalnum] on one character ([isalpha], [isdecimal], [isdigit]
    or [isnumeric]): ASCII digits and letters, and in the Latin-1
    block the letters, superscript digits and vulgar fractions. *)
Definition isalnum_char (c : ascii) : bool :=
  (between 48 57 c || between 65 90 c || between 97 122 c
   || N.eqb (code c) 170 || between 178 179 c || N.eqb (code c) 181
   || between 185 186 c || between 188 190 c
   || between 192 214 c || between 216 246 c || between 248 255 c)%bool.

(** [\d] of the [re] module on a [str] pattern: category Nd. *)
Definition isdecimal (c : ascii) : bool := between 48 57 c.

Definition chars (s : string) : list ascii := list_ascii_of_string s.

(** Truth value of a string: non-empty. *)
Definition truthy (s : string) : bool :=
  match s with EmptyString => false | String _ _ => true end.

(** [len(s)] *)
Definition len (s : string) : Z := Z.of_nat (String.length s).

(** [s.replace(' ', '')] *)
Fixpoint remove_spaces (s : string) : string :=
  match s with
  | EmptyString => EmptyString
  | String c s' =>
      if Ascii.eqb c " "%char then remove_spaces s'
      else String c (remove_spaces s')
  end.

Fixpoint all_chars (p : ascii -> bool) (s : string) : bool :=
  match s with
  | EmptyString => true
  | String c s' => (p c && all_chars p s')%bool
  end.

(** [s.isalnum()]: at least one character and all alphanumeric. *)
Definition isalnum (s : string) : bool :=
  (truthy s && all_chars isalnum_char s)%bool.

Fixpoint lstrip (s : string) : string :=
  match s with
  | EmptyString => EmptyString
  | String c s' => if isspace c then lstrip s' else s
  end.

Fixpoint rstrip (s : string) : string :=
  match s with
  | EmptyString => EmptyString
  | String c s' =>
      match rstrip s' with
      | EmptyString => if isspace c then EmptyString else String c EmptyString
      | r => String c r
      end
  end.

(** [s.strip()] *)
Definition strip (s : string) : string := rstrip (lstrip s).

Definition head (s : string) : option ascii :=
  match s with EmptyString => None | String c _ => Some c end.

Fixpoint last (s : string) : option ascii :=
  match s with
  | EmptyString => None
  | String c EmptyString => Some c
  | String _ s' => last s'
  end.

(** No whitespace at either end. *)
Definition trimmed (s : string) : Prop :=
  (forall c, head s = Some c -> isspace c = false) /\
  (forall c, last s = Some c -> isspace c = false).

(** [str(n)] for an integer. *)
Definition str_of_Z (n : Z) : string := NilZero.string_of_int (Z.to_int n).

(** [s.startswith(p)] *)
Fixpoint startswith (p s : string) : bool :=
  match p, s with
  | EmptyString, _ => true
  | String a p', String b s' => (Ascii.eqb a b && startswith p' s')%bool
  | String _ _, EmptyString => false
  end.

(** The suffix of [s] after its first [n] characters. *)
Fixpoint drop (n : nat) (s : string) : string :=
  match n, s with
  | O, _ => s
  | S n', String _ s' => drop n' s'
  | S _, EmptyString => EmptyString
  end.

End PyStr.

(* ================================================================== *)
(** * Effects: the trace, the outside world, the state monad *)
(* ================================================================== *)

Module Effects.

(** [time.time()], in microseconds. *)
Definition Time := Z.

(** One second, the unit of the literals [1.0], [2.0] of the source. *)
Definition SECOND : Z := 1000000.

Inductive Level := DEBUG | INFO | WARNING | ERROR.

(** A Python [dict] of strings, as written in a literal. *)
Definition Dict := list (string * string).

(** An exception raised inside the [try] block of [process_scan]:
    [requests.exceptions.RequestException] (transport errors, timeout)
    or any other [Exception]; the argument is [str(e)]. *)
Inductive Raised :=
| RequestException (e : string)
| OtherException (e : string).

(** What the handlers read from [response.json()]: the truth values of
    [result.get('mapped')] and [result.get('playback_triggered')] and
    the formatted [result.get('music_dir')]. *)
Record ScanResult := {
  mapped : bool;
  music_dir : string;
  playback_triggered : bool
}.

(** What [requests.post] does: it raises, or it returns a response with
    a status code, a text and a body whose decoding may raise. *)
Inductive HttpOutcome :=
| PostRaises (e : Raised)
| Response (status_code : Z) (text : string) (json : Raised + ScanResult).

Definition TimerId := nat.

(** Observable effects, in program order.  [Call] is a ghost event: it
    marks the entry of a method of the listener, with its argument. *)
Inductive Event :=
| Log (lvl : Level) (msg : string)
| HttpPost (url : string) (json : Dict) (timeout : Z) (headers : Dict)
| Sleep (us : Z)
| TimerStart (id : TimerId) (deadline : Time)
| TimerCancel (id : TimerId)
| Call (method : string) (arg : string).

(** The outside world at one instant: the clock and the consumer. *)
Record Env := {
  now : Time;
  consumer : string -> Dict -> HttpOutcome
}.

(** The consumer over time. *)
Definition Net := Time -> string -> Dict -> HttpOutcome.

Definition at_time (net : Net) (t : Time) : Env :=
  {| now := t; consumer := net t |}.

(** State and trace. *)
Definition M (S A : Type) : Type := S -> A * S * list Event.

Definition ret {S A} (a : A) : M S A := fun s => (a, s, []).

Definition bind {S A B} (m : M S A) (k : A -> M S B) : M S B :=
  fun s =>
    let '(a, s1, t1) := m s in
    let '(b, s2, t2) := k a s1 in
    (b, s2, (t1 ++ t2)%list).

Definition get {S} : M S S := fun s => (s, s, []).
Definition put {S} (s : S) : M S unit := fun _ => (tt, s, []).
Definition modify {S} (f : S -> S) : M S unit := fun s => (tt, f s, []).
Definition emit {S} (e : Event) : M S unit := fun s => (tt, s, [e]).
Definition log {S} (lvl : Level) (msg : string) : M S unit :=
  emit (Log lvl msg).

Definition state_of {S A} (r : A * S * list Event) : S := snd (fst r).
Definition trace_of {S A} (r : A * S * list Event) : list Event := snd r.
Definition value_of {S A} (r : A * S * list Event) : A := fst (fst r).

(** Projections of a trace. *)
Definition is_post (e : Event) : bool :=
  match e with HttpPost _ _ _ _ => true | _ => false end.

Definition posts (t : list Event) : list Event := filter is_post t.

(** The arguments of the calls of [method], in order. *)
Fixpoint calls (method : string) (t : list Event) : list string :=
  match t with
  | [] => []
  | Call m a :: t' =>
      if String.eqb m method then a :: calls method t' else calls method t'
  | _ :: t' => calls method t'
  end.

(** The candidate identifiers handed to validation. *)
Definition candidates (t : list Event) : list string :=
  calls "process_scan" t.

Definition is_log_at (l : Level) (e : Event) : bool :=
  match e, l with
  | Log DEBUG _, DEBUG | Log INFO _, INFO
  | Log WARNING _, WARNING | Log ERROR _, ERROR => true
  | _, _ => false
  end.

Definition logged_at (l : Level) (t : list Event) : bool :=
  existsb (is_log_at l) t.

End Effects.

Export Effects.

Declare Scope monad_scope.
Delimit Scope monad_scope with monad.
Notation "x <- m ;; k" := (bind m (fun x => k))
  (at level 61, m at next level, right associativity) : monad_scope.
Notation "m ;; k" := (bind m (fun _ => k))
  (at level 61, right associativity) : monad_scope.

(* ================================================================== *)
(** * [rfid_listener.py]: class [RFIDListener] *)
(* ================================================================== *)

Module RFIDListener.

Local Open Scope monad_scope.

Definition FLASK_HOST : string := "localhost".
Definition FLASK_PORT : Z := 5000.
Definition SCAN_TIMEOUT : Z := 2 * SECOND.
Definition MIN_RFID_LENGTH : Z := 6.
Definition MAX_RFID_LENGTH : Z := 20.

(** The fields of the object. [scan_timer] refers to a timer object. *)
Record Listener := {
  flask_url : string;
  running : bool;
  last_scan_time : Time;
  scan_buffer : string;
  scan_timer : option TimerId
}.

(** The listener together with the timers of the runtime: [timers]
    holds the started [threading.Timer] objects that have neither fired
    nor been cancelled, each with the instant at which it fires. *)
Record World := {
  self : Listener;
  timers : list (TimerId * Time);
  next_timer : TimerId
}.

Definition __init__ (flask_host : string) (flask_port : Z) : Listener :=
  {| flask_url := "http://" ++ flask_host ++ ":" ++ PyStr.str_of_Z flask_port
                  ++ "/scan";
     running := false;
     last_scan_time := 0;
     scan_buffer := "";
     scan_timer := None |}.

Definition boot (l : Listener) : World :=
  {| self := l; timers := []; next_timer := O |}.

Definition set_self (f : Listener -> Listener) : M World unit :=
  modify (fun w => {| self := f (self w); timers := timers w;
                      next_timer := next_timer w |}).

Definition set_running (b : bool) (l : Listener) : Listener :=
  {| flask_url := flask_url l; running := b;
     last_scan_time := last_scan_time l; scan_buffer := scan_buffer l;
     scan_timer := scan_timer l |}.

Definition set_last_scan_time (t : Time) (l : Listener) : Listener :=
  {| flask_url := flask_url l; running := running l;
     last_scan_time := t; scan_buffer := scan_buffer l;
     scan_timer := scan_timer l |}.

Definition set_scan_buffer (b : string) (l : Listener) : Listener :=
  {| flask_url := flask_url l; running := running l;
     last_scan_time := last_scan_time l; scan_buffer := b;
     scan_timer := scan_timer l |}.

Definition set_scan_timer (t : option TimerId) (l : Listener) : Listener :=
  {| flask_url := flask_url l; running := running l;
     last_scan_time := last_scan_time l; scan_buffer := scan_buffer l;
     scan_timer := t |}.

(** [threading.Timer(...)]: a fresh timer object, not yet started. *)
Definition timer_new : M World TimerId :=
  fun w => (next_timer w,
            {| self := self w; timers := timers w;
               next_timer := S (next_timer w) |}, []).

(** [timer.start()] at [now]: the timer will fire [interval] later. *)
Definition timer_start (id : TimerId) (deadline : Time) : M World unit :=
  emit (TimerStart id deadline) ;;
  modify (fun w => {| self := self w;
                      timers := (timers w ++ [(id, deadline)])%list;
                      next_timer := next_timer w |}).

(** [timer.cancel()]: the timer no longer fires; no effect on a timer
    that is not pending. *)
Definition timer_cancel (id : TimerId) : M World unit :=
  emit (TimerCancel id) ;;
  modify (fun w => {| self := self w;
                      timers := filter (fun p => negb (Nat.eqb (fst p) id))
                                       (timers w);
                      next_timer := next_timer w |}).

Definition is_valid_rfid (rfid : string) : bool :=
  if negb (PyStr.truthy rfid) then false
  else if ((PyStr.len rfid <? MIN_RFID_LENGTH)
           || (PyStr.len rfid >? MAX_RFID_LENGTH))%bool then false
  else if negb (PyStr.isalnum (PyStr.remove_spaces rfid)) then false
  else true.

(** The [try] block of [process_scan] with its two handlers. *)
Definition deliver (env : Env) (rfid : string) : M World unit :=
  w <- get ;;
  let payload := [("rfid", rfid)] in
  emit (HttpPost (flask_url (self w)) payload 5
                 [("Content-Type", "application/json")]) ;;
  let handle (e : Raised) : M World unit :=
    match e with
    | RequestException m =>
        log ERROR ("Error communicating with Flask app: " ++ m)
    | OtherException m =>
        log ERROR ("Unexpected error processing scan: " ++ m)
    end in
  match consumer env (flask_url (self w)) payload with
  | PostRaises e => handle e
  | Response status_code text json =>
      if status_code =? 200 then
        match json with
        | inl e => handle e
        | inr result =>
            if mapped result then
              log INFO ("RFID " ++ rfid ++ " mapped to: " ++ music_dir result) ;;
              if playback_triggered result then
                log INFO "Playback triggered successfully"
              else
                log WARNING "Failed to trigger playback"
            else
              log INFO ("RFID " ++ rfid ++ " not mapped - awaiting assignment")
        end
      else
        log ERROR ("Flask app returned status " ++ PyStr.str_of_Z status_code
                   ++ ": " ++ text)
  end.

Definition process_scan (env : Env) (rfid_data : string) : M World unit :=
  emit (Call "process_scan" rfid_data) ;;
  let rfid := PyStr.strip rfid_data in
  if negb (is_valid_rfid rfid) then
    log WARNING ("Invalid RFID format: '" ++ rfid ++ "'")
  else
    let current_time := now env in
    w <- get ;;
    if current_time - last_scan_time (self w) <? 1 * SECOND then
      log DEBUG ("Ignoring duplicate scan: " ++ rfid)
    else
      set_self (set_last_scan_time current_time) ;;
      log INFO ("Processing RFID scan: " ++ rfid) ;;
      deliver env rfid.

Definition flush_scan_buffer (env : Env) : M World unit :=
  w <- get ;;
  (if PyStr.truthy (scan_buffer (self w)) then
     log DEBUG ("Processing buffered scan: '" ++ scan_buffer (self w) ++ "'") ;;
     process_scan env (scan_buffer (self w)) ;;
     set_self (set_scan_buffer "")
   else ret tt) ;;
  set_self (set_scan_timer None).

Definition is_terminator (char : ascii) : bool :=
  (Ascii.eqb char "010" || Ascii.eqb char "013")%bool.

Definition handle_input_char (env : Env) (char : ascii) : M World unit :=
  if is_terminator char then
    w <- get ;;
    match scan_timer (self w) with
    | Some t => timer_cancel t ;; set_self (set_scan_timer None)
    | None => ret tt
    end ;;
    w <- get ;;
    if PyStr.truthy (scan_buffer (self w)) then
      process_scan env (scan_buffer (self w)) ;;
      set_self (set_scan_buffer "")
    else ret tt
  else
    w <- get ;;
    set_self (set_scan_buffer (scan_buffer (self w) ++ String char "")) ;;
    match scan_timer (self w) with
    | Some t => timer_cancel t
    | None => ret tt
    end ;;
    t <- timer_new ;;
    set_self (set_scan_timer (Some t)) ;;
    timer_start t (now env + SCAN_TIMEOUT).

Definition stop_listening : M World unit :=
  set_self (set_running false) ;;
  w <- get ;;
  match scan_timer (self w) with
  | Some t => timer_cancel t
  | None => ret tt
  end ;;
  log INFO "RFID listener stopped".

(** ** The runtime: the timer thread and the read loop *)

(** A pending timer fires at its deadline and runs its callback,
    [flush_scan_buffer], from its first line to its last with no read
    in between: the runs in which the consumer has answered before the
    next character arrives.  The other runs are those of
    [TimerThread]. *)
Definition fire (net : Net) (id : TimerId) (deadline : Time) : M World unit :=
  w <- get ;;
  if existsb (fun p => Nat.eqb (fst p) id) (timers w) then
    modify (fun w => {| self := self w;
                        timers := filter (fun p => negb (Nat.eqb (fst p) id))
                                         (timers w);
                        next_timer := next_timer w |}) ;;
    flush_scan_buffer (at_time net deadline)
  else ret tt.

Fixpoint fire_each (net : Net) (due : list (TimerId * Time)) : M World unit :=
  match due with
  | [] => ret tt
  | (id, deadline) :: rest => fire net id deadline ;; fire_each net rest
  end.

(** Let the clock reach [t]: every timer due by then fires, each
    callback as a whole. *)
Definition advance (net : Net) (t : Time) : M World unit :=
  w <- get ;;
  fire_each net (filter (fun p => snd p <=? t) (timers w)).

(** What [sys.stdin.read(1)] does at one call. *)
Inductive StdinReadResult :=
| ReadChar (char : ascii)
| ReadEmpty
| ReadInterrupt
| ReadEOFError
| ReadRaises (e : string).

(** One turn of the loop of [start_listening], on what the read
    returned at the instant [t]; [true] when the loop goes on. *)
Definition listen_step (net : Net) (t : Time) (r : StdinReadResult)
  : M World bool :=
  match r with
  | ReadChar char => handle_input_char (at_time net t) char ;; ret true
  | ReadEmpty => emit (Sleep (SECOND / 10)) ;; ret true
  | ReadInterrupt => log INFO "Received interrupt signal" ;; ret false
  | ReadEOFError => log INFO "EOF reached on stdin" ;; ret false
  | ReadRaises e =>
      log ERROR ("Error reading stdin: " ++ e) ;;
      emit (Sleep SECOND) ;; ret true
  end.

(** The loop over the reads of one run, each at its instant.  The
    timers due by the instant of a read fire before the read is
    handled; every step is taken as a whole, so no callback is running
    when a character is handled. *)
Fixpoint listen_loop (net : Net) (reads : list (Time * StdinReadResult))
  : M World bool :=
  match reads with
  | [] => ret true
  | (t, r) :: rest =>
      advance net t ;;
      go_on <- listen_step net t r ;;
      if go_on then listen_loop net rest else ret false
  end.

(** [start_listening] on the reads of a run, observed until [horizon].
    The loop is left only by an interrupt or [EOFError], and then
    [stop_listening] runs; while it is not left the reads go on. *)
Definition start_listening (net : Net) (reads : list (Time * StdinReadResult))
    (horizon : Time) : M World unit :=
  set_self (set_running true) ;;
  log INFO "RFID listener starting..." ;;
  log INFO "Ensure RFID reader is configured to act as keyboard input" ;;
  log INFO "Scanning for RFID cards..." ;;
  still_reading <- listen_loop net reads ;;
  (if still_reading then ret tt else stop_listening) ;;
  advance net horizon.

End RFIDListener.

(* ================================================================== *)
(** * [rfid_listener.py]: the callback of the timer and the read loop *)
(* ================================================================== *)

(** [threading.Timer] runs [flush_scan_buffer] on a thread of its own,
    and the object has no lock.  While that thread waits in
    [requests.post] for the answer of the consumer, the read loop goes
    on with [handle_input_char] on the same fields.  Here
    [flush_scan_buffer] is cut at that wait, and the characters that
    the read loop handles in between are run between the two parts. *)
Module TimerThread.
Import RFIDListener.

Local Open Scope monad_scope.

(** A request that was sent and is not answered yet: the URL and the
    identifier of its body. *)
Definition Request : Type := string * string.

(** [process_scan] as far as the call of [requests.post]: the request
    is sent, if one is to be made. *)
Definition process_scan_sends (env : Env) (rfid_data : string)
  : M World (option Request) :=
  emit (Call "process_scan" rfid_data) ;;
  let rfid := PyStr.strip rfid_data in
  if negb (is_valid_rfid rfid) then
    log WARNING ("Invalid RFID format: '" ++ rfid ++ "'") ;; ret None
  else
    let current_time := now env in
    w <- get ;;
    if current_time - last_scan_time (self w) <? 1 * SECOND then
      log DEBUG ("Ignoring duplicate scan: " ++ rfid) ;; ret None
    else
      set_self (set_last_scan_time current_time) ;;
      log INFO ("Processing RFID scan: " ++ rfid) ;;
      w <- get ;;
      emit (HttpPost (flask_url (self w)) [("rfid", rfid)] 5
                     [("Content-Type", "application/json")]) ;;
      ret (Some (flask_url (self w), rfid)).

(** [process_scan] from the return of [requests.post] on: the rest of
    the [try] block with its two handlers. *)
Definition process_scan_answered (env : Env) (request : Request)
  : M World unit :=
  let (url, rfid) := request in
  let handle (e : Raised) : M World unit :=
    match e with
    | RequestException m =>
        log ERROR ("Error communicating with Flask app: " ++ m)
    | OtherException m =>
        log ERROR ("Unexpected error processing scan: " ++ m)
    end in
  match consumer env url [("rfid", rfid)] with
  | PostRaises e => handle e
  | Response status_code text json =>
      if status_code =? 200 then
        match json with
        | inl e => handle e
        | inr result =>
            if mapped result then
              log INFO ("RFID " ++ rfid ++ " mapped to: " ++ music_dir result) ;;
              if playback_triggered result then
                log INFO "Playback triggered successfully"
              else
                log WARNING "Failed to trigger playback"
            else
              log INFO ("RFID " ++ rfid ++ " not mapped - awaiting assignment")
        end
      else
        log ERROR ("Flask app returned status " ++ PyStr.str_of_Z status_code
                   ++ ": " ++ text)
  end.

(** [flush_scan_buffer] as far as the wait for the answer; when no
    request is made the callback runs to its end. *)
Definition flush_begins (env : Env) : M World (option Request) :=
  w <- get ;;
  if PyStr.truthy (scan_buffer (self w)) then
    log DEBUG ("Processing buffered scan: '" ++ scan_buffer (self w) ++ "'") ;;
    sent <- process_scan_sends env (scan_buffer (self w)) ;;
    match sent with
    | Some request => ret (Some request)
    | None =>
        set_self (set_scan_buffer "") ;;
        set_self (set_scan_timer None) ;;
        ret None
    end
  else
    set_self (set_scan_timer None) ;; ret None.

(** [flush_scan_buffer] from the answer on: [process_scan] returns,
    then the two fields are reset. *)
Definition flush_ends (env : Env) (request : Request) : M World unit :=
  process_scan_answered env request ;;
  set_self (set_scan_buffer "") ;;
  set_self (set_scan_timer None).

(** The two parts one after the other, nothing in between. *)
Definition flush_alone (env : Env) : M World unit :=
  sent <- flush_begins env ;;
  match sent with
  | Some request => flush_ends env request
  | None => ret tt
  end.

(** The read loop handles the characters that arrive, each at its
    instant. *)
Fixpoint reads_on (net : Net) (chars : list (Time * ascii)) : M World unit :=
  match chars with
  | [] => ret tt
  | (t, char) :: rest =>
      handle_input_char (at_time net t) char ;; reads_on net rest
  end.

(** The timer [id] is pending and due by [t]: it fires at [t].  Its
    callback sends its request; the read loop handles the characters
    [during] the wait for the answer, which comes within the timeout
    of the request; then the callback goes on to its end. *)
Definition fire_overlapped (net : Net) (id : TimerId) (t : Time)
    (during : list (Time * ascii)) : M World unit :=
  w <- get ;;
  match find (fun p => Nat.eqb (fst p) id) (timers w) with
  | Some (_, deadline) =>
      if deadline <=? t then
        modify (fun w => {| self := self w;
                            timers := filter (fun p => negb (Nat.eqb (fst p) id))
                                             (timers w);
                            next_timer := next_timer w |}) ;;
        sent <- flush_begins (at_time net t) ;;
        match sent with
        | Some request =>
            reads_on net during ;;
            flush_ends (at_time net t) request
        | None => reads_on net during
        end
      else ret tt
  | None => ret tt
  end.

End TimerThread.

(* ================================================================== *)
(** * The part of Python's [re] and [str] used by the device locator *)
(* ================================================================== *)

Module Re.

(** Regular expressions, as far as the patterns of the source go. *)
Inductive regex :=
| Empty                       (* matches nothing *)
| Eps                         (* the empty string *)
| Chr (c : ascii)             (* a literal character *)
| Dot                         (* [.]: any character but a newline *)
| Cat (r1 r2 : regex)
| Alt (r1 r2 : regex)
| Star (r : regex).

(** A literal string. *)
Fixpoint lit (s : string) : regex :=
  match s with
  | EmptyString => Eps
  | String c s' => Cat (Chr c) (lit s')
  end.

(** Lower case on U+0000..U+00FF. *)
Definition lower (c : ascii) : ascii :=
  if (PyStr.between 65 90 c || PyStr.between 192 214 c
      || PyStr.between 216 222 c)%bool
  then ascii_of_N (PyStr.code c + 32) else c.

(** Equality of characters under the [re.IGNORECASE] flag or not. *)
Definition chr_eq (ignorecase : bool) (a b : ascii) : bool :=
  if ignorecase then Ascii.eqb (lower a) (lower b) else Ascii.eqb a b.

Fixpoint nullable (r : regex) : bool :=
  match r with
  | Empty | Chr _ | Dot => false
  | Eps | Star _ => true
  | Cat r1 r2 => (nullable r1 && nullable r2)%bool
  | Alt r1 r2 => (nullable r1 || nullable r2)%bool
  end.

(** The derivative of [r] by the character [a]. *)
Fixpoint deriv (ignorecase : bool) (a : ascii) (r : regex) : regex :=
  match r with
  | Empty | Eps => Empty
  | Chr c => if chr_eq ignorecase c a then Eps else Empty
  | Dot => if Ascii.eqb a "010" then Empty else Eps
  | Cat r1 r2 =>
      if nullable r1
      then Alt (Cat (deriv ignorecase a r1) r2) (deriv ignorecase a r2)
      else Cat (deriv ignorecase a r1) r2
  | Alt r1 r2 => Alt (deriv ignorecase a r1) (deriv ignorecase a r2)
  | Star r1 => Cat (deriv ignorecase a r1) (Star r1)
  end.

(** Some prefix of [s] matches [r]. *)
Fixpoint match_prefix (ignorecase : bool) (r : regex) (s : string) : bool :=
  (nullable r ||
   match s with
   | EmptyString => false
   | String a s' => match_prefix ignorecase (deriv ignorecase a r) s'
   end)%bool.

(** [re.search(r, s)] is not [None]: some substring of [s] matches. *)
Fixpoint search (ignorecase : bool) (r : regex) (s : string) : bool :=
  (match_prefix ignorecase r s ||
   match s with
   | EmptyString => false
   | String _ s' => search ignorecase r s'
   end)%bool.

(** The longest prefix of decimal digits. *)
Fixpoint take_digits (s : string) : string :=
  match s with
  | EmptyString => EmptyString
  | String c s' =>
      if PyStr.isdecimal c then String c (take_digits s') else EmptyString
  end.

(** [.*?(event\d+)] at the start of [s]: the group of the match with
    the shortest skip, the skip staying on one line. *)
Fixpoint lazy_event (s : string) : option string :=
  if (PyStr.startswith "event" s
      && PyStr.truthy (take_digits (PyStr.drop 5 s)))%bool
  then Some ("event" ++ take_digits (PyStr.drop 5 s))
  else match s with
       | EmptyString => None
       | String c s' => if Ascii.eqb c "010" then None else lazy_event s'
       end.

(** The first element of [re.findall(r'H: Handlers=.*?(event\d+)', s)],
    [None] when the list is empty. *)
Fixpoint first_handler (s : string) : option string :=
  match (if PyStr.startswith "H: Handlers=" s
         then lazy_event (PyStr.drop 12 s) else None) with
  | Some h => Some h
  | None => match s with
            | EmptyString => None
            | String _ s' => first_handler s'
            end
  end.

(** [s.split('\n\n')] *)
Fixpoint split_blank (s : string) : list string :=
  match s with
  | EmptyString => [EmptyString]
  | String "010" (String "010" s') => EmptyString :: split_blank s'
  | String c s' =>
      match split_blank s' with
      | [] => [String c EmptyString]
      | h :: t => String c h :: t
      end
  end.

(** [s.split()]: the maximal runs of non-whitespace characters. *)
Fixpoint split_ws_from (cur : string) (s : string) : list string :=
  match s with
  | EmptyString => if PyStr.truthy cur then [cur] else []
  | String c s' =>
      if PyStr.isspace c
      then (if PyStr.truthy cur then cur :: split_ws_from "" s'
            else split_ws_from "" s')
      else split_ws_from (cur ++ String c "") s'
  end.

Definition split_ws (s : string) : list string := split_ws_from "" s.

End Re.

(* ================================================================== *)
(** * [rfid_listener_enhanced.py]: class [EnhancedRFIDListener] *)
(* ================================================================== *)

Module EnhancedRFIDListener.

Local Open Scope monad_scope.

Definition FLASK_HOST : string := "localhost".
Definition FLASK_PORT : Z := 5000.
Definition SCAN_TIMEOUT : Z := 2 * SECOND.
Definition MIN_RFID_LENGTH : Z := 6.
Definition MAX_RFID_LENGTH : Z := 20.

(** All patterns are searched with [re.IGNORECASE]. *)
Definition RFID_READER_PATTERNS : list Re.regex :=
  [ Re.Cat (Re.lit "OKE") (Re.Cat (Re.Star Re.Dot) (Re.lit "Electron"));
    Re.Cat (Re.lit "Chic") (Re.Cat (Re.Star Re.Dot) (Re.lit "Technology"));
    Re.lit "05fe:1010";
    Re.lit "RFID";
    Re.Cat (Re.lit "Card") (Re.Cat (Re.Star Re.Dot) (Re.lit "Reader")) ].

Record Listener := {
  flask_url : string;
  running : bool;
  last_scan_time : Time;
  device_path : option string
}.

Definition __init__ (flask_host : string) (flask_port : Z) : Listener :=
  {| flask_url := "http://" ++ flask_host ++ ":" ++ PyStr.str_of_Z flask_port
                  ++ "/scan";
     running := false;
     last_scan_time := 0;
     device_path := None |}.

Definition set_running (b : bool) (l : Listener) : Listener :=
  {| flask_url := flask_url l; running := b;
     last_scan_time := last_scan_time l; device_path := device_path l |}.

Definition set_last_scan_time (t : Time) (l : Listener) : Listener :=
  {| flask_url := flask_url l; running := running l;
     last_scan_time := t; device_path := device_path l |}.

Definition set_device_path (p : option string) (l : Listener) : Listener :=
  {| flask_url := flask_url l; running := running l;
     last_scan_time := last_scan_time l; device_path := p |}.

(** ** The host: file system and devices *)

(** What the liveness probe meets when it opens the device and waits. *)
Inductive ProbeOutcome :=
| ProbePermissionError               (* [open] raises [PermissionError] *)
| ProbeRaises (opened : bool) (e : string)  (* another exception, before
                                         or after the device was opened *)
| ProbeTimeout                       (* [select] returns nothing ready *)
| ProbeRead (data : list byte).      (* [device.read(24)] returns [data] *)

Record Host := {
  (** reading [/proc/bus/input/devices]: the error or the content *)
  proc_bus_input_devices : string + string;
  (** [os.path.exists] *)
  path_exists : string -> bool;
  (** [os.listdir('/dev/input/by-id')] *)
  listdir_by_id : list string;
  (** [os.path.realpath] *)
  realpath : string -> string;
  (** the device under the probe *)
  probe : string -> ProbeOutcome
}.

(** ** [find_rfid_device] *)

(** The loop over the patterns for one registry block; [Some] is the
    [return] of the method. *)
Fixpoint registry_patterns (host : Host) (device_block : string)
    (patterns : list Re.regex) : M Listener (option string) :=
  match patterns with
  | [] => ret None
  | pattern :: rest =>
      if Re.search true pattern device_block then
        match Re.first_handler device_block with
        | Some event_device =>
            let device_path := "/dev/input/" ++ event_device in
            if path_exists host device_path then
              log INFO ("Found RFID reader: " ++ device_path) ;;
              log INFO ("Device info: " ++
                        match Re.split_ws device_block with
                        | _ :: info :: _ => info
                        | _ => "Unknown"
                        end) ;;
              ret (Some device_path)
            else registry_patterns host device_block rest
        | None => registry_patterns host device_block rest
        end
      else registry_patterns host device_block rest
  end.

Fixpoint registry_blocks (host : Host) (devices : list string)
  : M Listener (option string) :=
  match devices with
  | [] => ret None
  | device_block :: rest =>
      found <- registry_patterns host device_block RFID_READER_PATTERNS ;;
      match found with
      | Some p => ret (Some p)
      | None => registry_blocks host rest
      end
  end.

Definition by_id_path : string := "/dev/input/by-id".

Fixpoint by_id_patterns (host : Host) (device_link : string)
    (patterns : list Re.regex) : M Listener (option string) :=
  match patterns with
  | [] => ret None
  | pattern :: rest =>
      if Re.search true pattern device_link then
        let device_path := by_id_path ++ "/" ++ device_link in
        if path_exists host device_path then
          let real_path := realpath host device_path in
          log INFO ("Found RFID reader via by-id: " ++ real_path) ;;
          ret (Some real_path)
        else by_id_patterns host device_link rest
      else by_id_patterns host device_link rest
  end.

Fixpoint by_id_links (host : Host) (links : list string)
  : M Listener (option string) :=
  match links with
  | [] => ret None
  | device_link :: rest =>
      found <- by_id_patterns host device_link RFID_READER_PATTERNS ;;
      match found with
      | Some p => ret (Some p)
      | None => by_id_links host rest
      end
  end.

(** [for i in range(20)]: the candidate paths are logged, none chosen. *)
Fixpoint common_event_devices (host : Host) (indices : list nat)
  : M Listener unit :=
  match indices with
  | [] => ret tt
  | i :: rest =>
      let device_path := "/dev/input/event" ++ PyStr.str_of_Z (Z.of_nat i) in
      (if path_exists host device_path
       then log INFO ("Available device: " ++ device_path)
       else ret tt) ;;
      common_event_devices host rest
  end.

Definition find_rfid_device (host : Host) : M Listener (option string) :=
  log INFO "Searching for RFID reader device..." ;;
  (* Method 1 *)
  found <- match proc_bus_input_devices host with
           | inr content => registry_blocks host (Re.split_blank content)
           | inl e =>
               log WARNING ("Error reading /proc/bus/input/devices: " ++ e) ;;
               ret None
           end ;;
  match found with
  | Some p => ret (Some p)
  | None =>
      (* Method 2 *)
      found <- (if path_exists host by_id_path
                then by_id_links host (listdir_by_id host)
                else ret None) ;;
      match found with
      | Some p => ret (Some p)
      | None =>
          (* Method 3 *)
          log WARNING "Auto-detection failed, checking common event devices..." ;;
          common_event_devices host (seq 0 20) ;;
          ret None
      end
  end.

(** ** [test_device_input] *)

(** The value returned: [Some b] for a boolean, [None] for the [None]
    of a body that ends without [return]. *)
Definition test_device_input (host : Host) (device_path : string)
  : M Listener (option bool) :=
  emit (Call "test_device_input" device_path) ;;
  log INFO ("Testing device input: " ++ device_path) ;;
  let opened_log : M Listener unit :=
    log INFO "Device opened successfully. Scan an RFID card within 5 seconds to test..." in
  let handler (e : string) : M Listener (option bool) :=
    log ERROR ("✗ Error testing device " ++ device_path ++ ": " ++ e) ;;
    ret (Some false) in
  match probe host device_path with
  | ProbePermissionError =>
      log ERROR ("✗ Permission denied accessing " ++ device_path) ;;
      log INFO "Try running: sudo usermod -a -G input $(whoami)" ;;
      log INFO "Then log out and back in, or run: newgrp input" ;;
      ret (Some false)
  | ProbeRaises opened e =>
      (if opened then opened_log else ret tt) ;;
      handler e
  | ProbeTimeout =>
      opened_log ;;
      log INFO "✗ No input received within timeout" ;;
      ret (Some false)
  | ProbeRead data =>
      opened_log ;;
      match data with
      | _ :: _ =>
          log INFO "✓ Device is producing input data" ;;
          ret (Some true)
      | [] => ret None
      end
  end.

(** Truth value of what [test_device_input] returns. *)
Definition truthy_result (r : option bool) : bool :=
  match r with Some true => true | _ => false end.

(** Truth value of [self.device_path]. *)
Definition truthy_path (p : option string) : bool :=
  match p with Some s => PyStr.truthy s | None => false end.

(** ** Validation, deduplication, delivery *)

Definition is_valid_rfid (rfid : string) : bool :=
  if (negb (PyStr.truthy rfid)
      || (PyStr.len rfid <? MIN_RFID_LENGTH)
      || (PyStr.len rfid >? MAX_RFID_LENGTH))%bool then false
  else PyStr.isalnum (PyStr.remove_spaces rfid).

(** The [try] block of [process_scan] with its handler. *)
Definition deliver (env : Env) (rfid : string) : M Listener unit :=
  l <- get ;;
  let payload := [("rfid", rfid)] in
  emit (HttpPost (flask_url l) payload 5
                 [("Content-Type", "application/json")]) ;;
  let handle (e : Raised) : M Listener unit :=
    match e with
    | RequestException m | OtherException m =>
        log ERROR ("Error processing scan: " ++ m)
    end in
  match consumer env (flask_url l) payload with
  | PostRaises e => handle e
  | Response status_code text json =>
      if status_code =? 200 then
        match json with
        | inl e => handle e
        | inr result =>
            if mapped result then
              log INFO ("✓ RFID " ++ rfid ++ " → " ++ music_dir result) ;;
              if playback_triggered result then
                log INFO "♪ Playback started"
              else
                log WARNING "⚠ Playback failed"
            else
              log INFO ("? RFID " ++ rfid ++ " not mapped - assign via web interface")
        end
      else
        log ERROR ("Flask error " ++ PyStr.str_of_Z status_code ++ ": " ++ text)
  end.

Definition process_scan (env : Env) (rfid_data : string) : M Listener unit :=
  emit (Call "process_scan" rfid_data) ;;
  let rfid := PyStr.strip rfid_data in
  if negb (is_valid_rfid rfid) then
    log WARNING ("Invalid RFID format: '" ++ rfid ++ "'")
  else
    let current_time := now env in
    l <- get ;;
    if current_time - last_scan_time l <? 1 * SECOND then
      log DEBUG ("Ignoring duplicate scan: " ++ rfid)
    else
      modify (set_last_scan_time current_time) ;;
      log INFO ("Processing RFID scan: " ++ rfid) ;;
      deliver env rfid.

(** ** [read_rfid_from_stdin] *)

(** What [sys.stdin.read(1)] does at one call. *)
Inductive StdinReadResult :=
| ReadChar (char : ascii)
| ReadEmpty
| ReadRaises (e : string).

(** One turn of the loop on the local [scan_buffer]; [None] when an
    exception leaves the loop. *)
Definition stdin_step (env : Env) (r : StdinReadResult) (scan_buffer : string)
  : M Listener (option string) :=
  match r with
  | ReadChar char =>
      if (Ascii.eqb char "010" || Ascii.eqb char "013")%bool then
        if PyStr.truthy (PyStr.strip scan_buffer) then
          process_scan env (PyStr.strip scan_buffer) ;;
          ret (Some "")
        else ret (Some scan_buffer)
      else ret (Some (scan_buffer ++ String char ""))
  | ReadEmpty => emit (Sleep (SECOND / 10)) ;; ret (Some scan_buffer)
  | ReadRaises e => log ERROR ("Error reading from stdin: " ++ e) ;; ret None
  end.

(** The turns of the loop over the reads, the flag [running] being
    set. *)
Fixpoint stdin_loop (net : Net) (reads : list (Time * StdinReadResult))
    (scan_buffer : string) : M Listener (option string) :=
  match reads with
  | [] => ret (Some scan_buffer)
  | (t, r) :: rest =>
      next <- stdin_step (at_time net t) r scan_buffer ;;
      match next with
      | Some scan_buffer' => stdin_loop net rest scan_buffer'
      | None => ret None
      end
  end.

(** [while self.running: ...]: the flag is tested before each read;
    when it is not set the loop is left and the method returns. *)
Fixpoint stdin_while (net : Net) (reads : list (Time * StdinReadResult))
    (scan_buffer : string) : M Listener (option string) :=
  l <- get ;;
  if running l then
    match reads with
    | [] => ret (Some scan_buffer)
    | (t, r) :: rest =>
        next <- stdin_step (at_time net t) r scan_buffer ;;
        match next with
        | Some scan_buffer' => stdin_while net rest scan_buffer'
        | None => ret None
        end
    end
  else ret None.

(** The value is the local buffer when the reads of the run are
    exhausted, [None] when the method has returned. *)
Definition read_rfid_from_stdin (net : Net) (reads : list (Time * StdinReadResult))
  : M Listener (option string) :=
  emit (Call "read_rfid_from_stdin" "") ;;
  log INFO "Using stdin input method (terminal must have focus)" ;;
  stdin_while net reads "".

(** ** [keycode_to_char] and [read_rfid_from_device] *)

Definition keymap : list (Z * string) :=
  [ (2, "1"); (3, "2"); (4, "3"); (5, "4"); (6, "5");
    (7, "6"); (8, "7"); (9, "8"); (10, "9"); (11, "0");
    (16, "q"); (17, "w"); (18, "e"); (19, "r"); (20, "t");
    (21, "y"); (22, "u"); (23, "i"); (24, "o"); (25, "p");
    (30, "a"); (31, "s"); (32, "d"); (33, "f"); (34, "g");
    (35, "h"); (36, "j"); (37, "k"); (38, "l");
    (44, "z"); (45, "x"); (46, "c"); (47, "v"); (48, "b");
    (49, "n"); (50, "m");
    (28, String "010" "") ].

(** [d.get(key, default)] *)
Fixpoint dict_get (d : list (Z * string)) (key : Z) (default : string)
  : string :=
  match d with
  | [] => default
  | (k, v) :: d' => if k =? key then v else dict_get d' key default
  end.

Definition keycode_to_char (keycode : Z) : string :=
  dict_get keymap keycode "".

(** [struct.calcsize('llHHI')] with native alignment on 64-bit Linux. *)
Definition event_size : Z := 24.

(** Little-endian unsigned and two's-complement signed integers. *)
Definition le_uint (bs : list byte) : Z :=
  fold_right (fun b acc => Z.of_N (Byte.to_N b) + 256 * acc) 0 bs.

Definition le_int (bits : Z) (bs : list byte) : Z :=
  let u := le_uint bs in
  if u <? 2 ^ (bits - 1) then u else u - 2 ^ bits.

Definition slice (from count : nat) (bs : list byte) : list byte :=
  firstn count (skipn from bs).

(** [struct.unpack('llHHI', event_data)] on a record of [event_size]
    bytes: [(sec, usec, event_type, code, value)]. *)
Definition unpack (event_data : list byte) : Z * Z * Z * Z * Z :=
  (le_int 64 (slice 0 8 event_data),
   le_int 64 (slice 8 8 event_data),
   le_uint (slice 16 2 event_data),
   le_uint (slice 18 2 event_data),
   le_uint (slice 20 4 event_data)).

(** What [device.read(event_size)] does at one call. *)
Inductive DeviceReadResult :=
| ReadBytes (event_data : list byte)
| DeviceReadRaises (e : string).

(** One turn of the loop of [read_rfid_from_device] on the local
    [scan_buffer]. *)
Definition device_step (env : Env) (r : DeviceReadResult) (scan_buffer : string)
  : M Listener string :=
  match r with
  | ReadBytes event_data =>
      if Z.of_nat (List.length event_data) =? event_size then
        let '(sec, usec, event_type, code, value) := unpack event_data in
        if ((event_type =? 1) && (value =? 1))%bool then
          let char := keycode_to_char code in
          if PyStr.truthy char then
            if String.eqb char (String "010" "") then
              if PyStr.truthy (PyStr.strip scan_buffer) then
                process_scan env (PyStr.strip scan_buffer) ;;
                ret ""
              else ret scan_buffer
            else ret (scan_buffer ++ char)
          else ret scan_buffer
        else ret scan_buffer
      else emit (Sleep (SECOND / 100)) ;; ret scan_buffer
  | DeviceReadRaises e =>
      log ERROR ("Error reading event: " ++ e) ;;
      emit (Sleep (SECOND / 10)) ;;
      ret scan_buffer
  end.

(** The turns of the loop over the reads, the flag [running] being
    set. *)
Fixpoint device_loop (net : Net) (reads : list (Time * DeviceReadResult))
    (scan_buffer : string) : M Listener string :=
  match reads with
  | [] => ret scan_buffer
  | (t, r) :: rest =>
      scan_buffer' <- device_step (at_time net t) r scan_buffer ;;
      device_loop net rest scan_buffer'
  end.

(** [while self.running: ...]: the flag is tested before each read;
    when it is not set the loop is left, the device is closed and the
    method returns. *)
Fixpoint device_while (net : Net) (reads : list (Time * DeviceReadResult))
    (scan_buffer : string) : M Listener (option string) :=
  l <- get ;;
  if running l then
    match reads with
    | [] => ret (Some scan_buffer)
    | (t, r) :: rest =>
        scan_buffer' <- device_step (at_time net t) r scan_buffer ;;
        device_while net rest scan_buffer'
    end
  else ret None.

(** Opening the device for the read loop. *)
Inductive DeviceOpen :=
| OpenPermissionError
| OpenRaises (e : string)
| Opened (reads : list (Time * DeviceReadResult)).

(** The value is the local buffer when the reads of the run are
    exhausted, [None] when the method has returned. *)
Definition read_rfid_from_device (net : Net) (device_path : string)
    (device : DeviceOpen) : M Listener (option string) :=
  emit (Call "read_rfid_from_device" device_path) ;;
  log INFO ("Reading RFID input from device: " ++ device_path) ;;
  match device with
  | Opened reads => device_while net reads ""
  | OpenPermissionError =>
      log ERROR ("Permission denied accessing " ++ device_path) ;;
      log INFO "Run: sudo usermod -a -G input $(whoami) && newgrp input" ;;
      ret None
  | OpenRaises e =>
      log ERROR ("Error reading from device " ++ device_path ++ ": " ++ e) ;;
      ret None
  end.

(** ** [start_listening] *)

(** The inputs of one run: the host, the consumer, what the device
    yields when it is opened for reading, and the reads of stdin. *)
Record Run := {
  host : Host;
  net : Net;
  device : DeviceOpen;
  stdin : list (Time * StdinReadResult)
}.

(** The statement [if self.device_path: ... else: ...] of
    [start_listening]. *)
Definition select_and_read (run : Run) (found : option string)
  : M Listener unit :=
  match found with
  | Some device_path =>
      if PyStr.truthy device_path then
        alive <- test_device_input (host run) device_path ;;
        if truthy_result alive then
          log INFO ("Using device input method: " ++ device_path) ;;
          read_rfid_from_device (net run) device_path (device run) ;;
          ret tt
        else
          log WARNING "Device test failed, falling back to stdin" ;;
          read_rfid_from_stdin (net run) (stdin run) ;;
          ret tt
      else
        log INFO "No RFID device auto-detected, using stdin method" ;;
        log INFO "Make sure this terminal has focus when scanning" ;;
        read_rfid_from_stdin (net run) (stdin run) ;;
        ret tt
  | None =>
      log INFO "No RFID device auto-detected, using stdin method" ;;
      log INFO "Make sure this terminal has focus when scanning" ;;
      read_rfid_from_stdin (net run) (stdin run) ;;
      ret tt
  end.

Definition start_listening (run : Run) : M Listener unit :=
  modify (set_running true) ;;
  log INFO "Enhanced RFID Listener starting..." ;;
  found <- find_rfid_device (host run) ;;
  modify (set_device_path found) ;;
  l <- get ;;
  select_and_read run (device_path l).

Definition stop_listening : M Listener unit :=
  modify (set_running false) ;;
  log INFO "RFID listener stopped".

(** The acquisition strategy of a run, read off its trace: the read
    loop that was entered. *)
Inductive AcquisitionStrategy :=
| DeviceRead (device_path : string)
| StdinRead.

Fixpoint strategy_of (t : list Event) : option AcquisitionStrategy :=
  match t with
  | [] => None
  | Call m a :: t' =>
      if String.eqb m "read_rfid_from_device" then Some (DeviceRead a)
      else if String.eqb m "read_rfid_from_stdin" then Some StdinRead
      else strategy_of t'
  | _ :: t' => strategy_of t'
  end.

End EnhancedRFIDListener.

(* ================================================================== *)
(** * The rules of the specification, in its words *)
(* ================================================================== *)

Module Spec.

(** Shape rule of the validator as the specification words it: the
    length lies in [6, 20] and, after removing space characters, every
    remaining character is alphanumeric. *)
Definition shape_rule (candidate : string) : bool :=
  ((6 <=? PyStr.len candidate) && (PyStr.len candidate <=? 20)
   && PyStr.all_chars PyStr.isalnum_char (PyStr.remove_spaces candidate))%bool.

End Spec.

(* ================================================================== *)
(** * Observations on runs *)
(* ================================================================== *)

Module Obs.

Definition is_log (e : Event) : bool :=
  match e with Log _ _ => true | _ => false end.

(** The ways a delivery fails: the request raises, the status is not
    200, or the body of a 200 response cannot be read. *)
Definition delivery_failed (o : HttpOutcome) : Prop :=
  match o with
  | PostRaises _ => True
  | Response status_code _ json =>
      status_code <> 200 \/ exists e, json = inl e
  end.

(** A scan is accepted when it passed validation and the duplicate
    filter; its trace then holds the request of the delivery. *)
Definition accepted (o : Time * list Event) : bool :=
  existsb is_post (snd o).

(** The instants of the accepted scans of a run, in order. *)
Definition acceptance_times (outs : list (Time * list Event)) : list Time :=
  map fst (filter accepted outs).

(** [b] is at least one second after [a]. *)
Definition spaced (a b : Time) : Prop := a + 1 * SECOND <= b.

(** An event that is not a call of [method]. *)
Definition quiet (method : string) (e : Event) : bool :=
  match e with
  | Call m _ => negb (String.eqb m method)
  | _ => true
  end.

End Obs.

Module BasicObs.
Import PyStr Obs RFIDListener.

(** The world after an acceptance at [t]. *)
Definition accepted_at (t : Time) (w : World) : World :=
  {| self := set_last_scan_time t (self w);
     timers := timers w; next_timer := next_timer w |}.

Definition the_post (w : World) (rfid : string) : Event :=
  HttpPost (flask_url (self w)) [("rfid", rfid)] 5
           [("Content-Type", "application/json")].

(** The case analysis of one scan. *)
Inductive verdict := Invalid | Duplicate | Accepted.

Definition verdict_of (env : Env) (d : string) (w : World) : verdict :=
  if negb (is_valid_rfid (strip d)) then Invalid
  else if now env - last_scan_time (self w) <? 1 * SECOND then Duplicate
  else Accepted.


(** Scans processed in order, each at its instant: per scan, the
    instant and the trace it produced; and the final state. *)
Fixpoint process_scans (net : Net) (scans : list (Time * string)) (w : World)
  : list (Time * list Event) * World :=
  match scans with
  | [] => ([], w)
  | (t, rfid_data) :: rest =>
      let r := process_scan (at_time net t) rfid_data w in
      let '(outs, w') := process_scans net rest (state_of r) in
      ((t, trace_of r) :: outs, w')
  end.

End BasicObs.

Module EnhancedObs.
Import PyStr Obs EnhancedRFIDListener.

(** The listener after an acceptance at [t]. *)
Definition accepted_at (t : Time) (w : Listener) : Listener :=
  set_last_scan_time t w.

Definition the_post (w : Listener) (rfid : string) : Event :=
  HttpPost (flask_url w) [("rfid", rfid)] 5
           [("Content-Type", "application/json")].

(** The case analysis of one scan. *)
Inductive verdict := Invalid | Duplicate | Accepted.

Definition verdict_of (env : Env) (d : string) (w : Listener) : verdict :=
  if negb (is_valid_rfid (strip d)) then Invalid
  else if now env - last_scan_time w <? 1 * SECOND then Duplicate
  else Accepted.


(** Scans processed in order, each at its instant: per scan, the
    instant and the trace it produced; and the final state. *)
Fixpoint process_scans (net : Net) (scans : list (Time * string)) (w : Listener)
  : list (Time * list Event) * Listener :=
  match scans with
  | [] => ([], w)
  | (t, rfid_data) :: rest =>
      let r := process_scan (at_time net t) rfid_data w in
      let '(outs, w') := process_scans net rest (state_of r) in
      ((t, trace_of r) :: outs, w')
  end.

(** ** The device locator and the probe *)

(** [s] holds one of the known signatures. *)
Definition matches_signature (s : string) : bool :=
  existsb (fun pattern => Re.search true pattern s) RFID_READER_PATTERNS.

(** Neither the registry nor the directory of stable names holds a
    signature; the registry may be unreadable and the directory
    absent. *)
Definition no_signature (host : Host) : Prop :=
  match proc_bus_input_devices host with
  | inl _ => True
  | inr content =>
      forallb (fun b => negb (matches_signature b)) (Re.split_blank content)
      = true
  end /\
  (path_exists host by_id_path = true ->
   forallb (fun link => negb (matches_signature link)) (listdir_by_id host)
   = true).

(** What [test_device_input] returns on each outcome of the probe. *)
Definition probe_value (o : ProbeOutcome) : option bool :=
  match o with
  | ProbeRead (_ :: _) => Some true
  | ProbeRead [] => None
  | ProbePermissionError | ProbeRaises _ _ | ProbeTimeout => Some false
  end.

(** A run of the locator that found nothing and logged at most. *)
Definition nothing_found (r : option string * Listener * list Event)
    (l : Listener) : Prop :=
  value_of r = None /\ state_of r = l /\ forallb is_log (trace_of r) = true.

(** What the locator yields at the start of a run. *)
Definition located (run : Run) (l : Listener) : option string :=
  value_of (find_rfid_device (host run) (set_running true l)).

(** The listener when the read loop is chosen. *)
Definition selecting (run : Run) (l : Listener) : Listener :=
  set_device_path (located run l) (set_running true l).

(** ** Records of the device *)

Definition event_type (event_data : list byte) : Z :=
  let '(_, _, event_type, _, _) := unpack event_data in event_type.

Definition event_code (event_data : list byte) : Z :=
  let '(_, _, _, code, _) := unpack event_data in code.

Definition event_value (event_data : list byte) : Z :=
  let '(_, _, _, _, value) := unpack event_data in value.

(** A record of the fixed size that reports a key as pressed. *)
Definition is_key_press (event_data : list byte) : bool :=
  ((Z.of_nat (List.length event_data) =? event_size)
   && (event_type event_data =? 1) && (event_value event_data =? 1))%bool.






End EnhancedObs.

(* ================================================================== *)
(** * Concrete inputs *)
(* ================================================================== *)

Module Examples.

Definition album : ScanResult :=
  {| mapped := true; music_dir := "/home/music/album";
     playback_triggered := true |}.

(** A consumer that maps every card. *)
Definition net_ok : Net := fun _ _ _ => Response 200 "" (inr album).

(** A consumer that cannot be reached. *)
Definition net_down : Net :=
  fun _ _ _ => PostRaises (RequestException "Connection refused").

(** A consumer that answers with a server error. *)
Definition net_500 : Net :=
  fun _ _ _ => Response 500 "Internal Server Error"
                 (inl (OtherException "Expecting value")).

(** Some instant, in microseconds since the epoch. *)
Definition T0 : Time := 1700000000 * SECOND.

Definition basic0 : RFIDListener.World :=
  RFIDListener.boot
    (RFIDListener.__init__ RFIDListener.FLASK_HOST RFIDListener.FLASK_PORT).

Definition enhanced0 : EnhancedRFIDListener.Listener :=
  EnhancedRFIDListener.__init__ EnhancedRFIDListener.FLASK_HOST
    EnhancedRFIDListener.FLASK_PORT.

(** The characters of [s] read one after the other, all at [t]. *)
Definition typed (t : Time) (s : string)
  : list (Time * RFIDListener.StdinReadResult) :=
  map (fun c => (t, RFIDListener.ReadChar c)) (list_ascii_of_string s).

Definition typed' (t : Time) (s : string)
  : list (Time * EnhancedRFIDListener.StdinReadResult) :=
  map (fun c => (t, EnhancedRFIDListener.ReadChar c)) (list_ascii_of_string s).

(** A host whose registry lists a keyboard only and that has no
    directory of stable names. *)
Definition keyboard_block : string :=
  "I: Bus=0011 Vendor=0001 Product=0001 Version=ab41" ++ String "010"
  ("N: Name=AT Translated Set 2 keyboard" ++ String "010"
  ("H: Handlers=sysrq kbd event3 leds" ++ String "010" "")).

Definition reader_block : string :=
  "I: Bus=0003 Vendor=05fe Product=1010 Version=0110" ++ String "010"
  ("N: Name=CHICONY HID Technology Keyboard" ++ String "010"
  ("H: Handlers=sysrq kbd event7 leds" ++ String "010" "")).

Definition host_without_reader : EnhancedRFIDListener.Host :=
  {| EnhancedRFIDListener.proc_bus_input_devices := inr keyboard_block;
     EnhancedRFIDListener.path_exists :=
       fun p => String.eqb p "/dev/input/event3";
     EnhancedRFIDListener.listdir_by_id := [];
     EnhancedRFIDListener.realpath := fun p => p;
     EnhancedRFIDListener.probe :=
       fun _ => EnhancedRFIDListener.ProbeTimeout |}.

(** A host with a reader on [event7], and what its probe meets. *)
Definition host_with_reader (o : EnhancedRFIDListener.ProbeOutcome)
  : EnhancedRFIDListener.Host :=
  {| EnhancedRFIDListener.proc_bus_input_devices :=
       inr (keyboard_block ++ String "010" reader_block);
     EnhancedRFIDListener.path_exists :=
       fun p => (String.eqb p "/dev/input/event3"
                 || String.eqb p "/dev/input/event7")%bool;
     EnhancedRFIDListener.listdir_by_id := [];
     EnhancedRFIDListener.realpath := fun p => p;
     EnhancedRFIDListener.probe := fun _ => o |}.

Definition run_on (h : EnhancedRFIDListener.Host) : EnhancedRFIDListener.Run :=
  {| EnhancedRFIDListener.host := h;
     EnhancedRFIDListener.net := net_ok;
     EnhancedRFIDListener.device := EnhancedRFIDListener.Opened [];
     EnhancedRFIDListener.stdin := [] |}.

(** The record of a key press: two zero timestamps, type 1, the code,
    value 1. *)
Definition press (code : byte) : list byte :=
  (repeat "000"%byte 16 ++ ["001"; "000"; code; "000";
                            "001"; "000"; "000"; "000"]%byte)%list.



End Examples.

(** ** A callback of the timer that overlaps the read loop *)

Module TimerExamples.
Import Examples.

(** The characters of [s], all arriving at [t]. *)
Definition arriving (t : Time) (s : string) : list (Time * ascii) :=
  map (fun c => (t, c)) (list_ascii_of_string s).

(** Six digits are typed at [T0] without a terminator; the listener is
    looked at one second later, its timer pending. *)
Definition six_digits : RFIDListener.World :=
  state_of (RFIDListener.start_listening net_ok (typed T0 "123456")
              (T0 + 1 * SECOND) basic0).

(** The timer fires two seconds after the digits; the consumer takes
    more than two seconds to answer, and the terminator of the card
    arrives in between, four seconds after the digits. *)
Definition late_terminator
  : unit * RFIDListener.World * list Event :=
  TimerThread.fire_overlapped net_ok 5%nat (T0 + 2 * SECOND)
    [(T0 + 4 * SECOND, "010"%char)] six_digits.

(** The same firing, the consumer taking more than one second to
    answer and a seventh digit arriving in between, three seconds
    after the six. *)
Definition seventh_digit
  : unit * RFIDListener.World * list Event :=
  TimerThread.fire_overlapped net_ok 5%nat (T0 + 2 * SECOND)
    [(T0 + 3 * SECOND, "7"%char)] six_digits.

(** The timer of the seventh digit fires in its turn, five seconds
    after the first six digits, nothing else having arrived. *)
Definition lost_digit : unit * RFIDListener.World * list Event :=
  TimerThread.fire_overlapped net_ok 6%nat (T0 + 5 * SECOND) []
    (state_of seventh_digit).

(** After the seventh digit and the answer of the consumer, the six
    digits of another card arrive, four seconds after the first
    six. *)
Definition next_card : unit * RFIDListener.World * list Event :=
  TimerThread.reads_on net_ok (arriving (T0 + 4 * SECOND) "654321")
    (state_of seventh_digit).

(** The timer of the seventh digit fires, five seconds after the first
    six digits and one second after the digits of the other card,
    nothing arriving meanwhile. *)
Definition early_flush : unit * RFIDListener.World * list Event :=
  TimerThread.fire_overlapped net_ok 6%nat (T0 + 5 * SECOND) []
    (state_of next_card).

(** The timer of the other card fires in its turn. *)
Definition late_flush : unit * RFIDListener.World * list Event :=
  TimerThread.fire_overlapped net_ok 12%nat (T0 + 6 * SECOND) []
    (state_of early_flush).

End TimerExamples.

(* ================================================================== *)
(** * Further observations on the listeners *)
(* ================================================================== *)

Module MoreObs.
Import PyStr Obs.

(** A digit or a lower-case letter of ASCII. *)
Definition is_key_char (c : ascii) : bool :=
  (between 48 57 c || between 97 122 c)%bool.

(** The length of a string is in the closed interval [6, 20]. *)
Definition length_ok (s : string) : bool :=
  ((6 <=? len s) && (len s <=? 20))%bool.

(** A request as the listeners make it when all is well: to [url],
    with a body of the one key [rfid] whose value is valid and has no
    surrounding whitespace, and with the timeout 5. *)
Definition sound_event (url : string) (e : Event) : bool :=
  match e with
  | HttpPost u [(key, rfid)] timeout _ =>
      (String.eqb u url && String.eqb key "rfid" && (timeout =? 5)
       && RFIDListener.is_valid_rfid rfid
       && String.eqb (strip rfid) rfid)%bool
  | HttpPost _ _ _ _ => false
  | _ => true
  end.

(** All the reads of a run happen in the second that starts at [T]. *)
Definition burst {R} (T : Time) (reads : list (Time * R)) : bool :=
  forallb (fun r => (T <=? fst r) && (fst r <? T + 1 * SECOND))%bool reads.

(** No string occurs twice in [l]. *)
Fixpoint nodupb (l : list string) : bool :=
  match l with
  | [] => true
  | x :: l' => (negb (existsb (String.eqb x) l') && nodupb l')%bool
  end.

(** The first element of [l] on which [f] yields something. *)
Fixpoint first_hit {A B} (f : A -> option B) (l : list A) : option B :=
  match l with
  | [] => None
  | x :: l' => match f x with Some y => Some y | None => first_hit f l' end
  end.

(** A run that keeps the scan URL of the listener and makes sound
    requests only; [url_of] reads the URL off the state. *)
Definition sound_run {S A} (url_of : S -> string) (m : M S A) : Prop :=
  forall s,
    url_of (state_of (m s)) = url_of s /\
    forallb (sound_event (url_of s)) (trace_of (m s)) = true.

(** The scan URL of the simple listener. *)
Definition basic_url (w : RFIDListener.World) : string :=
  RFIDListener.flask_url (RFIDListener.self w).

(** A read of stdin that raises. *)
Definition read_raises (r : EnhancedRFIDListener.StdinReadResult) : bool :=
  match r with
  | EnhancedRFIDListener.ReadRaises _ => true
  | _ => false
  end.

(** The listener [l'] is [l] but for the time of its last scan. *)
Definition same_but_time (l l' : EnhancedRFIDListener.Listener) : Prop :=
  EnhancedRFIDListener.flask_url l' = EnhancedRFIDListener.flask_url l /\
  EnhancedRFIDListener.running l' = EnhancedRFIDListener.running l /\
  EnhancedRFIDListener.device_path l' = EnhancedRFIDListener.device_path l.

(** A step of a read loop either makes no request and keeps the
    listener, or does what one call of [process_scan] does. *)
Definition scan_or_nothing {A} (env : Env)
    (l : EnhancedRFIDListener.Listener)
    (r : A * EnhancedRFIDListener.Listener * list Event) : Prop :=
  (state_of r = l /\ posts (trace_of r) = []) \/
  (exists d,
     state_of r = state_of (EnhancedRFIDListener.process_scan env d l) /\
     posts (trace_of r)
       = posts (trace_of (EnhancedRFIDListener.process_scan env d l))).

End MoreObs.

Module LocatorObs.
Import PyStr Obs EnhancedRFIDListener EnhancedObs MoreObs.

(** What a block of the registry yields: the device of its first
    handler, when the block holds a signature and the device exists. *)
Definition registry_hit (host : Host) (device_block : string) : option string :=
  if matches_signature device_block then
    match Re.first_handler device_block with
    | Some event_device =>
        if path_exists host ("/dev/input/" ++ event_device)
        then Some ("/dev/input/" ++ event_device) else None
    | None => None
    end
  else None.

(** What a stable name yields: the real path of the link, when the
    name holds a signature and the link exists. *)
Definition by_id_hit (host : Host) (device_link : string) : option string :=
  if (matches_signature device_link
      && path_exists host (by_id_path ++ "/" ++ device_link))%bool
  then Some (realpath host (by_id_path ++ "/" ++ device_link))
  else None.

(** The layered search: the registry first, block by block, then the
    stable names, one by one. *)
Definition locate (host : Host) : option string :=
  match match proc_bus_input_devices host with
        | inr content => first_hit (registry_hit host) (Re.split_blank content)
        | inl _ => None
        end with
  | Some p => Some p
  | None =>
      if path_exists host by_id_path
      then first_hit (by_id_hit host) (listdir_by_id host)
      else None
  end.

(** The strategy that the locator and the probe call for. *)
Definition expected_strategy (host : Host) : AcquisitionStrategy :=
  match locate host with
  | Some p =>
      if (truthy p && truthy_result (probe_value (probe host p)))%bool
      then DeviceRead p else StdinRead
  | None => StdinRead
  end.

End LocatorObs.

(* ================================================================== *)
(** * [main] and [check_flask_app] of the two listeners *)
(* ================================================================== *)

Module Main.

Local Open Scope monad_scope.

(** What [requests.get] of the health endpoint does at one call: it
    raises, or it returns a response with a status code. *)
Inductive HealthOutcome :=
| HealthRaises
| HealthStatus (status_code : Z).

(** The events of [main]: the request of a health check, and the
    events of the listener. *)
Inductive MainEvent :=
| HealthGet (url : string) (timeout : Z)
| Of (e : Event).

(** [check_flask_app]: the bare [except] turns every exception into
    [False]. *)
Definition check_flask_app (o : HealthOutcome) : bool :=
  match o with
  | HealthStatus status_code => status_code =? 200
  | HealthRaises => false
  end.

Definition health_url (host : string) (port : Z) : string :=
  "http://" ++ host ++ ":" ++ PyStr.str_of_Z port ++ "/health".

(** The loop [while not check_flask_app(): ...] over the outcomes of
    the successive checks; [retry] is the line logged before each
    sleep of five seconds.  The value is [true] when a check
    succeeded, [false] when the outcomes of the run are exhausted
    while the loop still waits. *)
Fixpoint wait_for_flask (url retry : string) (checks : list HealthOutcome)
  : bool * list MainEvent :=
  match checks with
  | [] => (false, [])
  | o :: rest =>
      if check_flask_app o then (true, [HealthGet url 2])
      else
        let '(ready, t) := wait_for_flask url retry rest in
        (ready,
         HealthGet url 2 :: Of (Log INFO retry) :: Of (Sleep (5 * SECOND)) :: t)
  end.

(** [main] of [rfid_listener.py]: the trace, and the world of the
    listener once it has run, if it was started. *)
Definition main_basic (checks : list HealthOutcome) (net : Net)
    (reads : list (Time * RFIDListener.StdinReadResult)) (horizon : Time)
  : list MainEvent * option RFIDListener.World :=
  let host := RFIDListener.FLASK_HOST in
  let port := RFIDListener.FLASK_PORT in
  let '(ready, waiting) :=
    wait_for_flask (health_url host port)
      ("Flask app not available at " ++ host ++ ":" ++ PyStr.str_of_Z port
       ++ ", retrying in 5 seconds...") checks in
  let before :=
    (Of (Log INFO "Starting RFID Listener Service")
     :: Of (Log INFO "Waiting for Flask app to be available...")
     :: waiting)%list in
  if ready then
    let listener := RFIDListener.__init__ host port in
    let r := RFIDListener.start_listening net reads horizon
               (RFIDListener.boot listener) in
    ((before
      ++ Of (Log INFO "Flask app is available, starting RFID listener")
         :: map Of (trace_of r))%list,
     Some (state_of r))
  else (before, None).

(** [main] of [rfid_listener_enhanced.py]. *)
Definition main_enhanced (checks : list HealthOutcome)
    (run : EnhancedRFIDListener.Run)
  : list MainEvent * option EnhancedRFIDListener.Listener :=
  let host := EnhancedRFIDListener.FLASK_HOST in
  let port := EnhancedRFIDListener.FLASK_PORT in
  let '(ready, waiting) :=
    wait_for_flask (health_url host port)
      ("Flask app not available at " ++ host ++ ":" ++ PyStr.str_of_Z port
       ++ ", retrying...") checks in
  let before :=
    (Of (Log INFO "Enhanced RFID Listener Service starting...")
     :: Of (Log INFO "Waiting for Flask app...")
     :: waiting)%list in
  if ready then
    let listener := EnhancedRFIDListener.__init__ host port in
    let r := EnhancedRFIDListener.start_listening run listener in
    ((before
      ++ Of (Log INFO "✓ Flask app is available")
         :: map Of (trace_of r))%list,
     Some (state_of r))
  else (before, None).

(** One failed check: the request, the line, the sleep. *)
Definition one_wait (url retry : string) : list MainEvent :=
  [HealthGet url 2; Of (Log INFO retry); Of (Sleep (5 * SECOND))].

(** The events of the listener in a trace of [main]. *)
Fixpoint listener_events (t : list MainEvent) : list Event :=
  match t with
  | [] => []
  | Of (Log _ _) :: t' | Of (Sleep _) :: t' | HealthGet _ _ :: t' =>
      listener_events t'
  | Of e :: t' => e :: listener_events t'
  end.

End Main.

(* ================================================================== *)
(** * Further concrete inputs *)
(* ================================================================== *)

Module MoreExamples.
Import Examples.

(** A reader that answers the probe but may not be opened for the
    read loop. *)
Definition run_closed : EnhancedRFIDListener.Run :=
  {| EnhancedRFIDListener.host :=
       host_with_reader (EnhancedRFIDListener.ProbeRead (press "002"));
     EnhancedRFIDListener.net := net_ok;
     EnhancedRFIDListener.device := EnhancedRFIDListener.OpenPermissionError;
     EnhancedRFIDListener.stdin := typed' T0 ("123456" ++ String "010" "") |}.

(** Two cards typed one after the other in the same instant, on a
    host without a reader. *)
Definition run_two_cards : EnhancedRFIDListener.Run :=
  {| EnhancedRFIDListener.host := host_without_reader;
     EnhancedRFIDListener.net := net_ok;
     EnhancedRFIDListener.device := EnhancedRFIDListener.Opened [];
     EnhancedRFIDListener.stdin :=
       typed' T0 ("123456" ++ String "010" ("654321" ++ String "010" "")) |}.

(** The type, the code and the value of the press of the key 1. *)
Definition key_1 : list byte :=
  ["001"; "000"; "002"; "000"; "001"; "000"; "000"; "000"]%byte.

(** The consumer raises, answers 503, then answers 200. *)
Definition slow_start : list Main.HealthOutcome :=
  [Main.HealthRaises; Main.HealthStatus 503; Main.HealthStatus 200].

End MoreExamples.

(* ================================================================== *)
(** * [app.py]: the consumer of the scans *)
(* ================================================================== *)

(** Modelling conventions of this part.
    - The table [rfid_map] of the SQLite database is the list of its
      rows, in the order of their insertion; the column [rfid] is the
      primary key.  [CURRENT_TIMESTAMP] is the clock of the world.
      A statement that violates no constraint succeeds.
    - A view is a function of what it reads from the request and of
      the state of the application (the table and the queue); it
      yields what it returns, the new state and the effects in order.
    - [request.get_json()] yields [None] or an object whose values are
      strings, as those of the senders of this repository are. *)

Module DatabaseManager.

Record Row := {
  rfid : string;
  music_dir : string;
  album_title : option string;
  artist : option string;
  cover_path : option string;
  created_at : Time;
  last_played : option Time
}.

Definition Table := list Row.

(** [sqlite3.IntegrityError], with its message.  The database is the
    table alone and one request is served at a time: the one error of
    a statement is that of the primary key.  The errors of the file or
    of the connection, and requests served together, are not
    modelled. *)
Inductive DbError := IntegrityError (e : string).

(** [CREATE TABLE IF NOT EXISTS]: a table that exists is kept. *)
Definition init_database (file : option Table) : Table :=
  match file with
  | Some t => t
  | None => []
  end.

(** [WHERE rfid = ?] *)
Definition has_rfid (key : string) (r : Row) : bool := String.eqb (rfid r) key.

(** [fetchone()] of the selection: the first row, or [None]. *)
Definition get_mapping (key : string) (t : Table) : option Row :=
  find (has_rfid key) t.

(** [INSERT INTO rfid_map]: the primary key must be new; [created_at]
    takes its default and [last_played] is [NULL]. *)
Definition create_mapping (now : Time) (key dir : string)
    (title who cover : option string) (t : Table) : DbError + Table :=
  if existsb (has_rfid key) t then
    inl (IntegrityError "UNIQUE constraint failed: rfid_map.rfid")
  else
    inr (t ++ [{| rfid := key; music_dir := dir; album_title := title;
                  artist := who; cover_path := cover; created_at := now;
                  last_played := None |}])%list.

(** The assignments of [update_mapping]: each argument that is not
    [None] replaces the column. *)
Definition updated (dir title who cover : option string) (r : Row) : Row :=
  {| rfid := rfid r;
     music_dir := match dir with Some d => d | None => music_dir r end;
     album_title := match title with Some a => Some a | None => album_title r end;
     artist := match who with Some a => Some a | None => artist r end;
     cover_path := match cover with Some c => Some c | None => cover_path r end;
     created_at := created_at r;
     last_played := last_played r |}.

(** [updates] is not empty. *)
Definition any_update (dir title who cover : option string) : bool :=
  match dir, title, who, cover with
  | None, None, None, None => false
  | _, _, _, _ => true
  end.

Definition update_mapping (key : string) (dir title who cover : option string)
    (t : Table) : Table :=
  if any_update dir title who cover then
    map (fun r => if has_rfid key r then updated dir title who cover r else r) t
  else t.

Definition delete_mapping (key : string) (t : Table) : Table :=
  filter (fun r => negb (has_rfid key r)) t.

Definition played (now : Time) (r : Row) : Row :=
  {| rfid := rfid r; music_dir := music_dir r; album_title := album_title r;
     artist := artist r; cover_path := cover_path r;
     created_at := created_at r; last_played := Some now |}.

Definition update_last_played (now : Time) (key : string) (t : Table) : Table :=
  map (fun r => if has_rfid key r then played now r else r) t.

End DatabaseManager.

Module App.
Import DatabaseManager.

(** The settings read from the environment. *)
Record Config := {
  MACOS_HOST : string;
  MACOS_PORT : string
}.

Definition defaults : Config :=
  {| MACOS_HOST := "192.168.1.100"; MACOS_PORT := "5001" |}.

(** The state of the application: the table and [rfid_queue], the
    oldest entry first. *)
Record State := {
  db : Table;
  rfid_queue : list string
}.

(** What [requests.post] to the playback host does. *)
Inductive PlayOutcome :=
| PlayRaises (e : string)
| PlayStatus (status_code : Z).

(** The outside of the application at one request. *)
Record World := {
  clock : Time;
  macos : string -> Dict -> PlayOutcome
}.

Inductive AppEvent :=
| Post (url : string) (json : Dict) (timeout : Z)
| Print (msg : string)
| Flash (message category : string).

(** [key in d] and [d[key]]; of two bindings of a key the later one
    holds. *)
Fixpoint item (key : string) (d : Dict) : option string :=
  match d with
  | [] => None
  | (k, v) :: d' =>
      match item key d' with
      | Some v' => Some v'
      | None => if String.eqb k key then Some v else None
      end
  end.

(** Truth value of a [dict]. *)
Definition truthy_dict (d : Dict) : bool :=
  match d with [] => false | _ :: _ => true end.

(** Truth value of a string that may be [None]. *)
Definition truthy_opt (s : option string) : bool :=
  match s with Some s => PyStr.truthy s | None => false end.

Definition trigger_playback (cfg : Config) (world : World) (key : string)
  : bool * list AppEvent :=
  let url := "http://" ++ MACOS_HOST cfg ++ ":" ++ MACOS_PORT cfg ++ "/play" in
  let payload := [("rfid", key)] in
  match macos world url payload with
  | PlayStatus status_code => (status_code =? 200, [Post url payload 5])
  | PlayRaises e =>
      (false, [Post url payload 5; Print ("Error triggering playback: " ++ e)])
  end.

(** What [handle_scan] returns. *)
Inductive ScanReply :=
| BadRequest (error : string)                            (* status 400 *)
| Mapped (key dir : string) (title who : option string)
         (playback_triggered : bool)                     (* status 200 *)
| Unmapped (key message : string).                       (* status 200 *)

Definition status_of (r : ScanReply) : Z :=
  match r with
  | BadRequest _ => 400
  | Mapped _ _ _ _ _ | Unmapped _ _ => 200
  end.

Definition handle_scan (cfg : Config) (world : World) (data : option Dict)
    (st : State) : ScanReply * State * list AppEvent :=
  match data with
  | None => (BadRequest "No RFID provided", st, [])
  | Some data =>
      match truthy_dict data, item "rfid" data with
      | true, Some value =>
          let key := PyStr.strip value in
          if negb (PyStr.truthy key) then (BadRequest "Empty RFID", st, [])
          else
            match get_mapping key (db st) with
            | Some mapping =>
                let db' := update_last_played (clock world) key (db st) in
                let '(success, events) := trigger_playback cfg world key in
                (Mapped key (music_dir mapping) (album_title mapping)
                        (artist mapping) success,
                 {| db := db'; rfid_queue := rfid_queue st |},
                 events)
            | None =>
                (Unmapped key
                   "RFID not mapped. Please assign via web interface.",
                 {| db := db st;
                    rfid_queue := (rfid_queue st ++ [key])%list |},
                 [])
            end
      | _, _ => (BadRequest "No RFID provided", st, [])
      end
  end.

(** The target of a redirection. *)
Inductive Redirect :=
| ToIndex
| ToAssign
| ToEdit (key : string).

(** The pending identifier that the [GET] branch of [assign] hands to
    the page: the argument of the request, or else the oldest entry of
    the queue, which is taken out of it. *)
Definition assign_get (arg : option string) (st : State)
  : option string * State :=
  if negb (truthy_opt arg) then
    match rfid_queue st with
    | oldest :: later => (Some oldest, {| db := db st; rfid_queue := later |})
    | [] => (arg, st)
    end
  else (arg, st).

(** The [POST] branch of [assign], on the fields of the form.  The
    handler of [except Exception] is met here by the error of
    [create_mapping] alone, the one error of [DatabaseManager]. *)
Definition assign_post (world : World) (key dir : option string)
    (title who : string) (st : State) : Redirect * State * list AppEvent :=
  match key, dir with
  | Some key, Some dir =>
      if (negb (PyStr.truthy key) || negb (PyStr.truthy dir))%bool then
        (ToAssign, st, [Flash "RFID and music directory are required" "error"])
      else
        match get_mapping key (db st) with
        | Some existing =>
            (ToAssign, st,
             [Flash ("RFID " ++ key ++ " is already assigned to "
                     ++ music_dir existing) "error"])
        | None =>
            match create_mapping (clock world) key dir (Some title) (Some who)
                    None (db st) with
            | inr db' =>
                (ToIndex, {| db := db'; rfid_queue := rfid_queue st |},
                 [Flash ("Successfully assigned RFID " ++ key ++ " to " ++ dir)
                        "success"])
            | inl (IntegrityError e) =>
                (ToAssign, st,
                 [Flash ("Error creating assignment: " ++ e) "error"])
            end
        end
  | _, _ =>
      (ToAssign, st, [Flash "RFID and music directory are required" "error"])
  end.

(** The [POST] branch of [edit]. *)
Definition edit_post (key : string) (title who : string) (st : State)
  : Redirect * State * list AppEvent :=
  match get_mapping key (db st) with
  | None => (ToIndex, st, [Flash "RFID mapping not found" "error"])
  | Some _ =>
      (ToIndex,
       {| db := update_mapping key None (Some title) (Some who) None (db st);
          rfid_queue := rfid_queue st |},
       [Flash "Mapping updated successfully" "success"])
  end.

Definition unassign (key : string) (st : State)
  : Redirect * State * list AppEvent :=
  match get_mapping key (db st) with
  | Some _ =>
      (ToIndex,
       {| db := delete_mapping key (db st); rfid_queue := rfid_queue st |},
       [Flash ("Successfully removed mapping for RFID " ++ key) "success"])
  | None => (ToIndex, st, [Flash "RFID mapping not found" "error"])
  end.

(** The requests that change the state, and the run of a sequence of
    them. *)
Inductive Request :=
| Scan (world : World) (data : option Dict)
| AssignGet (arg : option string)
| AssignPost (world : World) (key dir : option string) (title who : string)
| EditPost (key title who : string)
| Unassign (key : string).

Definition serve (cfg : Config) (q : Request) (st : State) : State :=
  match q with
  | Scan world data => snd (fst (handle_scan cfg world data st))
  | AssignGet arg => snd (assign_get arg st)
  | AssignPost world key dir title who =>
      snd (fst (assign_post world key dir title who st))
  | EditPost key title who => snd (fst (edit_post key title who st))
  | Unassign key => snd (fst (unassign key st))
  end.

Definition serve_all (cfg : Config) (qs : list Request) (st : State) : State :=
  fold_left (fun st q => serve cfg q st) qs st.

(** The state of an application that starts on a new database. *)
Definition fresh : State := {| db := init_database None; rfid_queue := [] |}.

(** The keys of the table. *)
Definition keys (st : State) : list string := map rfid (db st).

(** The requests to the playback host in a list of effects. *)
Definition play_posts (events : list AppEvent) : list AppEvent :=
  filter (fun e => match e with Post _ _ _ => true | _ => false end) events.

(** A row but for its column [last_played]. *)
Definition but_last_played (r : Row) : Row :=
  {| rfid := rfid r; music_dir := music_dir r; album_title := album_title r;
     artist := artist r; cover_path := cover_path r;
     created_at := created_at r; last_played := None |}.

End App.

(* ================================================================== *)
(** * [macos_playback_host.py]: the playback host *)
(* ================================================================== *)

Module PlaybackHost.

Definition MPV_COMMAND : string := "mpv".

(** A process started with [subprocess.Popen]. *)
Definition Process := nat.

(** The file system and the processes of the host at one request. *)
Record Host := {
  (** [os.path.exists] *)
  path_exists : string -> bool;
  (** [os.path.isdir] *)
  isdir : string -> bool;
  (** [glob.glob] *)
  glob : string -> list string;
  (** [poll()] is [None]: the process has not ended *)
  alive : Process -> bool;
  (** [wait(timeout=5)] returns after [terminate()] *)
  ends_in_time : Process -> bool
}.

Inductive PlayerEvent :=
| Terminate (p : Process)
| Kill (p : Process)
| PrintLine (msg : string)
| ThreadStart (mpv_args : list string).

Record MusicPlayer := {
  current_process : option Process;
  is_playing : bool
}.

Definition __init__ : MusicPlayer :=
  {| current_process := None; is_playing := false |}.

(** [os.path.join(a, b)] of [posixpath]. *)
Definition path_join (a b : string) : string :=
  if PyStr.startswith "/" b then b
  else if (negb (PyStr.truthy a)
           || match PyStr.last a with
              | Some c => Ascii.eqb c "/"
              | None => false
              end)%bool
       then a ++ b
       else a ++ "/" ++ b.

Definition stop_current_playback (host : Host) (self : MusicPlayer)
  : MusicPlayer * list PlayerEvent :=
  ({| current_process := current_process self; is_playing := false |},
   match current_process self with
   | Some p =>
       if alive host p then
         Terminate p :: (if ends_in_time host p then [] else [Kill p])
       else []
   | None => []
   end).

(** [play_directory] up to its return: the thread that runs [mpv] is
    started and not waited for. *)
Definition play_directory (host : Host) (dir : string) (self : MusicPlayer)
  : bool * MusicPlayer * list PlayerEvent :=
  let '(self1, stopped) := stop_current_playback host self in
  let mp3_files := glob host (path_join dir "*.mp3") in
  match mp3_files with
  | [] =>
      (false, self1,
       (stopped ++ [PrintLine ("No MP3 files found in " ++ dir)])%list)
  | _ :: _ =>
      (true, self1,
       (stopped
        ++ [PrintLine ("Playing "
                       ++ PyStr.str_of_Z (Z.of_nat (List.length mp3_files))
                       ++ " MP3 files from " ++ dir);
            ThreadStart ([MPV_COMMAND; "--no-video"; "--shuffle";
                          "--loop-playlist=inf"; "--volume=80"]
                         ++ mp3_files)])%list)
  end.

(** What [play_music] returns. *)
Inductive PlayReply :=
| NoData                                   (* 400, No data provided *)
| NoRfid                                   (* 400, No RFID provided *)
| NotFound (full_path key : string)        (* 404 *)
| NotADirectory (full_path key : string)   (* 400 *)
| Started (key full_path : string)         (* 200 *)
| Failed (key full_path : string).         (* 500 *)

Definition status_of (r : PlayReply) : Z :=
  match r with
  | NoData | NoRfid | NotADirectory _ _ => 400
  | NotFound _ _ => 404
  | Started _ _ => 200
  | Failed _ _ => 500
  end.

Definition play_music (MUSIC_MOUNT_PATH : string) (host : Host)
    (data : option Dict) (player : MusicPlayer)
  : PlayReply * MusicPlayer * list PlayerEvent :=
  match data with
  | None | Some [] => (NoData, player, [])
  | Some data =>
      match App.item "rfid" data with
      | Some key =>
          if negb (PyStr.truthy key) then (NoRfid, player, [])
          else
            let full_path :=
              match App.item "music_dir" data with
              | Some dir =>
                  if PyStr.truthy dir then dir
                  else path_join MUSIC_MOUNT_PATH key
              | None => path_join MUSIC_MOUNT_PATH key
              end in
            if negb (path_exists host full_path) then
              (NotFound full_path key, player, [])
            else if negb (isdir host full_path) then
              (NotADirectory full_path key, player, [])
            else
              let '(success, player', events) :=
                play_directory host full_path player in
              if success then (Started key full_path, player', events)
              else (Failed key full_path, player', events)
      | None => (NoRfid, player, [])
      end
  end.

(** [stop_music] *)
Definition stop_music (host : Host) (player : MusicPlayer)
  : MusicPlayer * list PlayerEvent :=
  stop_current_playback host player.

(** The playback host as the application reaches it: a request to
    [/play] is served by [play_music], and the application sees the
    status. *)
Definition serving (MUSIC_MOUNT_PATH : string) (host : Host)
    (player : MusicPlayer) : string -> Dict -> App.PlayOutcome :=
  fun _ payload =>
    App.PlayStatus
      (status_of (fst (fst (play_music MUSIC_MOUNT_PATH host (Some payload)
                              player)))).

(** The processes started in a list of effects. *)
Definition thread_starts (events : list PlayerEvent) : list (list string) :=
  flat_map (fun e => match e with ThreadStart a => [a] | _ => [] end) events.

End PlaybackHost.

(* ================================================================== *)
(** * Observations on the consumer and the playback host *)
(* ================================================================== *)

Module AppObs.
Import PyStr DatabaseManager App.

(** The state that the views keep: no two rows have the same key,
    every row has a key and a directory that are not empty, and every
    identifier of the queue is not empty and has no whitespace at
    either end. *)
Definition well_formed (st : State) : Prop :=
  NoDup (keys st) /\
  Forall (fun r => truthy (rfid r) = true /\ truthy (music_dir r) = true)
         (db st) /\
  Forall (fun k => truthy k = true /\ strip k = k) (rfid_queue st).

(** The key of a reply that carries one. *)
Definition reply_key (r : ScanReply) : option string :=
  match r with
  | Mapped k _ _ _ _ | Unmapped k _ => Some k
  | BadRequest _ => None
  end.

(** What a scan adds to the queue. *)
Definition queued (r : ScanReply) : list string :=
  match r with
  | Unmapped k _ => [k]
  | _ => []
  end.

(** The url of the playback host. *)
Definition play_url (cfg : Config) : string :=
  "http://" ++ MACOS_HOST cfg ++ ":" ++ MACOS_PORT cfg ++ "/play".

(** The requests to the playback host that a reply goes with. *)
Definition expected_posts (cfg : Config) (r : ScanReply) : list AppEvent :=
  match r with
  | Mapped k _ _ _ _ => [Post (play_url cfg) [("rfid", k)] 5]
  | _ => []
  end.

(** What [handle_scan] does with the key of a request. *)
Definition scan_of_key (cfg : Config) (world : World) (key : string)
    (st : State) : ScanReply * State * list AppEvent :=
  match get_mapping key (db st) with
  | Some mapping =>
      (Mapped key (music_dir mapping) (album_title mapping) (artist mapping)
              (fst (trigger_playback cfg world key)),
       {| db := update_last_played (clock world) key (db st);
          rfid_queue := rfid_queue st |},
       snd (trigger_playback cfg world key))
  | None =>
      (Unmapped key "RFID not mapped. Please assign via web interface.",
       {| db := db st; rfid_queue := (rfid_queue st ++ [key])%list |},
       [])
  end.

(** The request of a listener, if the event is one: its body. *)
Definition body_of (e : Event) : option Dict :=
  match e with
  | HttpPost _ json _ _ => Some json
  | _ => None
  end.

(** The request of a listener is answered with the status 200, for
    the identifier that it carries. *)
Definition answered (cfg : Config) (world : World) (st : State) (e : Event)
  : bool :=
  match body_of e with
  | Some body =>
      match item "rfid" body,
            reply_key (fst (fst (handle_scan cfg world (Some body) st))) with
      | Some value, Some key =>
          (String.eqb key value
           && (status_of (fst (fst (handle_scan cfg world (Some body) st)))
               =? 200))%bool
      | _, _ => false
      end
  | None => true
  end.

(** What [trigger_playback] returns on an outcome of its request. *)
Definition triggered (o : PlayOutcome) : bool :=
  match o with
  | PlayStatus status_code => status_code =? 200
  | PlayRaises _ => false
  end.

(** The directory holds files that the pattern of the player finds. *)
Definition has_mp3 (host : PlaybackHost.Host) (dir : string) : bool :=
  match PlaybackHost.glob host (PlaybackHost.path_join dir "*.mp3") with
  | [] => false
  | _ :: _ => true
  end.

(** The directory can be played. *)
Definition playable (host : PlaybackHost.Host) (dir : string) : bool :=
  (PlaybackHost.path_exists host dir && PlaybackHost.isdir host dir
   && has_mp3 host dir)%bool.

(** The directory that [play_music] looks at. *)
Definition chosen_path (MUSIC_MOUNT_PATH : string) (data : Dict) (key : string)
  : string :=
  match item "music_dir" data with
  | Some dir =>
      if truthy dir then dir else PlaybackHost.path_join MUSIC_MOUNT_PATH key
  | None => PlaybackHost.path_join MUSIC_MOUNT_PATH key
  end.

(** The arguments of [mpv] for a directory. *)
Definition mpv_args (host : PlaybackHost.Host) (dir : string) : list string :=
  (["mpv"; "--no-video"; "--shuffle"; "--loop-playlist=inf"; "--volume=80"]
   ++ PlaybackHost.glob host (PlaybackHost.path_join dir "*.mp3"))%list.

End AppObs.

Module AppExamples.
Import DatabaseManager App.

Definition album_row : Row :=
  {| rfid := "123456"; music_dir := "/home/music/album";
     album_title := Some "Album"; artist := Some "Artist";
     cover_path := None; created_at := Examples.T0; last_played := None |}.

Definition one_album : State := {| db := [album_row]; rfid_queue := [] |}.

(** A playback host that cannot be reached. *)
Definition unreachable : World :=
  {| clock := Examples.T0;
     macos := fun _ _ => PlayRaises "Connection refused" |}.

(** A playback host whose share holds one directory, named after a
    card, with two files. *)
Definition share : PlaybackHost.Host :=
  {| PlaybackHost.path_exists :=
       fun p => String.eqb p "/Volumes/music/123456";
     PlaybackHost.isdir := fun p => String.eqb p "/Volumes/music/123456";
     PlaybackHost.glob :=
       fun p => if String.eqb p "/Volumes/music/123456/*.mp3"
                then ["/Volumes/music/123456/a.mp3";
                      "/Volumes/music/123456/b.mp3"]
                else [];
     PlaybackHost.alive := fun _ => true;
     PlaybackHost.ends_in_time := fun _ => true |}.

End AppExamples.

(* ================================================================== *)
(** * Facts about the string primitives *)
(* ================================================================== *)

Module PyStrFacts.
Import PyStr.

Lemma truthy_true s : truthy s = true <-> s <> "".
Proof. destruct s; simpl; split; congruence. Qed.

Lemma all_chars_spec p s :
  all_chars p s = true <-> (forall c, In c (chars s) -> p c = true).
Proof.
  induction s as [|a s IH]; simpl.
  - split; [intros _ c []|reflexivity].
  - rewrite andb_true_iff, IH. split.
    + intros [Ha Hs] c [<-|Hc]; auto.
    + intros H; split; [apply H; now left|intros c Hc; apply H; now right].
Qed.

Lemma lstrip_head s c : head (lstrip s) = Some c -> isspace c = false.
Proof.
  induction s as [|a s IH]; simpl; [discriminate|].
  destruct (isspace a) eqn:Ha; [exact IH|].
  simpl. intros [= <-]. exact Ha.
Qed.

Lemma rstrip_last s c : last (rstrip s) = Some c -> isspace c = false.
Proof.
  induction s as [|a s IH]; simpl; [discriminate|].
  destruct (rstrip s) as [|b r] eqn:Hr.
  - destruct (isspace a) eqn:Ha; simpl; [discriminate|].
    intros [= <-]. exact Ha.
  - intros H. apply IH. exact H.
Qed.

Lemma rstrip_head s c :
  isspace c = false -> head s = Some c -> head (rstrip s) = Some c.
Proof.
  destruct s as [|a s]; simpl; [discriminate|].
  intros Hc [= ->].
  destruct (rstrip s); [rewrite Hc|]; reflexivity.
Qed.

Lemma rstrip_head_inv s c : head (rstrip s) = Some c -> head s = Some c.
Proof.
  destruct s as [|a s]; simpl; [discriminate|].
  destruct (rstrip s); [destruct (isspace a)|]; simpl; congruence.
Qed.

Lemma strip_trimmed s : trimmed (strip s).
Proof.
  unfold strip. split; intros c H.
  - apply (lstrip_head s). now apply rstrip_head_inv.
  - now apply (rstrip_last (lstrip s)).
Qed.

Lemma lstrip_fixed s :
  (forall c, head s = Some c -> isspace c = false) -> lstrip s = s.
Proof.
  destruct s as [|a s]; simpl; [reflexivity|].
  intros H. now rewrite (H a eq_refl).
Qed.

Lemma rstrip_fixed s :
  (forall c, last s = Some c -> isspace c = false) -> rstrip s = s.
Proof.
  induction s as [|a s IH]; simpl; [reflexivity|].
  intros H. destruct s as [|b s].
  - simpl. now rewrite (H a eq_refl).
  - rewrite IH by exact H. reflexivity.
Qed.

Lemma strip_fixed s : trimmed s -> strip s = s.
Proof.
  intros [Hh Hl]. unfold strip.
  rewrite (lstrip_fixed s Hh). now apply rstrip_fixed.
Qed.

Lemma strip_idempotent s : strip (strip s) = strip s.
Proof. apply strip_fixed, strip_trimmed. Qed.

End PyStrFacts.

(* ================================================================== *)
(** * The validator *)
(* ================================================================== *)

Module ValidatorFacts.
Import PyStr PyStrFacts.

Lemma len_nonneg s : 0 <= len s.
Proof. unfold len. lia. Qed.

Lemma len_pos_truthy s : 0 < len s -> truthy s = true.
Proof. destruct s; simpl; [unfold len; simpl; lia|reflexivity]. Qed.

(** The two listeners validate alike. *)
Lemma is_valid_rfid_same s :
  EnhancedRFIDListener.is_valid_rfid s = RFIDListener.is_valid_rfid s.
Proof.
  unfold EnhancedRFIDListener.is_valid_rfid, RFIDListener.is_valid_rfid.
  destruct (truthy s); simpl; [|reflexivity].
  destruct (_ || _)%bool; [reflexivity|].
  now destruct (isalnum (remove_spaces s)).
Qed.

(** What [is_valid_rfid] decides. *)
Lemma is_valid_rfid_spec s :
  RFIDListener.is_valid_rfid s = true <->
  (6 <= len s <= 20 /\ remove_spaces s <> "" /\
   forall c, In c (chars (remove_spaces s)) -> isalnum_char c = true).
Proof.
  unfold RFIDListener.is_valid_rfid, RFIDListener.MIN_RFID_LENGTH,
    RFIDListener.MAX_RFID_LENGTH, isalnum.
  rewrite <- all_chars_spec, <- truthy_true.
  destruct (truthy s) eqn:Hs; simpl.
  - destruct (Z.ltb_spec (len s) 6); simpl.
    { split; [discriminate|lia]. }
    destruct (Z.gtb_spec (len s) 20); simpl.
    { split; [discriminate|lia]. }
    destruct (truthy (remove_spaces s)); simpl;
      destruct (all_chars isalnum_char (remove_spaces s)); simpl;
      intuition (try discriminate; try lia).
  - split; [discriminate|]. intros [Hl _].
    destruct s; [unfold len in Hl; simpl in Hl; lia|discriminate].
Qed.

(** A string without whitespace at its head keeps a character when
    its spaces are removed. *)
Lemma remove_spaces_trimmed s :
  trimmed s -> truthy s = true -> truthy (remove_spaces s) = true.
Proof.
  intros [Hh _] Hs. destruct s as [|a s]; [discriminate|].
  simpl. destruct (Ascii.eqb_spec a " "%char) as [->|_]; [|reflexivity].
  specialize (Hh _ eq_refl). discriminate.
Qed.

(** On a string without surrounding whitespace, the code and the rule
    of the specification agree. *)
Lemma is_valid_rfid_trimmed s :
  trimmed s -> RFIDListener.is_valid_rfid s = Spec.shape_rule s.
Proof.
  intros Ht.
  unfold RFIDListener.is_valid_rfid, Spec.shape_rule,
    RFIDListener.MIN_RFID_LENGTH, RFIDListener.MAX_RFID_LENGTH, isalnum.
  destruct (truthy s) eqn:Hs; simpl.
  - rewrite (remove_spaces_trimmed s Ht Hs). simpl.
    rewrite Z.gtb_ltb, !Z.ltb_antisym.
    destruct (6 <=? len s), (len s <=? 20); simpl; try reflexivity.
    now destruct (all_chars _ _).
  - destruct s; [reflexivity|discriminate].
Qed.

End ValidatorFacts.

(* ================================================================== *)
(** * Running the monad *)
(* ================================================================== *)

Module MonadFacts.

Lemma run_eta {S A} (r : A * S * list Event) :
  (value_of r, state_of r, trace_of r) = r.
Proof. now destruct r as [[a s] t]. Qed.

Lemma bind_run {S A B} (m : M S A) (k : A -> M S B) s :
  bind m k s =
  (value_of (k (value_of (m s)) (state_of (m s))),
   state_of (k (value_of (m s)) (state_of (m s))),
   (trace_of (m s) ++ trace_of (k (value_of (m s)) (state_of (m s))))%list).
Proof.
  unfold bind, value_of, state_of, trace_of.
  destruct (m s) as [[a s1] t1]. simpl.
  destruct (k a s1) as [[b s2] t2]. reflexivity.
Qed.

Lemma state_of_bind {S A B} (m : M S A) (k : A -> M S B) s :
  state_of (bind m k s) = state_of (k (value_of (m s)) (state_of (m s))).
Proof. now rewrite bind_run. Qed.

Lemma value_of_bind {S A B} (m : M S A) (k : A -> M S B) s :
  value_of (bind m k s) = value_of (k (value_of (m s)) (state_of (m s))).
Proof. now rewrite bind_run. Qed.

Lemma trace_of_bind {S A B} (m : M S A) (k : A -> M S B) s :
  trace_of (bind m k s) =
  (trace_of (m s) ++ trace_of (k (value_of (m s)) (state_of (m s))))%list.
Proof. now rewrite bind_run. Qed.

Lemma logs_quiet m t : forallb Obs.is_log t = true -> forallb (Obs.quiet m) t = true.
Proof.
  induction t as [|e t IH]; simpl; [reflexivity|].
  destruct e; simpl; try discriminate. exact IH.
Qed.

Lemma quiet_calls m t : forallb (Obs.quiet m) t = true -> calls m t = [].
Proof.
  induction t as [|e t IH]; simpl; [reflexivity|].
  destruct e; simpl; try exact IH.
  destruct (String.eqb method m); simpl; [discriminate|exact IH].
Qed.

End MonadFacts.

(* ================================================================== *)
(** * [process_scan]: validation, deduplication, delivery *)
(* ================================================================== *)

Module TraceFacts.
Import Obs.

Lemma posts_app t1 t2 : posts (t1 ++ t2) = (posts t1 ++ posts t2)%list.
Proof. apply filter_app. Qed.

Lemma posts_logs t : forallb is_log t = true -> posts t = [].
Proof.
  induction t as [|e t IH]; simpl; [reflexivity|].
  destruct e; simpl; try discriminate. exact IH.
Qed.

Lemma calls_app m t1 t2 : calls m (t1 ++ t2) = (calls m t1 ++ calls m t2)%list.
Proof.
  induction t1 as [|e t1 IH]; simpl; [reflexivity|].
  destruct e; try exact IH.
  destruct (String.eqb method m); simpl; now rewrite IH.
Qed.

Lemma calls_logs m t : forallb is_log t = true -> calls m t = [].
Proof.
  induction t as [|e t IH]; simpl; [reflexivity|].
  destruct e; simpl; try discriminate. exact IH.
Qed.

Lemma existsb_posts t :
  existsb is_post t = match posts t with [] => false | _ :: _ => true end.
Proof.
  induction t as [|e t IH]; simpl; [reflexivity|].
  unfold posts in *. simpl. destruct (is_post e); simpl; [reflexivity|exact IH].
Qed.

Lemma spaced_trans a b c : spaced a b -> spaced b c -> spaced a c.
Proof. unfold spaced, SECOND. lia. Qed.

End TraceFacts.

Module BasicScanFacts.
Import PyStr Obs TraceFacts RFIDListener BasicObs.

(** Delivery: one request, then log lines only; the state is not
    touched; every failure is logged as an error. *)
Lemma deliver_spec env rfid w :
  exists logs,
    deliver env rfid w = (tt, w, the_post w rfid :: logs) /\
    forallb is_log logs = true /\
    (delivery_failed (consumer env (flask_url (self w)) [("rfid", rfid)]) ->
     logged_at ERROR logs = true).
Proof.
  unfold deliver, bind, get, emit, log, the_post. simpl.
  destruct (consumer env (flask_url (self w)) [("rfid", rfid)])
    as [[m|m]|status text [[m|m]|result]]; simpl.
  1,2: eexists; split; [reflexivity|split; [reflexivity|reflexivity]].
  all: destruct (Z.eqb_spec status 200) as [->|Hne]; simpl.
  all: try (eexists; split; [reflexivity|split; [reflexivity|reflexivity]]).
  destruct (mapped result); [destruct (playback_triggered result)|]; simpl;
    (eexists; split; [reflexivity|split; [reflexivity|]]);
    intros [H|[e H]]; congruence.
Qed.

Lemma process_scan_invalid env d w :
  is_valid_rfid (strip d) = false ->
  process_scan env d w =
    (tt, w, [Call "process_scan" d;
             Log WARNING ("Invalid RFID format: '" ++ strip d ++ "'")]).
Proof.
  intros H. unfold process_scan, bind, emit, log.
  cbn -[String.append]. now rewrite H.
Qed.

Lemma process_scan_duplicate env d w :
  is_valid_rfid (strip d) = true ->
  now env - last_scan_time (self w) < 1 * SECOND ->
  process_scan env d w =
    (tt, w, [Call "process_scan" d;
             Log DEBUG ("Ignoring duplicate scan: " ++ strip d)]).
Proof.
  intros H Hd. apply Z.ltb_lt in Hd.
  unfold process_scan, bind, emit, log, get.
  cbn -[String.append Z.mul Z.sub Z.ltb]. rewrite H.
  cbn -[String.append Z.mul Z.sub Z.ltb]. now rewrite Hd.
Qed.

Lemma process_scan_accept env d w :
  is_valid_rfid (strip d) = true ->
  1 * SECOND <= now env - last_scan_time (self w) ->
  process_scan env d w =
    (tt, state_of (deliver env (strip d) (accepted_at (now env) w)),
     Call "process_scan" d
       :: Log INFO ("Processing RFID scan: " ++ strip d)
       :: trace_of (deliver env (strip d) (accepted_at (now env) w))).
Proof.
  intros H Hd. apply Z.ltb_ge in Hd.
  unfold process_scan, bind, emit, log, get, set_self, modify.
  cbn -[String.append Z.mul Z.sub Z.ltb deliver]. rewrite H.
  cbn -[String.append Z.mul Z.sub Z.ltb deliver]. rewrite Hd.
  fold (accepted_at (now env) w).
  destruct (deliver env (strip d) (accepted_at (now env) w)) as [[[] w'] t].
  reflexivity.
Qed.

Lemma process_scan_cases env d w :
  match verdict_of env d w with
  | Accepted =>
      exists logs,
        process_scan env d w =
          (tt, accepted_at (now env) w,
           Call "process_scan" d
             :: Log INFO ("Processing RFID scan: " ++ strip d)
             :: the_post w (strip d) :: logs) /\
        forallb is_log logs = true /\
        (delivery_failed
           (consumer env (flask_url (self w)) [("rfid", strip d)]) ->
         logged_at ERROR logs = true)
  | _ =>
      exists l m,
        process_scan env d w = (tt, w, [Call "process_scan" d; Log l m])
  end.
Proof.
  unfold verdict_of.
  destruct (is_valid_rfid (strip d)) eqn:Hv; cbn [negb].
  - destruct (Z.ltb_spec (now env - last_scan_time (self w)) (1 * SECOND)).
    + eexists _, _. now apply process_scan_duplicate.
    + rewrite process_scan_accept by assumption.
      destruct (deliver_spec env (strip d) (accepted_at (now env) w))
        as (logs & -> & Hl & He).
      exists logs. split; [reflexivity|split; assumption].
  - eexists _, _. now apply process_scan_invalid.
Qed.


Lemma process_scan_state env d w :
  state_of (process_scan env d w) =
  match verdict_of env d w with
  | Accepted => accepted_at (now env) w
  | _ => w
  end.
Proof.
  pose proof (process_scan_cases env d w) as H.
  destruct (verdict_of env d w).
  1,2: destruct H as (l & m & ->); reflexivity.
  destruct H as (logs & -> & _); reflexivity.
Qed.

Lemma process_scan_posts env d w :
  posts (trace_of (process_scan env d w)) =
  match verdict_of env d w with
  | Accepted => [the_post w (strip d)]
  | _ => []
  end.
Proof.
  pose proof (process_scan_cases env d w) as H.
  destruct (verdict_of env d w).
  1,2: destruct H as (l & m & ->); reflexivity.
  destruct H as (logs & -> & Hl & _).
  unfold trace_of, posts. cbn -[String.append].
  fold (posts logs). now rewrite (posts_logs logs Hl).
Qed.

Lemma process_scan_candidates env d w :
  candidates (trace_of (process_scan env d w)) = [d].
Proof.
  pose proof (process_scan_cases env d w) as H.
  destruct (verdict_of env d w).
  1,2: destruct H as (l & m & ->); reflexivity.
  destruct H as (logs & -> & Hl & _).
  unfold trace_of, candidates. cbn -[String.append].
  now rewrite (calls_logs _ logs Hl).
Qed.

(** Along a run, the acceptances are at least one second apart, and
    at least one second after the acceptance recorded at its start. *)
Lemma process_scans_spaced net scans : forall w,
  Forall (spaced (last_scan_time (self w)))
         (acceptance_times (fst (process_scans net scans w))) /\
  StronglySorted spaced (acceptance_times (fst (process_scans net scans w))).
Proof.
  induction scans as [|[t d] rest IH]; intros w.
  - split; constructor.
  - cbn [process_scans].
    destruct (process_scans net rest (state_of (process_scan (at_time net t) d w)))
      as [outs w'] eqn:Hrest.
    specialize (IH (state_of (process_scan (at_time net t) d w))).
    rewrite Hrest in IH. cbn [fst] in *. destruct IH as [Hall Hsorted].
    unfold acceptance_times in *. cbn [filter].
    change (accepted (t, trace_of (process_scan (at_time net t) d w)))
      with (existsb is_post (trace_of (process_scan (at_time net t) d w))).
    rewrite existsb_posts, process_scan_posts.
    rewrite process_scan_state in Hall.
    unfold verdict_of in *. cbn [now at_time] in *.
    destruct (is_valid_rfid (strip d)); cbn [negb] in *.
    + destruct (Z.ltb_spec (t - last_scan_time (self w)) (1 * SECOND)).
      * split; assumption.
      * cbn [map]. cbn [accepted_at self set_last_scan_time last_scan_time] in Hall.
        assert (Hs : spaced (last_scan_time (self w)) t) by (unfold spaced; lia).
        split.
        -- constructor; [exact Hs|].
           eapply Forall_impl; [|exact Hall].
           intros x Hx. now apply (spaced_trans _ t).
        -- constructor; assumption.
    + split; assumption.
Qed.

End BasicScanFacts.

Module EnhancedScanFacts.
Import PyStr Obs TraceFacts EnhancedRFIDListener EnhancedObs.

(** Delivery: one request, then log lines only; the state is not
    touched; every failure is logged as an error. *)
Lemma enh_deliver_spec env rfid w :
  exists logs,
    deliver env rfid w = (tt, w, the_post w rfid :: logs) /\
    forallb is_log logs = true /\
    (delivery_failed (consumer env (flask_url w) [("rfid", rfid)]) ->
     logged_at ERROR logs = true).
Proof.
  unfold deliver, bind, get, emit, log, the_post. simpl.
  destruct (consumer env (flask_url w) [("rfid", rfid)])
    as [[m|m]|status text [[m|m]|result]]; simpl.
  1,2: eexists; split; [reflexivity|split; [reflexivity|reflexivity]].
  all: destruct (Z.eqb_spec status 200) as [->|Hne]; simpl.
  all: try (eexists; split; [reflexivity|split; [reflexivity|reflexivity]]).
  destruct (mapped result); [destruct (playback_triggered result)|]; simpl;
    (eexists; split; [reflexivity|split; [reflexivity|]]);
    intros [H|[e H]]; congruence.
Qed.

Lemma enh_process_scan_invalid env d w :
  is_valid_rfid (strip d) = false ->
  process_scan env d w =
    (tt, w, [Call "process_scan" d;
             Log WARNING ("Invalid RFID format: '" ++ strip d ++ "'")]).
Proof.
  intros H. unfold process_scan, bind, emit, log.
  cbn -[String.append]. now rewrite H.
Qed.

Lemma enh_process_scan_duplicate env d w :
  is_valid_rfid (strip d) = true ->
  now env - last_scan_time w < 1 * SECOND ->
  process_scan env d w =
    (tt, w, [Call "process_scan" d;
             Log DEBUG ("Ignoring duplicate scan: " ++ strip d)]).
Proof.
  intros H Hd. apply Z.ltb_lt in Hd.
  unfold process_scan, bind, emit, log, get.
  cbn -[String.append Z.mul Z.sub Z.ltb]. rewrite H.
  cbn -[String.append Z.mul Z.sub Z.ltb]. now rewrite Hd.
Qed.

Lemma enh_process_scan_accept env d w :
  is_valid_rfid (strip d) = true ->
  1 * SECOND <= now env - last_scan_time w ->
  process_scan env d w =
    (tt, state_of (deliver env (strip d) (accepted_at (now env) w)),
     Call "process_scan" d
       :: Log INFO ("Processing RFID scan: " ++ strip d)
       :: trace_of (deliver env (strip d) (accepted_at (now env) w))).
Proof.
  intros H Hd. apply Z.ltb_ge in Hd.
  unfold process_scan, bind, emit, log, get, modify.
  cbn -[String.append Z.mul Z.sub Z.ltb deliver]. rewrite H.
  cbn -[String.append Z.mul Z.sub Z.ltb deliver]. rewrite Hd.
  fold (accepted_at (now env) w).
  destruct (deliver env (strip d) (accepted_at (now env) w)) as [[[] w'] t].
  reflexivity.
Qed.

Lemma enh_process_scan_cases env d w :
  match verdict_of env d w with
  | Accepted =>
      exists logs,
        process_scan env d w =
          (tt, accepted_at (now env) w,
           Call "process_scan" d
             :: Log INFO ("Processing RFID scan: " ++ strip d)
             :: the_post w (strip d) :: logs) /\
        forallb is_log logs = true /\
        (delivery_failed
           (consumer env (flask_url w) [("rfid", strip d)]) ->
         logged_at ERROR logs = true)
  | _ =>
      exists l m,
        process_scan env d w = (tt, w, [Call "process_scan" d; Log l m])
  end.
Proof.
  unfold verdict_of.
  destruct (is_valid_rfid (strip d)) eqn:Hv; cbn [negb].
  - destruct (Z.ltb_spec (now env - last_scan_time w) (1 * SECOND)).
    + eexists _, _. now apply enh_process_scan_duplicate.
    + rewrite enh_process_scan_accept by assumption.
      destruct (enh_deliver_spec env (strip d) (accepted_at (now env) w))
        as (logs & -> & Hl & He).
      exists logs. split; [reflexivity|split; assumption].
  - eexists _, _. now apply enh_process_scan_invalid.
Qed.


Lemma enh_process_scan_state env d w :
  state_of (process_scan env d w) =
  match verdict_of env d w with
  | Accepted => accepted_at (now env) w
  | _ => w
  end.
Proof.
  pose proof (enh_process_scan_cases env d w) as H.
  destruct (verdict_of env d w).
  1,2: destruct H as (l & m & ->); reflexivity.
  destruct H as (logs & -> & _); reflexivity.
Qed.

Lemma enh_process_scan_posts env d w :
  posts (trace_of (process_scan env d w)) =
  match verdict_of env d w with
  | Accepted => [the_post w (strip d)]
  | _ => []
  end.
Proof.
  pose proof (enh_process_scan_cases env d w) as H.
  destruct (verdict_of env d w).
  1,2: destruct H as (l & m & ->); reflexivity.
  destruct H as (logs & -> & Hl & _).
  unfold trace_of, posts. cbn -[String.append].
  fold (posts logs). now rewrite (posts_logs logs Hl).
Qed.

Lemma enh_process_scan_candidates env d w :
  candidates (trace_of (process_scan env d w)) = [d].
Proof.
  pose proof (enh_process_scan_cases env d w) as H.
  destruct (verdict_of env d w).
  1,2: destruct H as (l & m & ->); reflexivity.
  destruct H as (logs & -> & Hl & _).
  unfold trace_of, candidates. cbn -[String.append].
  now rewrite (calls_logs _ logs Hl).
Qed.

(** Along a run, the acceptances are at least one second apart, and
    at least one second after the acceptance recorded at its start. *)
Lemma enh_process_scans_spaced net scans : forall w,
  Forall (spaced (last_scan_time w))
         (acceptance_times (fst (process_scans net scans w))) /\
  StronglySorted spaced (acceptance_times (fst (process_scans net scans w))).
Proof.
  induction scans as [|[t d] rest IH]; intros w.
  - split; constructor.
  - cbn [process_scans].
    destruct (process_scans net rest (state_of (process_scan (at_time net t) d w)))
      as [outs w'] eqn:Hrest.
    specialize (IH (state_of (process_scan (at_time net t) d w))).
    rewrite Hrest in IH. cbn [fst] in *. destruct IH as [Hall Hsorted].
    unfold acceptance_times in *. cbn [filter].
    change (accepted (t, trace_of (process_scan (at_time net t) d w)))
      with (existsb is_post (trace_of (process_scan (at_time net t) d w))).
    rewrite existsb_posts, enh_process_scan_posts.
    rewrite enh_process_scan_state in Hall.
    unfold verdict_of in *. cbn [now at_time] in *.
    destruct (is_valid_rfid (strip d)); cbn [negb] in *.
    + destruct (Z.ltb_spec (t - last_scan_time w) (1 * SECOND)).
      * split; assumption.
      * cbn [map]. cbn [accepted_at set_last_scan_time last_scan_time] in Hall.
        assert (Hs : spaced (last_scan_time w) t) by (unfold spaced; lia).
        split.
        -- constructor; [exact Hs|].
           eapply Forall_impl; [|exact Hall].
           intros x Hx. now apply (spaced_trans _ t).
        -- constructor; assumption.
    + split; assumption.
Qed.

End EnhancedScanFacts.

(* ================================================================== *)
(** * The flag [running] and the read loops of [EnhancedRFIDListener] *)
(* ================================================================== *)

Module WhileFacts.
Import PyStr Obs TraceFacts MonadFacts EnhancedRFIDListener EnhancedObs
  EnhancedScanFacts.

(** No turn of a read loop changes the flag. *)
Lemma process_scan_running env d l :
  running (state_of (process_scan env d l)) = running l.
Proof.
  rewrite enh_process_scan_state. now destruct (verdict_of env d l).
Qed.

Lemma stdin_step_running env r b l :
  running (state_of (stdin_step env r b l)) = running l.
Proof.
  destruct r as [c| |e]; cbn [stdin_step]; try reflexivity.
  destruct (_ || _)%bool; [|reflexivity].
  destruct (truthy (strip b)); [|reflexivity].
  rewrite state_of_bind. cbn [ret state_of fst snd].
  apply process_scan_running.
Qed.

Lemma device_step_running env r b l :
  running (state_of (device_step env r b l)) = running l.
Proof.
  destruct r as [data|e]; cbn [device_step]; [|reflexivity].
  destruct (_ =? _); [|reflexivity].
  destruct (unpack data) as [[[[sec usec] ty] code] v].
  destruct (_ && _)%bool; [|reflexivity].
  destruct (truthy (keycode_to_char code)); [|reflexivity].
  destruct (String.eqb _ _); [|reflexivity].
  destruct (truthy (strip b)); [|reflexivity].
  rewrite state_of_bind. cbn [ret state_of fst snd].
  apply process_scan_running.
Qed.

(** While the flag is set the guarded loops are the loops over the
    reads. *)
Lemma stdin_while_running net : forall reads b l,
  running l = true -> stdin_while net reads b l = stdin_loop net reads b l.
Proof.
  induction reads as [|[t r] rest IH]; intros b l Hr.
  - cbn [stdin_while stdin_loop]. unfold bind, get. now rewrite Hr.
  - cbn [stdin_while stdin_loop]. rewrite bind_run.
    cbn [get value_of state_of trace_of fst snd app]. rewrite Hr.
    rewrite run_eta. rewrite !bind_run.
    pose proof (stdin_step_running (at_time net t) r b l) as Hs.
    rewrite Hr in Hs.
    destruct (value_of (stdin_step (at_time net t) r b l)) as [b'|];
      [|reflexivity].
    now rewrite (IH b' _ Hs).
Qed.

Lemma stdin_while_stopped net reads b l :
  running l = false -> stdin_while net reads b l = (None, l, []).
Proof.
  intros Hr. destruct reads as [|[t r] rest];
    cbn [stdin_while]; unfold bind, get; now rewrite Hr.
Qed.

Lemma device_while_running net : forall reads b l,
  running l = true ->
  device_while net reads b l =
  (Some (value_of (device_loop net reads b l)),
   state_of (device_loop net reads b l),
   trace_of (device_loop net reads b l)).
Proof.
  induction reads as [|[t r] rest IH]; intros b l Hr.
  - cbn [device_while device_loop]. unfold bind, get. now rewrite Hr.
  - cbn [device_while device_loop]. rewrite bind_run.
    cbn [get value_of state_of trace_of fst snd app]. rewrite Hr.
    rewrite run_eta. rewrite !bind_run.
    pose proof (device_step_running (at_time net t) r b l) as Hs.
    rewrite Hr in Hs. rewrite (IH _ _ Hs).
    reflexivity.
Qed.

Lemma device_while_stopped net reads b l :
  running l = false -> device_while net reads b l = (None, l, []).
Proof.
  intros Hr. destruct reads as [|[t r] rest];
    cbn [device_while]; unfold bind, get; now rewrite Hr.
Qed.

(** The state and the trace of a guarded loop are those of the loop
    over the reads, or nothing has happened. *)
Lemma stdin_while_cases net reads b l :
  stdin_while net reads b l = stdin_loop net reads b l \/
  stdin_while net reads b l = (None, l, []).
Proof.
  destruct (running l) eqn:Hr.
  - left. now apply stdin_while_running.
  - right. now apply stdin_while_stopped.
Qed.

Lemma device_while_cases net reads b l :
  (state_of (device_while net reads b l) = state_of (device_loop net reads b l)
   /\ trace_of (device_while net reads b l)
      = trace_of (device_loop net reads b l)) \/
  device_while net reads b l = (None, l, []).
Proof.
  destruct (running l) eqn:Hr.
  - left. now rewrite device_while_running.
  - right. now apply device_while_stopped.
Qed.

End WhileFacts.

(* ================================================================== *)
(** * The callback of the timer, cut at its request *)
(* ================================================================== *)

Module TimerThreadFacts.
Import PyStr Obs MonadFacts RFIDListener TimerThread.

Local Open Scope monad_scope.

(** [process_scan] is its two parts, one after the other. *)
Lemma process_scan_split env d w :
  process_scan env d w =
  (sent <- process_scan_sends env d ;;
   match sent with
   | Some request => process_scan_answered env request
   | None => ret tt
   end) w.
Proof.
  unfold process_scan, process_scan_sends, process_scan_answered, deliver.
  rewrite !bind_run. cbn [emit value_of state_of trace_of fst snd].
  destruct (negb (is_valid_rfid (strip d))).
  - rewrite !bind_run.
    cbn [log emit ret value_of state_of trace_of fst snd app]. reflexivity.
  - rewrite !bind_run. cbn [get value_of state_of trace_of fst snd].
    destruct (now env - last_scan_time (self w) <? 1 * SECOND).
    + rewrite !bind_run.
      cbn [log emit ret value_of state_of trace_of fst snd app]. reflexivity.
    + repeat (rewrite !bind_run;
              cbn [set_self modify get log emit ret value_of state_of
                   trace_of fst snd app self flask_url set_last_scan_time]).
      destruct (consumer env (flask_url (self w)) [("rfid", strip d)])
        as [[m|m]|status text [[m|m]|result]];
        cbn [log emit ret value_of state_of trace_of fst snd app];
        try reflexivity;
        destruct (status =? 200);
        cbn [log emit ret value_of state_of trace_of fst snd app];
        try reflexivity.
Qed.

(** [flush_scan_buffer] is its two parts, one after the other. *)
Lemma flush_alone_run env w : flush_alone env w = flush_scan_buffer env w.
Proof.
  unfold flush_alone, flush_scan_buffer, flush_begins, flush_ends.
  cbv beta iota zeta delta [bind get log emit ret set_self modify].
  destruct (truthy (scan_buffer (self w))); [|reflexivity].
  rewrite process_scan_split.
  cbv beta iota zeta delta [bind get log emit ret set_self modify].
  destruct (process_scan_sends env (scan_buffer (self w)) w)
    as [[[request|] w1] t1].
  - destruct (process_scan_answered env request w1) as [[[] w2] t2].
    cbn [app]. now rewrite !app_nil_r.
  - cbn [app]. now rewrite !app_nil_r.
Qed.

(** A timer that fires at its deadline, no character arriving while
    its callback waits, does what [fire] does. *)
Lemma fire_overlapped_alone net id t w id' :
  find (fun p => Nat.eqb (fst p) id) (timers w) = Some (id', t) ->
  fire_overlapped net id t [] w = fire net id t w.
Proof.
  intros Hf.
  assert (He : existsb (fun p => Nat.eqb (fst p) id) (timers w) = true).
  { apply existsb_exists. apply find_some in Hf. now exists (id', t). }
  unfold fire_overlapped, fire.
  cbv beta iota zeta delta [bind get modify].
  rewrite Hf, He, Z.leb_refl. rewrite <- flush_alone_run.
  unfold flush_alone. cbv beta iota zeta delta [bind].
  match goal with
  | |- context [flush_begins ?e ?s] =>
      destruct (flush_begins e s) as [[[request|] w1] t1]
  end.
  - cbn [reads_on]. cbv beta iota zeta delta [ret].
    destruct (flush_ends (at_time net t) request w1) as [[[] w2] t2].
    reflexivity.
  - cbn [reads_on]. cbv beta iota zeta delta [ret]. reflexivity.
Qed.

End TimerThreadFacts.

(* ================================================================== *)
(** * Locator, probe and strategy of [EnhancedRFIDListener] *)
(* ================================================================== *)


Module LocatorFacts.
Import PyStr Obs TraceFacts MonadFacts EnhancedRFIDListener EnhancedObs.

Lemma registry_patterns_miss host block l : forall patterns,
  forallb (fun pattern => negb (Re.search true pattern block)) patterns = true ->
  registry_patterns host block patterns l = (None, l, []).
Proof.
  induction patterns as [|p ps IH]; intros H; [reflexivity|].
  cbn [forallb] in H. apply andb_true_iff in H as [Hp Hps].
  cbn [registry_patterns]. apply negb_true_iff in Hp. rewrite Hp. now apply IH.
Qed.

Lemma by_id_patterns_miss host link l : forall patterns,
  forallb (fun pattern => negb (Re.search true pattern link)) patterns = true ->
  by_id_patterns host link patterns l = (None, l, []).
Proof.
  induction patterns as [|p ps IH]; intros H; [reflexivity|].
  cbn [forallb] in H. apply andb_true_iff in H as [Hp Hps].
  cbn [by_id_patterns]. apply negb_true_iff in Hp. rewrite Hp. now apply IH.
Qed.

Lemma no_match_all s :
  negb (matches_signature s) = true ->
  forallb (fun pattern => negb (Re.search true pattern s)) RFID_READER_PATTERNS
  = true.
Proof.
  unfold matches_signature. rewrite negb_true_iff.
  induction RFID_READER_PATTERNS as [|p ps IH]; simpl; [reflexivity|].
  intros H. apply orb_false_iff in H as [-> H]. simpl. now apply IH.
Qed.

Lemma registry_blocks_miss host l : forall blocks,
  forallb (fun b => negb (matches_signature b)) blocks = true ->
  registry_blocks host blocks l = (None, l, []).
Proof.
  induction blocks as [|b bs IH]; intros H; [reflexivity|].
  cbn [forallb] in H. apply andb_true_iff in H as [Hb Hbs].
  cbn [registry_blocks]. unfold bind.
  rewrite (registry_patterns_miss host b l _ (no_match_all b Hb)).
  now rewrite (IH Hbs).
Qed.

Lemma by_id_links_miss host l : forall links,
  forallb (fun link => negb (matches_signature link)) links = true ->
  by_id_links host links l = (None, l, []).
Proof.
  induction links as [|b bs IH]; intros H; [reflexivity|].
  cbn [forallb] in H. apply andb_true_iff in H as [Hb Hbs].
  cbn [by_id_links]. unfold bind.
  rewrite (by_id_patterns_miss host b l _ (no_match_all b Hb)).
  now rewrite (IH Hbs).
Qed.

Lemma common_event_devices_logs host l : forall indices,
  state_of (common_event_devices host indices l) = l /\
  forallb is_log (trace_of (common_event_devices host indices l)) = true.
Proof.
  induction indices as [|i rest [IHs IHt]]; [split; reflexivity|].
  cbn [common_event_devices].
  rewrite state_of_bind, trace_of_bind.
  destruct (path_exists host _);
    cbn -[String.append common_event_devices]; now rewrite IHs, IHt.
Qed.

(** Without a signature the locator yields nothing. *)
Lemma find_rfid_device_miss host l :
  no_signature host -> nothing_found (find_rfid_device host l) l.
Proof.
  intros [Hreg Hid]. unfold nothing_found, find_rfid_device.
  rewrite value_of_bind, state_of_bind, trace_of_bind.
  cbn [log emit value_of state_of trace_of fst snd].
  rewrite value_of_bind, state_of_bind, trace_of_bind.
  assert (Hm1 : exists t1,
             match proc_bus_input_devices host with
             | inr content => registry_blocks host (Re.split_blank content)
             | inl e =>
                 bind (log WARNING
                         ("Error reading /proc/bus/input/devices: " ++ e))
                      (fun _ => ret None)
             end l = (None, l, t1) /\ forallb is_log t1 = true).
  { destruct (proc_bus_input_devices host) as [e|content].
    - eexists. split; reflexivity.
    - rewrite (registry_blocks_miss host l _ Hreg). now eexists. }
  destruct Hm1 as (t1 & -> & Ht1).
  cbn [value_of state_of trace_of fst snd].
  rewrite value_of_bind, state_of_bind, trace_of_bind.
  assert (Hm2 : (if path_exists host by_id_path
                 then by_id_links host (listdir_by_id host)
                 else ret None) l = (None, l, [])).
  { destruct (path_exists host by_id_path); [|reflexivity].
    now apply by_id_links_miss, Hid. }
  rewrite Hm2. cbn [value_of state_of trace_of fst snd].
  rewrite !value_of_bind, !state_of_bind, !trace_of_bind.
  cbn [log emit ret value_of state_of trace_of fst snd].
  destruct (common_event_devices_logs host l (seq 0 20)) as [Hs Ht].
  rewrite Hs. repeat split.
  cbn [app forallb is_log andb]. rewrite forallb_app, Ht1. cbn [andb app].
  cbn [forallb is_log andb]. rewrite forallb_app, Ht. reflexivity.
Qed.

(** The probe: its value, the call, and log lines only. *)
Lemma test_device_input_run host p l :
  exists logs,
    test_device_input host p l =
      (probe_value (probe host p), l, Call "test_device_input" p :: logs) /\
    forallb is_log logs = true.
Proof.
  unfold test_device_input, probe_value.
  destruct (probe host p) as [|[|] e| |[|b data]];
    eexists; split; reflexivity.
Qed.

(** The locator only logs, whatever it finds. *)
Lemma registry_patterns_logs host block l : forall patterns,
  state_of (registry_patterns host block patterns l) = l /\
  forallb is_log (trace_of (registry_patterns host block patterns l)) = true.
Proof.
  induction patterns as [|p ps IH]; [split; reflexivity|].
  cbn [registry_patterns].
  destruct (Re.search true p block); [|exact IH].
  destruct (Re.first_handler block) as [h|]; [|exact IH].
  destruct (path_exists host _); [|exact IH].
  split; reflexivity.
Qed.

Lemma registry_blocks_logs host l : forall blocks,
  state_of (registry_blocks host blocks l) = l /\
  forallb is_log (trace_of (registry_blocks host blocks l)) = true.
Proof.
  induction blocks as [|b bs [IHs IHt]]; [split; reflexivity|].
  cbn [registry_blocks]. rewrite state_of_bind, trace_of_bind.
  destruct (registry_patterns_logs host b l RFID_READER_PATTERNS) as [Hs Ht].
  rewrite Hs, forallb_app, Ht.
  destruct (value_of (registry_patterns host b RFID_READER_PATTERNS l)).
  - split; reflexivity.
  - now rewrite IHs, IHt.
Qed.

Lemma by_id_patterns_logs host link l : forall patterns,
  state_of (by_id_patterns host link patterns l) = l /\
  forallb is_log (trace_of (by_id_patterns host link patterns l)) = true.
Proof.
  induction patterns as [|p ps IH]; [split; reflexivity|].
  cbn [by_id_patterns].
  destruct (Re.search true p link); [|exact IH].
  destruct (path_exists host _); [|exact IH].
  split; reflexivity.
Qed.

Lemma by_id_links_logs host l : forall links,
  state_of (by_id_links host links l) = l /\
  forallb is_log (trace_of (by_id_links host links l)) = true.
Proof.
  induction links as [|b bs [IHs IHt]]; [split; reflexivity|].
  cbn [by_id_links]. rewrite state_of_bind, trace_of_bind.
  destruct (by_id_patterns_logs host b l RFID_READER_PATTERNS) as [Hs Ht].
  rewrite Hs, forallb_app, Ht.
  destruct (value_of (by_id_patterns host b RFID_READER_PATTERNS l)).
  - split; reflexivity.
  - now rewrite IHs, IHt.
Qed.

Lemma find_rfid_device_logs host l :
  state_of (find_rfid_device host l) = l /\
  forallb is_log (trace_of (find_rfid_device host l)) = true.
Proof.
  unfold find_rfid_device.
  rewrite state_of_bind, trace_of_bind.
  cbn [log emit value_of state_of trace_of fst snd].
  rewrite state_of_bind, trace_of_bind.
  set (m1 := match proc_bus_input_devices host with
             | inr content => registry_blocks host (Re.split_blank content)
             | inl e => _
             end).
  assert (H1 : state_of (m1 l) = l /\ forallb is_log (trace_of (m1 l)) = true).
  { subst m1. destruct (proc_bus_input_devices host) as [e|content].
    - split; reflexivity.
    - apply registry_blocks_logs. }
  destruct H1 as [H1s H1t]. rewrite H1s.
  cbn [app forallb is_log andb]. rewrite forallb_app, H1t. cbn [andb].
  destruct (value_of (m1 l)); [split; reflexivity|].
  rewrite state_of_bind, trace_of_bind.
  set (m2 := if path_exists host by_id_path then _ else _).
  assert (H2 : state_of (m2 l) = l /\ forallb is_log (trace_of (m2 l)) = true).
  { subst m2. destruct (path_exists host by_id_path).
    - apply by_id_links_logs.
    - split; reflexivity. }
  destruct H2 as [H2s H2t]. rewrite H2s, forallb_app, H2t. cbn [andb].
  destruct (value_of (m2 l)); [split; reflexivity|].
  rewrite !state_of_bind, !trace_of_bind.
  cbn [log emit ret value_of state_of trace_of fst snd].
  destruct (common_event_devices_logs host l (seq 0 20)) as [Hs Ht].
  rewrite Hs. split; [reflexivity|].
  cbn [app forallb is_log andb]. rewrite forallb_app, Ht. reflexivity.
Qed.

(** ** The read loops call nothing but [process_scan] *)

Lemma process_scan_quiet m env d l :
  String.eqb "process_scan" m = false ->
  forallb (quiet m) (trace_of (process_scan env d l)) = true.
Proof.
  intros Hm. pose proof (EnhancedScanFacts.enh_process_scan_cases env d l) as H.
  destruct (verdict_of env d l).
  1,2: destruct H as (lv & msg & ->); cbn [trace_of snd forallb quiet];
       now rewrite Hm.
  destruct H as (logs & -> & Hl & _).
  cbn [trace_of snd forallb quiet the_post]. rewrite Hm.
  cbn [negb andb]. now apply logs_quiet.
Qed.

Lemma stdin_step_quiet m env r b l :
  String.eqb "process_scan" m = false ->
  forallb (quiet m) (trace_of (stdin_step env r b l)) = true.
Proof.
  intros Hm. destruct r as [c| |e]; cbn [stdin_step]; try reflexivity.
  destruct (_ || _)%bool; [|reflexivity].
  destruct (truthy (strip b)); [|reflexivity].
  rewrite trace_of_bind. cbn [ret trace_of snd]. rewrite app_nil_r.
  now apply process_scan_quiet.
Qed.

Lemma stdin_loop_quiet m net : forall reads b l,
  String.eqb "process_scan" m = false ->
  forallb (quiet m) (trace_of (stdin_loop net reads b l)) = true.
Proof.
  induction reads as [|[t r] rest IH]; intros b l Hm; [reflexivity|].
  cbn [stdin_loop]. rewrite trace_of_bind, forallb_app.
  rewrite (stdin_step_quiet m _ r b l Hm). cbn [andb].
  destruct (value_of (stdin_step (at_time net t) r b l)); [|reflexivity].
  now apply IH.
Qed.

Lemma stdin_while_quiet m net reads b l :
  String.eqb "process_scan" m = false ->
  forallb (quiet m) (trace_of (stdin_while net reads b l)) = true.
Proof.
  intros Hm.
  destruct (WhileFacts.stdin_while_cases net reads b l) as [-> | ->];
    [now apply stdin_loop_quiet|reflexivity].
Qed.

(** ** The strategy *)

Lemma strategy_of_logs t1 t2 :
  forallb is_log t1 = true -> strategy_of (t1 ++ t2) = strategy_of t2.
Proof.
  induction t1 as [|e t1 IH]; simpl; [reflexivity|].
  destruct e; simpl; try discriminate. exact IH.
Qed.

Lemma calls_logs_app m t1 t2 :
  forallb is_log t1 = true -> calls m (t1 ++ t2) = calls m t2.
Proof.
  intros H. now rewrite calls_app, (calls_logs m t1 H).
Qed.

(** Reading from stdin: the strategy is [StdinRead]; nothing of the
    device path is called. *)
Lemma read_rfid_from_stdin_trace net reads l :
  strategy_of (trace_of (read_rfid_from_stdin net reads l)) = Some StdinRead /\
  calls "test_device_input" (trace_of (read_rfid_from_stdin net reads l)) = [] /\
  calls "read_rfid_from_device" (trace_of (read_rfid_from_stdin net reads l))
    = [].
Proof.
  unfold read_rfid_from_stdin. rewrite !trace_of_bind.
  cbn [log emit trace_of snd app]. split; [reflexivity|].
  split; cbn [calls String.eqb Ascii.eqb Bool.eqb];
    apply quiet_calls, stdin_while_quiet; reflexivity.
Qed.

End LocatorFacts.

Module StrategyFacts.
Import PyStr Obs TraceFacts MonadFacts EnhancedRFIDListener EnhancedObs
  LocatorFacts.

Lemma start_listening_trace run l :
  trace_of (start_listening run l) =
  Log INFO "Enhanced RFID Listener starting..."
    :: (trace_of (find_rfid_device (host run) (set_running true l))
        ++ trace_of (select_and_read run (located run l) (selecting run l)))%list.
Proof.
  unfold start_listening, located, selecting.
  repeat (rewrite ?trace_of_bind, ?state_of_bind, ?value_of_bind;
          cbn [modify get log emit trace_of state_of value_of fst snd app]).
  destruct (find_rfid_device_logs (host run) (set_running true l)) as [-> _].
  reflexivity.
Qed.

Lemma select_no_device run found l :
  truthy_path found = false ->
  trace_of (select_and_read run found l) =
  Log INFO "No RFID device auto-detected, using stdin method"
    :: Log INFO "Make sure this terminal has focus when scanning"
    :: trace_of (read_rfid_from_stdin (net run) (stdin run) l).
Proof.
  intros H. unfold select_and_read.
  destruct found as [p|]; [cbn [truthy_path] in H; rewrite H|];
    rewrite !trace_of_bind;
    cbn [log emit ret trace_of state_of value_of fst snd app];
    now rewrite app_nil_r.
Qed.

Lemma select_probe_failed run p l :
  truthy p = true ->
  truthy_result (probe_value (probe (host run) p)) = false ->
  trace_of (select_and_read run (Some p) l) =
  (trace_of (test_device_input (host run) p l)
   ++ Log WARNING "Device test failed, falling back to stdin"
      :: trace_of (read_rfid_from_stdin (net run) (stdin run) l))%list.
Proof.
  intros Hp Hprobe. unfold select_and_read. rewrite Hp.
  rewrite trace_of_bind.
  destruct (test_device_input_run (host run) p l) as (logs & E & _).
  rewrite E. cbn [value_of state_of trace_of fst snd]. rewrite Hprobe.
  rewrite !trace_of_bind.
  cbn [log emit ret trace_of state_of value_of fst snd app].
  now rewrite app_nil_r.
Qed.

Lemma select_probe_alive run p l :
  truthy p = true ->
  truthy_result (probe_value (probe (host run) p)) = true ->
  trace_of (select_and_read run (Some p) l) =
  (trace_of (test_device_input (host run) p l)
   ++ Log INFO ("Using device input method: " ++ p)
      :: trace_of (read_rfid_from_device (net run) p (device run) l))%list.
Proof.
  intros Hp Hprobe. unfold select_and_read. rewrite Hp.
  rewrite trace_of_bind.
  destruct (test_device_input_run (host run) p l) as (logs & E & _).
  rewrite E. cbn [value_of state_of trace_of fst snd]. rewrite Hprobe.
  rewrite !trace_of_bind.
  cbn -[String.append read_rfid_from_device].
  now rewrite app_nil_r.
Qed.

(** The strategy and the calls of a run whose locator yields nothing. *)
Lemma no_device_stdin run l :
  truthy_path (located run l) = false ->
  strategy_of (trace_of (start_listening run l)) = Some StdinRead /\
  calls "test_device_input" (trace_of (start_listening run l)) = [] /\
  calls "read_rfid_from_device" (trace_of (start_listening run l)) = [].
Proof.
  intros H. rewrite start_listening_trace.
  destruct (find_rfid_device_logs (host run) (set_running true l)) as [_ Hlogs].
  rewrite (select_no_device run _ _ H).
  destruct (read_rfid_from_stdin_trace (net run) (stdin run) (selecting run l))
    as (Hs & Hc1 & Hc2).
  cbn [strategy_of calls].
  rewrite (strategy_of_logs _ _ Hlogs), !(calls_logs_app _ _ _ Hlogs).
  cbn [strategy_of calls]. repeat split; assumption.
Qed.

(** The strategy and the calls of a run whose probe fails. *)
Lemma probe_failed_stdin run l p :
  located run l = Some p -> truthy p = true ->
  truthy_result (probe_value (probe (host run) p)) = false ->
  strategy_of (trace_of (start_listening run l)) = Some StdinRead /\
  calls "test_device_input" (trace_of (start_listening run l)) = [p] /\
  calls "read_rfid_from_device" (trace_of (start_listening run l)) = [].
Proof.
  intros Hloc Hp Hprobe. rewrite start_listening_trace.
  destruct (find_rfid_device_logs (host run) (set_running true l)) as [_ Hlogs].
  rewrite Hloc, (select_probe_failed run p _ Hp Hprobe).
  destruct (test_device_input_run (host run) p (selecting run l))
    as (logs & E & Hl).
  rewrite E. cbn [trace_of snd].
  destruct (read_rfid_from_stdin_trace (net run) (stdin run) (selecting run l))
    as (Hs & Hc1 & Hc2).
  cbn [strategy_of calls].
  rewrite (strategy_of_logs _ _ Hlogs), !(calls_logs_app _ _ _ Hlogs).
  cbn [app strategy_of calls String.eqb Ascii.eqb Bool.eqb].
  rewrite (strategy_of_logs _ _ Hl), !(calls_logs_app _ _ _ Hl).
  cbn [strategy_of calls]. rewrite Hs, Hc1, Hc2. repeat split.
Qed.

(** The strategy of a run whose probe succeeds. *)
Lemma probe_alive_device run l p :
  located run l = Some p -> truthy p = true ->
  truthy_result (probe_value (probe (host run) p)) = true ->
  strategy_of (trace_of (start_listening run l)) = Some (DeviceRead p).
Proof.
  intros Hloc Hp Hprobe. rewrite start_listening_trace.
  destruct (find_rfid_device_logs (host run) (set_running true l)) as [_ Hlogs].
  rewrite Hloc, (select_probe_alive run p _ Hp Hprobe).
  destruct (test_device_input_run (host run) p (selecting run l))
    as (logs & E & Hl).
  rewrite E. cbn [trace_of snd strategy_of].
  rewrite (strategy_of_logs _ _ Hlogs).
  cbn [app strategy_of String.eqb Ascii.eqb Bool.eqb].
  rewrite (strategy_of_logs _ _ Hl).
  unfold read_rfid_from_device. rewrite !trace_of_bind. reflexivity.
Qed.

End StrategyFacts.

(* ================================================================== *)
(** * The read loops of [EnhancedRFIDListener] *)
(* ================================================================== *)

Module LoopFacts.
Import PyStr Obs TraceFacts MonadFacts EnhancedRFIDListener EnhancedObs.


Lemma device_step_unfold env data b l :
  device_step env (ReadBytes data) b l =
  if is_key_press data then
    let char := keycode_to_char (event_code data) in
    if truthy char then
      if String.eqb char (String "010" "") then
        if truthy (strip b)
        then bind (process_scan env (strip b)) (fun _ => ret "") l
        else (b, l, [])
      else (b ++ char, l, [])
    else (b, l, [])
  else if Z.of_nat (List.length data) =? event_size
       then (b, l, [])
       else (b, l, [Sleep (SECOND / 100)]).
Proof.
  unfold device_step, is_key_press, event_type, event_value, event_code, unpack.
  destruct (Z.of_nat (List.length data) =? event_size); [|reflexivity].
  cbn [andb].
  destruct ((_ =? 1) && (_ =? 1))%bool; [|reflexivity].
  cbv zeta. destruct (truthy _); [|reflexivity].
  destruct (String.eqb _ _); [|reflexivity].
  destruct (truthy (strip b)); reflexivity.
Qed.

Lemma stdin_step_char env c b l :
  stdin_step env (ReadChar c) b l =
  if (Ascii.eqb c "010" || Ascii.eqb c "013")%bool then
    if truthy (strip b)
    then bind (process_scan env (strip b)) (fun _ => ret (Some "")) l
    else (Some b, l, [])
  else (Some (b ++ String c ""), l, []).
Proof.
  unfold stdin_step. destruct (_ || _)%bool; [|reflexivity].
  destruct (truthy (strip b)); reflexivity.
Qed.





End LoopFacts.

(* ================================================================== *)
(** * The properties of the pipeline *)
(* ================================================================== *)

Import PyStr Obs.

(** ** Validation *)

(** C1, as the specification words it, fails on the code.  Six spaces
    have a length in [6, 20] and nothing is left of them once the
    spaces are removed, so the rule of the specification holds of them,
    yet [is_valid_rfid] of either listener rejects them; and the
    candidate ["  abcd  "] satisfies the rule, yet [process_scan]
    rejects it without a request, its stripped form being too short. *)
Lemma C1_counterexample :
  Spec.shape_rule "      " = true /\
  RFIDListener.is_valid_rfid "      " = false /\
  EnhancedRFIDListener.is_valid_rfid "      " = false /\
  Spec.shape_rule "  abcd  " = true /\
  posts (trace_of (RFIDListener.process_scan
                     (at_time Examples.net_ok Examples.T0) "  abcd  "
                     Examples.basic0)) = [] /\
  posts (trace_of (EnhancedRFIDListener.process_scan
                     (at_time Examples.net_ok Examples.T0) "  abcd  "
                     Examples.enhanced0)) = [].
Proof. repeat split; vm_compute; reflexivity. Qed.

(** C1, amended.  [is_valid_rfid] accepts a string exactly when its
    length lies in [6, 20] and, once its space characters are removed,
    at least one character remains and every remaining character is
    alphanumeric; the two listeners validate alike.  [process_scan]
    validates the candidate stripped of surrounding whitespace, and on
    such a string the code agrees with the rule of the specification.
    A candidate whose stripped form is not valid is rejected with a
    warning and nothing else: the state is unchanged and no request is
    made. *)
Theorem C1_validator_shape_rule :
  (forall s,
     RFIDListener.is_valid_rfid s = true <->
     (6 <= len s <= 20 /\ remove_spaces s <> "" /\
      forall c, In c (chars (remove_spaces s)) -> isalnum_char c = true)) /\
  (forall s,
     EnhancedRFIDListener.is_valid_rfid s = RFIDListener.is_valid_rfid s) /\
  (forall d,
     RFIDListener.is_valid_rfid (strip d) = Spec.shape_rule (strip d)) /\
  (forall env d w,
     RFIDListener.is_valid_rfid (strip d) = false ->
     RFIDListener.process_scan env d w =
       (tt, w, [Call "process_scan" d;
                Log WARNING ("Invalid RFID format: '" ++ strip d ++ "'")])) /\
  (forall env d w,
     EnhancedRFIDListener.is_valid_rfid (strip d) = false ->
     EnhancedRFIDListener.process_scan env d w =
       (tt, w, [Call "process_scan" d;
                Log WARNING ("Invalid RFID format: '" ++ strip d ++ "'")])).
Proof.
  split; [exact ValidatorFacts.is_valid_rfid_spec|].
  split; [exact ValidatorFacts.is_valid_rfid_same|].
  split.
  { intros d. apply ValidatorFacts.is_valid_rfid_trimmed,
      PyStrFacts.strip_trimmed. }
  split.
  - exact BasicScanFacts.process_scan_invalid.
  - exact EnhancedScanFacts.enh_process_scan_invalid.
Qed.

(** Scenario D: the candidate ["ab"] is rejected without a request. *)
Lemma C1_validator_shape_rule_witness :
  RFIDListener.is_valid_rfid (strip "ab") = false /\
  RFIDListener.process_scan
    (at_time Examples.net_ok Examples.T0) "ab" Examples.basic0
  = (tt, Examples.basic0,
     [Call "process_scan" "ab"; Log WARNING "Invalid RFID format: 'ab'"]).
Proof.
  split; [reflexivity|].
  apply (proj1 (proj2 (proj2 (proj2 C1_validator_shape_rule)))
           (at_time Examples.net_ok Examples.T0) "ab" Examples.basic0).
  reflexivity.
Defined.

(** ** Deduplication *)

(** C2.  Along every sequence of scans processed in order, two
    acceptances are at least one second apart, whatever the
    identifiers, and the first is at least one second after the
    acceptance recorded before the sequence.  A valid candidate that
    arrives less than one second after the last acceptance is rejected
    with a line at debug level and nothing else: the state, hence the
    recorded instant, is unchanged and no request is made.  An
    accepted candidate sets the recorded instant to the current time,
    and the delivery runs after that, on the updated state. *)
Theorem C2_dedup_window :
  (forall net scans w,
     StronglySorted spaced
       (acceptance_times (fst (BasicObs.process_scans net scans w))) /\
     Forall (spaced (RFIDListener.last_scan_time (RFIDListener.self w)))
       (acceptance_times (fst (BasicObs.process_scans net scans w)))) /\
  (forall net scans w,
     StronglySorted spaced
       (acceptance_times (fst (EnhancedObs.process_scans net scans w))) /\
     Forall (spaced (EnhancedRFIDListener.last_scan_time w))
       (acceptance_times (fst (EnhancedObs.process_scans net scans w)))) /\
  (forall env d w,
     RFIDListener.is_valid_rfid (strip d) = true ->
     now env - RFIDListener.last_scan_time (RFIDListener.self w) < 1 * SECOND ->
     RFIDListener.process_scan env d w =
       (tt, w, [Call "process_scan" d;
                Log DEBUG ("Ignoring duplicate scan: " ++ strip d)])) /\
  (forall env d w,
     EnhancedRFIDListener.is_valid_rfid (strip d) = true ->
     now env - EnhancedRFIDListener.last_scan_time w < 1 * SECOND ->
     EnhancedRFIDListener.process_scan env d w =
       (tt, w, [Call "process_scan" d;
                Log DEBUG ("Ignoring duplicate scan: " ++ strip d)])) /\
  (forall env d w,
     RFIDListener.is_valid_rfid (strip d) = true ->
     1 * SECOND <= now env - RFIDListener.last_scan_time (RFIDListener.self w) ->
     let w' := BasicObs.accepted_at (now env) w in
     RFIDListener.last_scan_time (RFIDListener.self w') = now env /\
     RFIDListener.process_scan env d w =
       (tt, w',
        Call "process_scan" d
          :: Log INFO ("Processing RFID scan: " ++ strip d)
          :: trace_of (RFIDListener.deliver env (strip d) w'))) /\
  (forall env d w,
     EnhancedRFIDListener.is_valid_rfid (strip d) = true ->
     1 * SECOND <= now env - EnhancedRFIDListener.last_scan_time w ->
     let w' := EnhancedObs.accepted_at (now env) w in
     EnhancedRFIDListener.last_scan_time w' = now env /\
     EnhancedRFIDListener.process_scan env d w =
       (tt, w',
        Call "process_scan" d
          :: Log INFO ("Processing RFID scan: " ++ strip d)
          :: trace_of (EnhancedRFIDListener.deliver env (strip d) w'))).
Proof.
  split.
  { intros net scans w.
    destruct (BasicScanFacts.process_scans_spaced net scans w); now split. }
  split.
  { intros net scans w.
    destruct (EnhancedScanFacts.enh_process_scans_spaced net scans w); now split. }
  split; [exact BasicScanFacts.process_scan_duplicate|].
  split; [exact EnhancedScanFacts.enh_process_scan_duplicate|].
  split.
  - intros env d w Hv Hd w'. split; [reflexivity|].
    rewrite (BasicScanFacts.process_scan_accept env d w Hv Hd).
    destruct (BasicScanFacts.deliver_spec env (strip d) w')
      as (logs & E & _).
    fold w'. now rewrite E.
  - intros env d w Hv Hd w'. split; [reflexivity|].
    rewrite (EnhancedScanFacts.enh_process_scan_accept env d w Hv Hd).
    destruct (EnhancedScanFacts.enh_deliver_spec env (strip d) w')
      as (logs & E & _).
    fold w'. now rewrite E.
Qed.

(** Scenarios A and B: a card is accepted, the instant is recorded;
    the same card half a second later is a duplicate, the state is
    unchanged and nothing is sent. *)
Lemma C2_dedup_window_witness :
  let first := at_time Examples.net_ok Examples.T0 in
  let second := at_time Examples.net_ok (Examples.T0 + SECOND / 2) in
  let w := BasicObs.accepted_at Examples.T0 Examples.basic0 in
  RFIDListener.process_scan first "123456" Examples.basic0 =
    (tt, w,
     Call "process_scan" "123456"
       :: Log INFO "Processing RFID scan: 123456"
       :: trace_of (RFIDListener.deliver first "123456" w)) /\
  RFIDListener.process_scan second "123456" w =
    (tt, w, [Call "process_scan" "123456";
             Log DEBUG "Ignoring duplicate scan: 123456"]).
Proof.
  intros first second w. split.
  - refine (proj2 (proj1 (proj2 (proj2 (proj2 (proj2 C2_dedup_window))))
                     first "123456" Examples.basic0 _ _)).
    + reflexivity.
    + vm_compute. discriminate.
  - apply (proj1 (proj2 (proj2 C2_dedup_window)) second "123456" w).
    + reflexivity.
    + vm_compute. reflexivity.
Defined.

(** ** Delivery *)

(** C8.  For every accepted identifier [process_scan] makes exactly
    one request: a POST to the scan URL of the listener with the body
    [{"rfid": identifier}] and a timeout of 5 seconds.  When the
    request raises, the status is not 200 or the body of the response
    cannot be read, an error is logged; the request is still the only
    one of the trace, and the state left behind is the same whatever
    the consumer answered: nothing is kept for a retry. *)
Theorem C8_single_delivery :
  (forall env d w,
     RFIDListener.is_valid_rfid (strip d) = true ->
     1 * SECOND <= now env - RFIDListener.last_scan_time (RFIDListener.self w) ->
     let url := RFIDListener.flask_url (RFIDListener.self w) in
     posts (trace_of (RFIDListener.process_scan env d w)) =
       [HttpPost url [("rfid", strip d)] 5
                 [("Content-Type", "application/json")]] /\
     state_of (RFIDListener.process_scan env d w) =
       BasicObs.accepted_at (now env) w /\
     (delivery_failed (consumer env url [("rfid", strip d)]) ->
      logged_at ERROR (trace_of (RFIDListener.process_scan env d w)) = true)) /\
  (forall env d w,
     EnhancedRFIDListener.is_valid_rfid (strip d) = true ->
     1 * SECOND <= now env - EnhancedRFIDListener.last_scan_time w ->
     let url := EnhancedRFIDListener.flask_url w in
     posts (trace_of (EnhancedRFIDListener.process_scan env d w)) =
       [HttpPost url [("rfid", strip d)] 5
                 [("Content-Type", "application/json")]] /\
     state_of (EnhancedRFIDListener.process_scan env d w) =
       EnhancedObs.accepted_at (now env) w /\
     (delivery_failed (consumer env url [("rfid", strip d)]) ->
      logged_at ERROR (trace_of (EnhancedRFIDListener.process_scan env d w))
        = true)) /\
  (forall host port,
     RFIDListener.flask_url (RFIDListener.__init__ host port) =
       "http://" ++ host ++ ":" ++ str_of_Z port ++ "/scan" /\
     EnhancedRFIDListener.flask_url (EnhancedRFIDListener.__init__ host port) =
       "http://" ++ host ++ ":" ++ str_of_Z port ++ "/scan").
Proof.
  split; [|split].
  - intros env d w Hv Hd url.
    pose proof (BasicScanFacts.process_scan_cases env d w) as H.
    unfold BasicObs.verdict_of in H. rewrite Hv in H. cbn [negb] in H.
    apply Z.ltb_ge in Hd. rewrite Hd in H.
    destruct H as (logs & E & Hl & He). rewrite E.
    unfold trace_of, state_of, posts. cbn -[String.append].
    fold (posts logs). rewrite (TraceFacts.posts_logs logs Hl).
    repeat split. intros Hf. exact (He Hf).
  - intros env d w Hv Hd url.
    pose proof (EnhancedScanFacts.enh_process_scan_cases env d w) as H.
    unfold EnhancedObs.verdict_of in H. rewrite Hv in H. cbn [negb] in H.
    apply Z.ltb_ge in Hd. rewrite Hd in H.
    destruct H as (logs & E & Hl & He). rewrite E.
    unfold trace_of, state_of, posts. cbn -[String.append].
    fold (posts logs). rewrite (TraceFacts.posts_logs logs Hl).
    repeat split. intros Hf. exact (He Hf).
  - intros host port. split; reflexivity.
Qed.

(** A card scanned while the consumer is down: one request, an error
    in the log, the acceptance recorded. *)
Lemma C8_single_delivery_witness :
  let env := at_time Examples.net_down Examples.T0 in
  let w := Examples.basic0 in
  posts (trace_of (RFIDListener.process_scan env "123456" w)) =
    [HttpPost "http://localhost:5000/scan" [("rfid", "123456")] 5
              [("Content-Type", "application/json")]] /\
  state_of (RFIDListener.process_scan env "123456" w) =
    BasicObs.accepted_at Examples.T0 w /\
  logged_at ERROR (trace_of (RFIDListener.process_scan env "123456" w)) = true.
Proof.
  intros env w.
  destruct (proj1 C8_single_delivery env "123456" w) as (Hp & Hs & He).
  - reflexivity.
  - vm_compute. discriminate.
  - split; [exact Hp|]. split; [exact Hs|]. apply He. exact I.
Defined.

(** ** Stripping *)

(** C10.  [process_scan] strips the candidate before it validates and
    delivers: the request, if any, carries the stripped candidate, it
    is made exactly when the stripped candidate is valid and no
    duplicate, and the stripped candidate has no whitespace at either
    end.  The stdin loop of the enhanced listener hands over a buffer
    that it has already stripped, which delivers what the buffer
    itself would.  Hence the
    length check bears on the stripped string: a buffer of 22
    characters is accepted when 20 remain after stripping. *)
Theorem C10_stripped_before_validation :
  (forall env d w,
     posts (trace_of (RFIDListener.process_scan env d w)) =
       if (RFIDListener.is_valid_rfid (strip d)
           && negb (now env - RFIDListener.last_scan_time (RFIDListener.self w)
                    <? 1 * SECOND))%bool
       then [BasicObs.the_post w (strip d)] else []) /\
  (forall env d w,
     posts (trace_of (EnhancedRFIDListener.process_scan env d w)) =
       if (EnhancedRFIDListener.is_valid_rfid (strip d)
           && negb (now env - EnhancedRFIDListener.last_scan_time w
                    <? 1 * SECOND))%bool
       then [EnhancedObs.the_post w (strip d)] else []) /\
  (forall d, trimmed (strip d)) /\
  (forall env c b w,
     (Ascii.eqb c "010" || Ascii.eqb c "013")%bool = true ->
     posts (trace_of (EnhancedRFIDListener.stdin_step env
                        (EnhancedRFIDListener.ReadChar c) b w)) =
     posts (trace_of (EnhancedRFIDListener.process_scan env b w))) /\
  (let d := "  12345678901234567890" in
   len d = 22 /\ len (strip d) = 20 /\
   posts (trace_of (RFIDListener.process_scan
                      (at_time Examples.net_ok Examples.T0) d Examples.basic0))
     = [BasicObs.the_post Examples.basic0 "12345678901234567890"]).
Proof.
  split; [|split; [|split; [exact PyStrFacts.strip_trimmed|split]]].
  - intros env d w. rewrite BasicScanFacts.process_scan_posts.
    unfold BasicObs.verdict_of.
    destruct (RFIDListener.is_valid_rfid (strip d)); cbn [negb andb];
      [|reflexivity].
    now destruct (_ <? _).
  - intros env d w. rewrite EnhancedScanFacts.enh_process_scan_posts.
    unfold EnhancedObs.verdict_of.
    destruct (EnhancedRFIDListener.is_valid_rfid (strip d)); cbn [negb andb];
      [|reflexivity].
    now destruct (_ <? _).
  - intros env c b w Hc.
    rewrite LoopFacts.stdin_step_char, Hc.
    rewrite (EnhancedScanFacts.enh_process_scan_posts env b w).
    destruct (truthy (strip b)) eqn:Hb.
    + rewrite MonadFacts.trace_of_bind. cbn [ret trace_of snd].
      rewrite app_nil_r, EnhancedScanFacts.enh_process_scan_posts.
      unfold EnhancedObs.verdict_of. now rewrite PyStrFacts.strip_idempotent.
    + unfold EnhancedObs.verdict_of.
      destruct (strip b); [reflexivity|discriminate].
  - vm_compute. repeat split.
Qed.

(** A buffer with surrounding whitespace, ended by a newline on stdin:
    the request is that of the buffer itself. *)
Lemma C10_stripped_before_validation_witness :
  let env := at_time Examples.net_ok Examples.T0 in
  posts (trace_of (EnhancedRFIDListener.stdin_step env
                     (EnhancedRFIDListener.ReadChar "010") "  123456 "
                     Examples.enhanced0)) =
  posts (trace_of (EnhancedRFIDListener.process_scan env "  123456 "
                     Examples.enhanced0)).
Proof.
  intros env.
  apply (proj1 (proj2 (proj2 (proj2 C10_stripped_before_validation)))
           env "010"%char "  123456 " Examples.enhanced0).
  reflexivity.
Defined.

(** ** The Scan Assembler *)

(** C3.  The callback of the timer and the read loop are not kept
    apart.  Six digits are buffered and the timer fires: the callback
    hands the buffer over and waits for the answer of the consumer,
    the buffer still holding the digits.  A terminator that arrives
    during the wait hands the same buffer over again: the one
    accumulation yields two candidates, and two requests.  A digit
    that arrives during the wait is appended and then dropped when the
    callback resets the buffer: it is in no candidate, neither then
    nor when its own timer fires. *)
Theorem C3_flush_overlaps_the_reads :
  RFIDListener.scan_buffer (RFIDListener.self TimerExamples.six_digits)
    = "123456" /\
  RFIDListener.timers TimerExamples.six_digits
    = [(5%nat, Examples.T0 + 2 * SECOND)] /\
  TimerExamples.late_terminator
    = TimerThread.fire_overlapped Examples.net_ok 5%nat
        (Examples.T0 + 2 * SECOND)
        [(Examples.T0 + 4 * SECOND, "010"%char)] TimerExamples.six_digits /\
  candidates (trace_of TimerExamples.late_terminator)
    = ["123456"; "123456"] /\
  posts (trace_of TimerExamples.late_terminator)
    = [HttpPost "http://localhost:5000/scan" [("rfid", "123456")] 5
         [("Content-Type", "application/json")];
       HttpPost "http://localhost:5000/scan" [("rfid", "123456")] 5
         [("Content-Type", "application/json")]] /\
  TimerExamples.seventh_digit
    = TimerThread.fire_overlapped Examples.net_ok 5%nat
        (Examples.T0 + 2 * SECOND)
        [(Examples.T0 + 3 * SECOND, "7"%char)] TimerExamples.six_digits /\
  candidates (trace_of TimerExamples.seventh_digit) = ["123456"] /\
  RFIDListener.scan_buffer
    (RFIDListener.self (state_of TimerExamples.seventh_digit)) = "" /\
  TimerExamples.lost_digit
    = TimerThread.fire_overlapped Examples.net_ok 6%nat
        (Examples.T0 + 5 * SECOND) [] (state_of TimerExamples.seventh_digit) /\
  candidates (trace_of TimerExamples.lost_digit) = [].
Proof. repeat split; vm_compute; reflexivity. Qed.

(** C4.  The callback resets [scan_timer] when it ends, whatever the
    read loop has stored there meanwhile.  A digit that arrives while
    the callback waits for the consumer starts a timer; the callback
    then forgets it, and it stays pending.  The next character finds
    no timer to cancel and starts another: two timers are pending.
    The forgotten one fires first and hands over the buffer of the
    other card one second after its last character, not two; the
    timer of that card then finds the buffer empty. *)
Theorem C4_forgotten_timer :
  RFIDListener.timers (state_of TimerExamples.seventh_digit)
    = [(6%nat, Examples.T0 + 5 * SECOND)] /\
  RFIDListener.scan_timer
    (RFIDListener.self (state_of TimerExamples.seventh_digit)) = None /\
  TimerExamples.next_card
    = TimerThread.reads_on Examples.net_ok
        (TimerExamples.arriving (Examples.T0 + 4 * SECOND) "654321")
        (state_of TimerExamples.seventh_digit) /\
  hd_error (trace_of TimerExamples.next_card)
    = Some (TimerStart 7%nat (Examples.T0 + 6 * SECOND)) /\
  RFIDListener.timers (state_of TimerExamples.next_card)
    = [(6%nat, Examples.T0 + 5 * SECOND);
       (12%nat, Examples.T0 + 6 * SECOND)] /\
  RFIDListener.scan_buffer
    (RFIDListener.self (state_of TimerExamples.next_card)) = "654321" /\
  TimerExamples.early_flush
    = TimerThread.fire_overlapped Examples.net_ok 6%nat
        (Examples.T0 + 5 * SECOND) [] (state_of TimerExamples.next_card) /\
  candidates (trace_of TimerExamples.early_flush) = ["654321"] /\
  posts (trace_of TimerExamples.early_flush)
    = [HttpPost "http://localhost:5000/scan" [("rfid", "654321")] 5
         [("Content-Type", "application/json")]] /\
  RFIDListener.last_scan_time
    (RFIDListener.self (state_of TimerExamples.early_flush))
    = Examples.T0 + 5 * SECOND /\
  TimerExamples.late_flush
    = TimerThread.fire_overlapped Examples.net_ok 12%nat
        (Examples.T0 + 6 * SECOND) [] (state_of TimerExamples.early_flush) /\
  candidates (trace_of TimerExamples.late_flush) = [].
Proof. repeat split; vm_compute; reflexivity. Qed.

(** ** Locator, probe and strategy *)

(** C5.  When neither the registry nor the directory of stable names
    holds a signature, the locator yields no descriptor: it returns
    [None], leaves the listener as it was and does nothing but log,
    the candidate paths among the rest.  When the locator yields no descriptor,
    the run reads from stdin and the probe is never called.  When it
    yields a descriptor and the probe fails, the run reads from stdin
    and never from the device. *)
Theorem C5_fallback_to_stdin :
  (forall host l,
     EnhancedObs.no_signature host ->
     EnhancedObs.nothing_found
       (EnhancedRFIDListener.find_rfid_device host l) l) /\
  (forall run l,
     EnhancedRFIDListener.truthy_path (EnhancedObs.located run l) = false ->
     let t := trace_of (EnhancedRFIDListener.start_listening run l) in
     EnhancedRFIDListener.strategy_of t = Some EnhancedRFIDListener.StdinRead /\
     calls "test_device_input" t = [] /\
     calls "read_rfid_from_device" t = []) /\
  (forall run l p,
     EnhancedObs.located run l = Some p -> truthy p = true ->
     EnhancedRFIDListener.truthy_result
       (value_of (EnhancedRFIDListener.test_device_input
                    (EnhancedRFIDListener.host run) p
                    (EnhancedObs.selecting run l))) = false ->
     let t := trace_of (EnhancedRFIDListener.start_listening run l) in
     EnhancedRFIDListener.strategy_of t = Some EnhancedRFIDListener.StdinRead /\
     calls "read_rfid_from_device" t = []) /\
  (forall run l,
     EnhancedObs.no_signature (EnhancedRFIDListener.host run) ->
     let t := trace_of (EnhancedRFIDListener.start_listening run l) in
     EnhancedRFIDListener.strategy_of t = Some EnhancedRFIDListener.StdinRead /\
     calls "test_device_input" t = []).
Proof.
  assert (Hmiss : forall host l,
             EnhancedObs.no_signature host ->
             value_of (EnhancedRFIDListener.find_rfid_device host l) = None).
  { intros host l H.
    now destruct (LocatorFacts.find_rfid_device_miss host l H). }
  split; [exact LocatorFacts.find_rfid_device_miss|]. split; [|split].
  - intros run l H t. subst t. now apply StrategyFacts.no_device_stdin.
  - intros run l p Hloc Hp Hprobe t. subst t.
    destruct (LocatorFacts.test_device_input_run
                (EnhancedRFIDListener.host run) p (EnhancedObs.selecting run l))
      as (logs & E & _).
    rewrite E in Hprobe. cbn [value_of fst] in Hprobe.
    destruct (StrategyFacts.probe_failed_stdin run l p Hloc Hp Hprobe)
      as (Hs & _ & Hc).
    now split.
  - intros run l H t. subst t.
    destruct (StrategyFacts.no_device_stdin run l) as (Hs & Hc & _).
    + unfold EnhancedObs.located. now rewrite (Hmiss _ _ H).
    + now split.
Qed.

(** Scenario E: the registry lists a keyboard only and the directory
    of stable names is absent: stdin, and no probe. *)
Lemma C5_fallback_to_stdin_witness :
  let run := Examples.run_on Examples.host_without_reader in
  let t := trace_of (EnhancedRFIDListener.start_listening run
                       Examples.enhanced0) in
  EnhancedRFIDListener.strategy_of t = Some EnhancedRFIDListener.StdinRead /\
  calls "test_device_input" t = [].
Proof.
  intros run.
  apply (proj2 (proj2 (proj2 C5_fallback_to_stdin)) run Examples.enhanced0).
  split.
  - vm_compute. reflexivity.
  - intros H. vm_compute in H. discriminate.
Defined.

(** C9, as the specification words it, fails on the code.  On a
    located reader the probe returns [False] when the wait times out
    and [False] when the device may not be opened, and what the caller
    does after the probe is the same in the two cases: one warning and
    the stdin loop.  The caller cannot tell the two failures apart
    and emits no diagnostic of its own. *)
Lemma C9_counterexample :
  let dev := "/dev/input/event7" in
  let denied := Examples.host_with_reader
                  EnhancedRFIDListener.ProbePermissionError in
  let timeout := Examples.host_with_reader EnhancedRFIDListener.ProbeTimeout in
  let l := Examples.enhanced0 in
  let caller := [Log WARNING "Device test failed, falling back to stdin";
                 Call "read_rfid_from_stdin" "";
                 Log INFO "Using stdin input method (terminal must have focus)"] in
  value_of (EnhancedRFIDListener.test_device_input denied dev l) = Some false /\
  value_of (EnhancedRFIDListener.test_device_input timeout dev l) = Some false /\
  trace_of (EnhancedRFIDListener.select_and_read (Examples.run_on denied)
              (Some dev) l)
    = (trace_of (EnhancedRFIDListener.test_device_input denied dev l)
       ++ caller)%list /\
  trace_of (EnhancedRFIDListener.select_and_read (Examples.run_on timeout)
              (Some dev) l)
    = (trace_of (EnhancedRFIDListener.test_device_input timeout dev l)
       ++ caller)%list.
Proof. repeat split. Qed.

(** C9, amended.  A timeout of the probe is reported as [False] and
    logged at the level of information only.  A permission failure is
    reported as the same [False]; it differs in the log of the probe
    alone, which holds an error and two lines of remediation.  The
    caller acts on the truth value only: after any failed probe it
    logs one warning and reads from stdin. *)
Theorem C9_probe_failures :
  (forall host p l,
     EnhancedRFIDListener.probe host p = EnhancedRFIDListener.ProbeTimeout ->
     EnhancedRFIDListener.test_device_input host p l =
       (Some false, l,
        [Call "test_device_input" p;
         Log INFO ("Testing device input: " ++ p);
         Log INFO "Device opened successfully. Scan an RFID card within 5 seconds to test...";
         Log INFO "✗ No input received within timeout"])) /\
  (forall host p l,
     EnhancedRFIDListener.probe host p
       = EnhancedRFIDListener.ProbePermissionError ->
     EnhancedRFIDListener.test_device_input host p l =
       (Some false, l,
        [Call "test_device_input" p;
         Log INFO ("Testing device input: " ++ p);
         Log ERROR ("✗ Permission denied accessing " ++ p);
         Log INFO "Try running: sudo usermod -a -G input $(whoami)";
         Log INFO "Then log out and back in, or run: newgrp input"])) /\
  (forall run p l,
     truthy p = true ->
     EnhancedRFIDListener.truthy_result
       (value_of (EnhancedRFIDListener.test_device_input
                    (EnhancedRFIDListener.host run) p l)) = false ->
     trace_of (EnhancedRFIDListener.select_and_read run (Some p) l) =
       (trace_of (EnhancedRFIDListener.test_device_input
                    (EnhancedRFIDListener.host run) p l)
        ++ Log WARNING "Device test failed, falling back to stdin"
           :: trace_of (EnhancedRFIDListener.read_rfid_from_stdin
                          (EnhancedRFIDListener.net run)
                          (EnhancedRFIDListener.stdin run) l))%list).
Proof.
  split; [|split].
  - intros host p l H. unfold EnhancedRFIDListener.test_device_input.
    now rewrite H.
  - intros host p l H. unfold EnhancedRFIDListener.test_device_input.
    now rewrite H.
  - intros run p l Hp Hprobe.
    destruct (LocatorFacts.test_device_input_run
                (EnhancedRFIDListener.host run) p l) as (logs & E & _).
    rewrite E in Hprobe. cbn [value_of fst] in Hprobe.
    now apply StrategyFacts.select_probe_failed.
Qed.

(** The probe of a reader that the user may not open. *)
Lemma C9_probe_failures_witness :
  let host := Examples.host_with_reader
                EnhancedRFIDListener.ProbePermissionError in
  EnhancedRFIDListener.test_device_input host "/dev/input/event7"
    Examples.enhanced0 =
    (Some false, Examples.enhanced0,
     [Call "test_device_input" "/dev/input/event7";
      Log INFO "Testing device input: /dev/input/event7";
      Log ERROR "✗ Permission denied accessing /dev/input/event7";
      Log INFO "Try running: sudo usermod -a -G input $(whoami)";
      Log INFO "Then log out and back in, or run: newgrp input"]).
Proof.
  intros host.
  apply (proj1 (proj2 C9_probe_failures) host "/dev/input/event7"
           Examples.enhanced0).
  reflexivity.
Defined.

(** ** The read loops *)






(* ================================================================== *)
(** * Further properties of the listeners *)
(* ================================================================== *)

Module KeymapFacts.
Import PyStr Obs MonadFacts EnhancedRFIDListener EnhancedObs MoreObs.

(** A value found for a key is an entry of the dictionary. *)
Lemma dict_get_entry d key :
  dict_get d key "" <> "" -> In (key, dict_get d key "") d.
Proof.
  induction d as [|[k v] d IH]; cbn [dict_get]; [congruence|].
  destruct (Z.eqb_spec k key) as [->|_]; intros H.
  - now left.
  - right. now apply IH.
Qed.

Lemma values_nodup_keys (d : list (Z * string)) a b v :
  NoDup (map snd d) -> In (a, v) d -> In (b, v) d -> a = b.
Proof.
  induction d as [|[k x] d IH]; cbn [map snd]; [intros _ []|].
  intros Hnd [Ha|Ha] [Hb|Hb]; inversion Hnd as [|? ? Hx Hd]; subst.
  - congruence.
  - injection Ha as <- <-. exfalso. apply Hx.
    now apply (in_map snd d (b, x)).
  - injection Hb as <- <-. exfalso. apply Hx.
    now apply (in_map snd d (a, x)).
  - now apply IH.
Qed.

Lemma nodupb_NoDup l : nodupb l = true -> NoDup l.
Proof.
  induction l as [|x l IH]; cbn [nodupb]; [constructor|].
  intros H. apply andb_true_iff in H as [Hx Hl]. constructor; [|now apply IH].
  intros Hin. apply negb_true_iff in Hx.
  assert (existsb (String.eqb x) l = true); [|congruence].
  apply existsb_exists. exists x. split; [exact Hin|apply String.eqb_refl].
Qed.

Lemma keymap_values_nodup : NoDup (map snd keymap).
Proof. apply nodupb_NoDup. vm_compute. reflexivity. Qed.

(** Two codes with the same character are the same code. *)
Lemma keycode_to_char_injective a b :
  keycode_to_char a <> "" -> keycode_to_char a = keycode_to_char b -> a = b.
Proof.
  intros Ha E. unfold keycode_to_char in *.
  apply (values_nodup_keys keymap a b (dict_get keymap a "")
           keymap_values_nodup).
  - now apply dict_get_entry.
  - rewrite E. apply dict_get_entry. now rewrite <- E.
Qed.

(** The characters of the table: digits, lower-case letters, and the
    newline for the code 28 alone. *)
Lemma keycode_to_char_range code :
  keycode_to_char code = "" \/
  exists c, keycode_to_char code = String c "" /\
            ((is_key_char c = true /\ code <> 28) \/
             (c = "010"%char /\ code = 28)).
Proof.
  unfold keycode_to_char, keymap. cbn [dict_get].
  repeat match goal with
         | |- context [(?k =? code)] =>
             destruct (Z.eqb_spec k code) as [<-|?];
             [right; eexists; split; [reflexivity|];
              first [left; split; [reflexivity|discriminate]
                    |right; split; reflexivity]|]
         end.
  now left.
Qed.

(** A code outside the table has no character. *)
Lemma keycode_to_char_outside code :
  keycode_to_char code <> "" ->
  2 <= code <= 11 \/ 16 <= code <= 25 \/ 30 <= code <= 38 \/
  44 <= code <= 50 \/ code = 28.
Proof.
  unfold keycode_to_char, keymap. cbn [dict_get].
  repeat match goal with
         | |- context [(?k =? code)] =>
             destruct (Z.eqb_spec k code) as [<-|?]; [intros _; lia|]
         end.
  congruence.
Qed.

End KeymapFacts.

Module DeviceFacts.
Import PyStr PyStrFacts Obs TraceFacts MonadFacts EnhancedRFIDListener
  EnhancedObs MoreObs KeymapFacts LoopFacts.

Lemma key_char_not_space c : is_key_char c = true -> isspace c = false.
Proof.
  unfold is_key_char, isspace, between.
  destruct (N.leb_spec 48 (code c)), (N.leb_spec (code c) 57),
    (N.leb_spec 97 (code c)), (N.leb_spec (code c) 122); cbn [andb orb];
    try discriminate; intros _;
    destruct (N.leb_spec 9 (code c)), (N.leb_spec (code c) 13),
      (N.leb_spec 28 (code c)), (N.leb_spec (code c) 32),
      (N.eqb_spec (code c) 133), (N.eqb_spec (code c) 160);
    cbn [andb orb]; try reflexivity; lia.
Qed.

Lemma key_char_alnum c : is_key_char c = true -> isalnum_char c = true.
Proof.
  unfold is_key_char, isalnum_char.
  destruct (between 48 57 c); [reflexivity|].
  destruct (between 97 122 c); [intros _|discriminate].
  cbn [orb]. now rewrite orb_true_r.
Qed.

Lemma key_char_not_blank c : is_key_char c = true -> Ascii.eqb c " " = false.
Proof.
  destruct (Ascii.eqb_spec c " "%char) as [->|]; [discriminate|reflexivity].
Qed.

Lemma all_chars_head p s c :
  all_chars p s = true -> head s = Some c -> p c = true.
Proof.
  destruct s as [|a s]; cbn [all_chars head]; [discriminate|].
  intros H [= <-]. now apply andb_true_iff in H as [H _].
Qed.

Lemma all_chars_last p s c :
  all_chars p s = true -> last s = Some c -> p c = true.
Proof.
  induction s as [|a s IH]; cbn [all_chars last]; [discriminate|].
  intros H. apply andb_true_iff in H as [Ha Hs].
  destruct s as [|b s]; [intros [= <-]; exact Ha|now apply IH].
Qed.

Lemma all_chars_app p s1 s2 :
  all_chars p (s1 ++ s2) = (all_chars p s1 && all_chars p s2)%bool.
Proof.
  induction s1 as [|a s1 IH]; cbn [String.append all_chars]; [reflexivity|].
  now rewrite IH, andb_assoc.
Qed.

Lemma key_chars_strip s : all_chars is_key_char s = true -> strip s = s.
Proof.
  intros H. apply strip_fixed. split; intros c Hc; apply key_char_not_space.
  - now apply (all_chars_head _ s).
  - now apply (all_chars_last _ s).
Qed.

Lemma key_chars_remove_spaces s :
  all_chars is_key_char s = true -> remove_spaces s = s.
Proof.
  induction s as [|a s IH]; cbn [all_chars remove_spaces]; [reflexivity|].
  intros H. apply andb_true_iff in H as [Ha Hs].
  now rewrite (key_char_not_blank a Ha), IH.
Qed.

Lemma key_chars_alnum s :
  all_chars is_key_char s = true -> all_chars isalnum_char s = true.
Proof.
  induction s as [|a s IH]; cbn [all_chars]; [reflexivity|].
  intros H. apply andb_true_iff in H as [Ha Hs].
  now rewrite (key_char_alnum a Ha), IH.
Qed.

(** On digits and lower-case letters the validator looks at the length
    only. *)
Lemma key_chars_valid s :
  all_chars is_key_char s = true -> RFIDListener.is_valid_rfid s = length_ok s.
Proof.
  intros H. unfold RFIDListener.is_valid_rfid, length_ok,
    RFIDListener.MIN_RFID_LENGTH, RFIDListener.MAX_RFID_LENGTH, isalnum.
  rewrite (key_chars_remove_spaces s H), (key_chars_alnum s H), andb_true_r.
  rewrite Z.gtb_ltb, !Z.ltb_antisym.
  destruct s as [|a s]; [reflexivity|]. cbn [truthy negb].
  now destruct (6 <=? len (String a s)), (len (String a s) <=? 20).
Qed.

(** What one turn of the device loop hands over and leaves. *)
Lemma device_step_key_chars env r b l :
  all_chars is_key_char b = true ->
  all_chars is_key_char (value_of (device_step env r b l)) = true /\
  (candidates (trace_of (device_step env r b l)) = [] \/
   (candidates (trace_of (device_step env r b l)) = [b] /\ b <> "")).
Proof.
  intros Hb. destruct r as [data|e]; [|split; [exact Hb|now left]].
  rewrite device_step_unfold.
  destruct (is_key_press data).
  2:{ destruct (_ =? _); split; try exact Hb; now left. }
  cbv zeta.
  destruct (keycode_to_char_range (event_code data))
    as [E|(c & E & [[Hc _]|[-> _]])]; rewrite E; cbn [truthy String.eqb].
  - split; [exact Hb|now left].
  - assert (Hnl : Ascii.eqb c "010" = false).
    { destruct (Ascii.eqb_spec c "010"%char) as [->|]; [discriminate|easy]. }
    rewrite Hnl. cbn [value_of trace_of fst snd]. split; [|now left].
    rewrite all_chars_app, Hb. cbn [all_chars]. now rewrite Hc.
  - cbn [Ascii.eqb Bool.eqb]. rewrite (key_chars_strip b Hb).
    destruct b as [|a b]; cbn [truthy]; [split; [reflexivity|now left]|].
    rewrite bind_run. cbn [ret value_of trace_of fst snd]. rewrite app_nil_r.
    split; [reflexivity|]. right. split; [|discriminate].
    apply EnhancedScanFacts.enh_process_scan_candidates.
Qed.

Lemma device_loop_key_chars net : forall reads b l,
  all_chars is_key_char b = true ->
  all_chars is_key_char (value_of (device_loop net reads b l)) = true /\
  Forall (fun c => all_chars is_key_char c = true /\ c <> "")
         (candidates (trace_of (device_loop net reads b l))).
Proof.
  induction reads as [|[t r] rest IH]; intros b l Hb.
  - split; [exact Hb|constructor].
  - cbn [device_loop]. rewrite bind_run.
    cbn [value_of trace_of fst snd].
    destruct (device_step_key_chars (at_time net t) r b l Hb) as [Hb' Hc].
    destruct (IH _ (state_of (device_step (at_time net t) r b l)) Hb')
      as [Hv Hall].
    split; [exact Hv|].
    unfold candidates in *. rewrite calls_app. apply Forall_app. split;
      [|exact Hall].
    destruct Hc as [->|[-> Hne]]; constructor; [now split|constructor].
Qed.

End DeviceFacts.

Module LocateFacts.
Import PyStr PyStrFacts Obs TraceFacts MonadFacts EnhancedRFIDListener
  EnhancedObs MoreObs LocatorObs LocatorFacts StrategyFacts.

(** The loop over the patterns yields what the block yields, whichever
    pattern matched. *)
Lemma registry_patterns_value host block l : forall patterns,
  value_of (registry_patterns host block patterns l) =
  if existsb (fun pattern => Re.search true pattern block) patterns then
    match Re.first_handler block with
    | Some event_device =>
        if path_exists host ("/dev/input/" ++ event_device)
        then Some ("/dev/input/" ++ event_device) else None
    | None => None
    end
  else None.
Proof.
  induction patterns as [|p ps IH]; [reflexivity|].
  cbn [registry_patterns existsb].
  destruct (Re.search true p block); cbn [orb]; [|exact IH].
  destruct (Re.first_handler block) as [h|] eqn:Hh.
  - destruct (path_exists host ("/dev/input/" ++ h)) eqn:Hp.
    + reflexivity.
    + rewrite IH, ?Hh, ?Hp. now destruct (existsb _ ps).
  - rewrite IH, ?Hh. now destruct (existsb _ ps).
Qed.

Lemma by_id_patterns_value host link l : forall patterns,
  value_of (by_id_patterns host link patterns l) =
  if (existsb (fun pattern => Re.search true pattern link) patterns
      && path_exists host (by_id_path ++ "/" ++ link))%bool
  then Some (realpath host (by_id_path ++ "/" ++ link)) else None.
Proof.
  induction patterns as [|p ps IH]; [reflexivity|].
  cbn [by_id_patterns existsb].
  destruct (Re.search true p link); cbn [orb andb]; [|exact IH].
  destruct (path_exists host (by_id_path ++ "/" ++ link)) eqn:Hp.
  - reflexivity.
  - rewrite IH, ?Hp. now rewrite andb_false_r.
Qed.

Lemma registry_blocks_value host l : forall blocks,
  value_of (registry_blocks host blocks l) =
  first_hit (registry_hit host) blocks.
Proof.
  induction blocks as [|b bs IH]; [reflexivity|].
  cbn [registry_blocks first_hit]. rewrite value_of_bind.
  destruct (registry_patterns_logs host b l RFID_READER_PATTERNS) as [-> _].
  rewrite registry_patterns_value.
  fold (matches_signature b). fold (registry_hit host b).
  destruct (registry_hit host b); [reflexivity|exact IH].
Qed.

Lemma by_id_links_value host l : forall links,
  value_of (by_id_links host links l) = first_hit (by_id_hit host) links.
Proof.
  induction links as [|b bs IH]; [reflexivity|].
  cbn [by_id_links first_hit]. rewrite value_of_bind.
  destruct (by_id_patterns_logs host b l RFID_READER_PATTERNS) as [-> _].
  rewrite by_id_patterns_value.
  fold (matches_signature b). fold (by_id_hit host b).
  destruct (by_id_hit host b); [reflexivity|exact IH].
Qed.

(** The locator is the layered search. *)
Lemma find_rfid_device_value host l :
  value_of (find_rfid_device host l) = locate host.
Proof.
  unfold find_rfid_device, locate.
  rewrite value_of_bind. cbn [log emit value_of state_of fst snd].
  rewrite value_of_bind.
  set (m1 := match proc_bus_input_devices host with
             | inr content => registry_blocks host (Re.split_blank content)
             | inl e => _
             end).
  assert (H1 : state_of (m1 l) = l /\
               value_of (m1 l) =
               match proc_bus_input_devices host with
               | inr content =>
                   first_hit (registry_hit host) (Re.split_blank content)
               | inl _ => None
               end).
  { subst m1. destruct (proc_bus_input_devices host) as [e|content].
    - split; reflexivity.
    - split; [apply registry_blocks_logs|apply registry_blocks_value]. }
  destruct H1 as [-> ->].
  destruct (match proc_bus_input_devices host with
            | inr content => _ | inl _ => None end); [reflexivity|].
  rewrite value_of_bind.
  set (m2 := if path_exists host by_id_path then _ else _).
  assert (H2 : state_of (m2 l) = l /\
               value_of (m2 l) =
               if path_exists host by_id_path
               then first_hit (by_id_hit host) (listdir_by_id host)
               else None).
  { subst m2. destruct (path_exists host by_id_path).
    - split; [apply by_id_links_logs|apply by_id_links_value].
    - split; reflexivity. }
  destruct H2 as [-> ->].
  destruct (if path_exists host by_id_path then _ else None); [reflexivity|].
  rewrite !value_of_bind. reflexivity.
Qed.

(** ** The form of a handler *)

Lemma take_digits_decimal s : all_chars isdecimal (Re.take_digits s) = true.
Proof.
  induction s as [|a s IH]; cbn [Re.take_digits all_chars]; [reflexivity|].
  destruct (isdecimal a) eqn:Ha; cbn [all_chars]; [now rewrite Ha|reflexivity].
Qed.

Lemma lazy_event_form : forall s h,
  Re.lazy_event s = Some h ->
  exists digits, h = "event" ++ digits /\ truthy digits = true /\
                 all_chars isdecimal digits = true.
Proof.
  induction s as [|a s IH]; intros h; [simpl; discriminate|].
  cbn [Re.lazy_event].
  - destruct (_ && _)%bool eqn:E.
    + intros [= <-]. apply andb_true_iff in E as [_ E].
      eexists. split; [reflexivity|].
      split; [exact E|apply take_digits_decimal].
    + destruct (Ascii.eqb a "010"); [discriminate|apply IH].
Qed.

Lemma first_handler_form : forall s h,
  Re.first_handler s = Some h ->
  exists digits, h = "event" ++ digits /\ truthy digits = true /\
                 all_chars isdecimal digits = true.
Proof.
  induction s as [|a s IH]; intros h; [simpl; discriminate|].
  cbn [Re.first_handler].
  - destruct (if startswith _ _ then _ else None) as [x|] eqn:E.
    + intros [= <-]. destruct (startswith _ _); [|discriminate].
      now apply lazy_event_form in E.
    + apply IH.
Qed.

Lemma first_hit_some {A B} (f : A -> option B) l y :
  first_hit f l = Some y -> exists x, In x l /\ f x = Some y.
Proof.
  induction l as [|a l IH]; cbn [first_hit]; [discriminate|].
  destruct (f a) as [b|] eqn:E.
  - intros [= <-]. exists a. split; [now left|exact E].
  - intros H. destruct (IH H) as (x & Hx & Hf). exists x.
    split; [now right|exact Hf].
Qed.

(** ** Matching ignores the case *)

Lemma device_step_quiet m env r b l :
  String.eqb "process_scan" m = false ->
  forallb (quiet m) (trace_of (device_step env r b l)) = true.
Proof.
  intros Hm. destruct r as [data|e]; [|reflexivity].
  rewrite LoopFacts.device_step_unfold.
  destruct (is_key_press data); [|now destruct (_ =? _)].
  cbv zeta. destruct (truthy (keycode_to_char _)); [|reflexivity].
  destruct (String.eqb (keycode_to_char _) _); [|reflexivity].
  destruct (truthy (strip b)); [|reflexivity].
  rewrite trace_of_bind. cbn [ret trace_of snd]. rewrite app_nil_r.
  now apply process_scan_quiet.
Qed.

Lemma device_loop_quiet m net : forall reads b l,
  String.eqb "process_scan" m = false ->
  forallb (quiet m) (trace_of (device_loop net reads b l)) = true.
Proof.
  induction reads as [|[t r] rest IH]; intros b l Hm; [reflexivity|].
  cbn [device_loop]. rewrite trace_of_bind, forallb_app.
  rewrite (device_step_quiet m _ r b l Hm). cbn [andb]. now apply IH.
Qed.

Lemma read_rfid_from_device_quiet m net p d l :
  String.eqb "process_scan" m = false ->
  String.eqb "read_rfid_from_device" m = false ->
  forallb (quiet m) (trace_of (read_rfid_from_device net p d l)) = true.
Proof.
  intros Hm Hd. unfold read_rfid_from_device.
  rewrite !trace_of_bind. cbn [log emit trace_of snd app forallb quiet].
  rewrite Hd. cbn [negb andb].
  destruct d as [| e|reads]; try reflexivity.
  match goal with
  | |- context [device_while ?n ?r ?b ?s] =>
      destruct (WhileFacts.device_while_cases n r b s) as [[_ ->]| ->]
  end; [now apply device_loop_quiet|reflexivity].
Qed.

Lemma located_locate run l : located run l = locate (host run).
Proof. apply find_rfid_device_value. Qed.

Lemma start_listening_strategy run l :
  strategy_of (trace_of (start_listening run l))
    = Some (expected_strategy (host run)) /\
  calls "test_device_input" (trace_of (start_listening run l))
    = match locate (host run) with
      | Some p => if truthy p then [p] else []
      | None => []
      end.
Proof.
  unfold expected_strategy. rewrite <- (located_locate run l).
  destruct (located run l) as [p|] eqn:Hloc.
  - destruct (truthy p) eqn:Hp.
    + destruct (truthy_result (probe_value (probe (host run) p))) eqn:Hprobe.
      * split; [now apply probe_alive_device|].
        rewrite start_listening_trace.
        destruct (find_rfid_device_logs (host run) (set_running true l))
          as [_ Hlogs].
        rewrite Hloc, (select_probe_alive run p _ Hp Hprobe).
        destruct (test_device_input_run (host run) p (selecting run l))
          as (logs & E & Hl).
        rewrite E. cbn [trace_of snd calls].
        rewrite (calls_logs_app _ _ _ Hlogs).
        cbn [app calls String.eqb Ascii.eqb Bool.eqb].
        rewrite (calls_logs_app _ _ _ Hl). cbn [calls].
        f_equal. apply quiet_calls, read_rfid_from_device_quiet; reflexivity.
      * destruct (probe_failed_stdin run l p Hloc Hp Hprobe) as (Hs & Hc & _).
        now split.
    + destruct (no_device_stdin run l) as (Hs & Hc & _).
      * rewrite Hloc. exact Hp.
      * now split.
  - destruct (no_device_stdin run l) as (Hs & Hc & _).
    + now rewrite Hloc.
    + now split.
Qed.

End LocateFacts.

(* ================================================================== *)
(** * Runs make sound requests only *)
(* ================================================================== *)

Module SoundFacts.
Import PyStr PyStrFacts Obs TraceFacts MonadFacts MoreObs.

Section Sound.
Context {S : Type} (url_of : S -> string).

Lemma sound_ret {A} (a : A) : sound_run url_of (ret a).
Proof. intros s. split; reflexivity. Qed.

Lemma sound_get : sound_run url_of get.
Proof. intros s. split; reflexivity. Qed.

Lemma sound_emit e :
  (forall url, sound_event url e = true) -> sound_run url_of (emit e).
Proof.
  intros H s. split; [reflexivity|].
  cbn [emit trace_of snd forallb]. now rewrite H.
Qed.

Lemma sound_log lvl msg : sound_run url_of (log lvl msg).
Proof. apply sound_emit. reflexivity. Qed.

Lemma sound_modify f :
  (forall s, url_of (f s) = url_of s) -> sound_run url_of (modify f).
Proof. intros H s. split; [apply H|reflexivity]. Qed.

Lemma sound_bind {A B} (m : M S A) (k : A -> M S B) :
  sound_run url_of m -> (forall a, sound_run url_of (k a)) ->
  sound_run url_of (bind m k).
Proof.
  intros Hm Hk s. rewrite bind_run. cbn [state_of trace_of fst snd].
  destruct (Hm s) as [Hu Ht].
  destruct (Hk (value_of (m s)) (state_of (m s))) as [Hu' Ht'].
  rewrite Hu in Hu', Ht'. split; [exact Hu'|].
  now rewrite forallb_app, Ht, Ht'.
Qed.

Lemma sound_logs {A} (m : M S A) :
  (forall s, state_of (m s) = s /\ forallb is_log (trace_of (m s)) = true) ->
  sound_run url_of m.
Proof.
  intros H s. destruct (H s) as [-> Hl]. split; [reflexivity|].
  induction (trace_of (m s)) as [|e t IH]; [reflexivity|].
  cbn [forallb] in *. apply andb_true_iff in Hl as [He Hl].
  destruct e; try discriminate. cbn [sound_event andb]. now apply IH.
Qed.

End Sound.

Lemma logs_sound url t :
  forallb is_log t = true -> forallb (sound_event url) t = true.
Proof.
  induction t as [|e t IH]; [reflexivity|]. cbn [forallb].
  intros H. apply andb_true_iff in H as [He Hl].
  destruct e; try discriminate. cbn [sound_event andb]. now apply IH.
Qed.

Lemma the_post_sound url rfid hdrs :
  RFIDListener.is_valid_rfid (strip rfid) = true ->
  sound_event url (HttpPost url [("rfid", strip rfid)] 5 hdrs) = true.
Proof.
  intros H. cbn [sound_event]. rewrite H, strip_idempotent.
  rewrite !String.eqb_refl. reflexivity.
Qed.

Ltac sound :=
  repeat match goal with
         | |- sound_run _ (bind _ _) => apply sound_bind; [|intros ?]
         | |- sound_run _ (ret _) => apply sound_ret
         | |- sound_run _ get => apply sound_get
         | |- sound_run _ (log _ _) => apply sound_log
         | |- sound_run _ (emit _) => apply sound_emit; reflexivity
         | |- sound_run _ (modify _) => apply sound_modify; reflexivity
         end.

End SoundFacts.

Module BasicSound.
Import PyStr PyStrFacts Obs TraceFacts MonadFacts MoreObs SoundFacts.
Import RFIDListener BasicObs BasicScanFacts.

Lemma sound_set_self f :
  (forall l, flask_url (f l) = flask_url l) -> sound_run basic_url (set_self f).
Proof. intros H. apply sound_modify. intros s. apply H. Qed.

Lemma sound_timer_new : sound_run basic_url timer_new.
Proof. intros s. split; reflexivity. Qed.

Lemma sound_timer_start id d : sound_run basic_url (timer_start id d).
Proof. unfold timer_start. sound. Qed.

Lemma sound_timer_cancel id : sound_run basic_url (timer_cancel id).
Proof. unfold timer_cancel. sound. Qed.

Lemma sound_process_scan env d : sound_run basic_url (process_scan env d).
Proof.
  intros w. pose proof (process_scan_cases env d w) as H.
  unfold verdict_of in H.
  destruct (is_valid_rfid (strip d)) eqn:Hv; cbn [negb] in H.
  - destruct (_ <? _).
    + destruct H as (lv & msg & ->). split; reflexivity.
    + destruct H as (logs & -> & Hl & _). split; [reflexivity|].
      cbn [trace_of snd forallb]. unfold the_post. fold (basic_url w).
      rewrite (the_post_sound (basic_url w) d _ Hv).
      cbn [sound_event andb]. now apply logs_sound.
  - destruct H as (lv & msg & ->). split; reflexivity.
Qed.

Lemma sound_flush_scan_buffer env : sound_run basic_url (flush_scan_buffer env).
Proof.
  unfold flush_scan_buffer. sound.
  - destruct (truthy _); sound.
    + apply sound_process_scan.
    + now apply sound_set_self.
  - now apply sound_set_self.
Qed.

Lemma sound_handle_input_char env c :
  sound_run basic_url (handle_input_char env c).
Proof.
  unfold handle_input_char. destruct (is_terminator c); sound.
  - destruct (scan_timer _); sound.
    + apply sound_timer_cancel.
    + now apply sound_set_self.
  - destruct (truthy _); sound.
    + apply sound_process_scan.
    + now apply sound_set_self.
  - now apply sound_set_self.
  - destruct (scan_timer _); sound. apply sound_timer_cancel.
  - apply sound_timer_new.
  - now apply sound_set_self.
  - apply sound_timer_start.
Qed.

Lemma sound_stop_listening : sound_run basic_url stop_listening.
Proof.
  unfold stop_listening. sound.
  - now apply sound_set_self.
  - destruct (scan_timer _); sound. apply sound_timer_cancel.
Qed.

Lemma sound_fire net id d : sound_run basic_url (fire net id d).
Proof.
  unfold fire. sound. destruct (existsb _ _); sound.
  apply sound_flush_scan_buffer.
Qed.

Lemma sound_fire_each net due : sound_run basic_url (fire_each net due).
Proof.
  induction due as [|[id d] rest IH]; cbn [fire_each]; sound.
  - apply sound_fire.
  - exact IH.
Qed.

Lemma sound_advance net t : sound_run basic_url (advance net t).
Proof. unfold advance. sound. apply sound_fire_each. Qed.

Lemma sound_listen_step net t r : sound_run basic_url (listen_step net t r).
Proof.
  destruct r; cbn [listen_step]; sound. apply sound_handle_input_char.
Qed.

Lemma sound_listen_loop net reads : sound_run basic_url (listen_loop net reads).
Proof.
  induction reads as [|[t r] rest IH]; cbn [listen_loop]; sound.
  - apply sound_advance.
  - apply sound_listen_step.
  - destruct a0; sound. exact IH.
Qed.

Lemma sound_start_listening net reads horizon :
  sound_run basic_url (start_listening net reads horizon).
Proof.
  unfold start_listening. sound.
  - now apply sound_set_self.
  - apply sound_listen_loop.
  - destruct a3; sound. apply sound_stop_listening.
  - apply sound_advance.
Qed.

End BasicSound.

Module EnhancedSound.
Import PyStr PyStrFacts Obs TraceFacts MonadFacts MoreObs SoundFacts.
Import EnhancedRFIDListener EnhancedObs EnhancedScanFacts LocatorFacts.

Lemma sound_enh_process_scan env d : sound_run flask_url (process_scan env d).
Proof.
  intros w. pose proof (enh_process_scan_cases env d w) as H.
  unfold verdict_of in H.
  destruct (is_valid_rfid (strip d)) eqn:Hv; cbn [negb] in H.
  - destruct (_ <? _).
    + destruct H as (lv & msg & ->). split; reflexivity.
    + destruct H as (logs & -> & Hl & _). split; [reflexivity|].
      cbn [trace_of snd forallb]. unfold the_post.
      rewrite ValidatorFacts.is_valid_rfid_same in Hv.
      rewrite (the_post_sound (flask_url w) d _ Hv).
      cbn [sound_event andb]. now apply logs_sound.
  - destruct H as (lv & msg & ->). split; reflexivity.
Qed.

Lemma sound_find_rfid_device host : sound_run flask_url (find_rfid_device host).
Proof. apply sound_logs. intros s. apply find_rfid_device_logs. Qed.

Lemma sound_test_device_input host p :
  sound_run flask_url (test_device_input host p).
Proof.
  intros s. destruct (test_device_input_run host p s) as (logs & -> & Hl).
  split; [reflexivity|]. cbn [trace_of snd forallb sound_event andb].
  now apply logs_sound.
Qed.

Lemma sound_stdin_step env r b : sound_run flask_url (stdin_step env r b).
Proof.
  destruct r as [c| |e]; cbn [stdin_step]; sound.
  destruct (_ || _)%bool; sound.
  destruct (truthy _); sound. apply sound_enh_process_scan.
Qed.

Lemma sound_device_step env r b : sound_run flask_url (device_step env r b).
Proof.
  destruct r as [data|e]; cbn [device_step]; sound.
  destruct (_ =? event_size); sound.
  destruct (unpack data) as [[[[sec usec] ty] code] value].
  destruct (_ && _)%bool; sound. cbv zeta.
  destruct (truthy _); sound.
  destruct (String.eqb _ _); sound.
  destruct (truthy _); sound. apply sound_enh_process_scan.
Qed.

Lemma sound_stdin_while net reads : forall b,
  sound_run flask_url (stdin_while net reads b).
Proof.
  induction reads as [|[t r] rest IH]; intros b; cbn [stdin_while]; sound;
    destruct (running _); sound.
  - apply sound_stdin_step.
  - match goal with
    | |- sound_run _ (match ?x with _ => _ end) => destruct x
    end; sound. apply IH.
Qed.

Lemma sound_device_while net reads : forall b,
  sound_run flask_url (device_while net reads b).
Proof.
  induction reads as [|[t r] rest IH]; intros b; cbn [device_while]; sound;
    destruct (running _); sound.
  - apply sound_device_step.
  - apply IH.
Qed.

Lemma sound_read_rfid_from_stdin net reads :
  sound_run flask_url (read_rfid_from_stdin net reads).
Proof. unfold read_rfid_from_stdin. sound. apply sound_stdin_while. Qed.

Lemma sound_read_rfid_from_device net p d :
  sound_run flask_url (read_rfid_from_device net p d).
Proof.
  unfold read_rfid_from_device. sound.
  destruct d; sound. apply sound_device_while.
Qed.

Lemma sound_select_and_read run found :
  sound_run flask_url (select_and_read run found).
Proof.
  unfold select_and_read. destruct found as [p|].
  - destruct (truthy p); sound.
    + apply sound_test_device_input.
    + destruct (truthy_result _); sound.
      * apply sound_read_rfid_from_device.
      * apply sound_read_rfid_from_stdin.
    + apply sound_read_rfid_from_stdin.
  - sound. apply sound_read_rfid_from_stdin.
Qed.

Lemma sound_enh_start_listening run : sound_run flask_url (start_listening run).
Proof.
  unfold start_listening. sound.
  - apply sound_find_rfid_device.
  - apply sound_select_and_read.
Qed.

End EnhancedSound.

(* ================================================================== *)
(** * Leaving the loops *)
(* ================================================================== *)

Module ExitFacts.
Import PyStr PyStrFacts Obs TraceFacts MonadFacts MoreObs.

(** ** [read_rfid_from_stdin]: an error of the read *)

Lemma stdin_loop_raise net t e reads2 : forall reads1 b l,
  EnhancedRFIDListener.stdin_loop net
    (reads1 ++ (t, EnhancedRFIDListener.ReadRaises e) :: reads2) b l =
  let r := EnhancedRFIDListener.stdin_loop net reads1 b l in
  match value_of r with
  | Some _ =>
      (None, state_of r,
       (trace_of r ++ [Log ERROR ("Error reading from stdin: " ++ e)])%list)
  | None => r
  end.
Proof.
  induction reads1 as [|[t1 r1] rest IH]; intros b l.
  - reflexivity.
  - cbn [app EnhancedRFIDListener.stdin_loop]. cbv zeta.
    rewrite !bind_run.
    destruct (value_of (EnhancedRFIDListener.stdin_step (at_time net t1) r1 b l))
      as [b'|].
    + rewrite IH. cbv zeta. cbn [value_of state_of trace_of fst snd].
      destruct (value_of (EnhancedRFIDListener.stdin_loop net rest b' _))
        eqn:Hv; cbn [value_of state_of trace_of fst snd].
      * now rewrite app_assoc.
      * now rewrite Hv.
    + reflexivity.
Qed.

(** The same for the loop with its test of [running]. *)
Lemma stdin_while_raise net t e reads2 reads1 b l :
  EnhancedRFIDListener.stdin_while net
    (reads1 ++ (t, EnhancedRFIDListener.ReadRaises e) :: reads2) b l =
  let r := EnhancedRFIDListener.stdin_while net reads1 b l in
  match value_of r with
  | Some _ =>
      (None, state_of r,
       (trace_of r ++ [Log ERROR ("Error reading from stdin: " ++ e)])%list)
  | None => r
  end.
Proof.
  destruct (EnhancedRFIDListener.running l) eqn:Hr.
  - rewrite !(WhileFacts.stdin_while_running net _ b l Hr).
    apply stdin_loop_raise.
  - now rewrite !(WhileFacts.stdin_while_stopped net _ b l Hr).
Qed.

(** Reads that do not raise are all made. *)
Lemma stdin_loop_value net : forall reads b l,
  forallb (fun r => negb (read_raises (snd r))) reads = true ->
  exists b', value_of (EnhancedRFIDListener.stdin_loop net reads b l) = Some b'.
Proof.
  induction reads as [|[t r] rest IH]; intros b l Hn.
  - now exists b.
  - cbn [forallb snd] in Hn. apply andb_true_iff in Hn as [Hr Hn].
    cbn [EnhancedRFIDListener.stdin_loop]. rewrite value_of_bind.
    destruct r as [c| |e]; [| |discriminate];
      cbn [EnhancedRFIDListener.stdin_step].
    + destruct (_ || _)%bool.
      * destruct (truthy _).
        -- rewrite value_of_bind. cbn [ret value_of fst]. apply IH, Hn.
        -- cbn [ret value_of fst]. apply IH, Hn.
      * cbn [ret value_of fst]. apply IH, Hn.
    + rewrite value_of_bind. cbn [ret value_of fst]. apply IH, Hn.
Qed.

End ExitFacts.

(* ================================================================== *)
(** * Runs of [EnhancedRFIDListener]: records, bursts, the device *)
(* ================================================================== *)

Module RunFacts.
Import PyStr PyStrFacts Obs TraceFacts MonadFacts EnhancedRFIDListener
  EnhancedObs MoreObs LocatorObs LocatorFacts StrategyFacts LoopFacts
  EnhancedScanFacts LocateFacts.

(** ** The time stamps of a record are not looked at *)

Lemma slice_after (ts rest : list byte) from count :
  List.length ts = from -> slice from count (ts ++ rest) = firstn count rest.
Proof.
  intros H. unfold slice. rewrite skipn_app, H, Nat.sub_diag.
  rewrite <- H, skipn_all. reflexivity.
Qed.

Lemma slice_after_more (ts rest : list byte) from more count from' :
  List.length ts = from -> from' = (from + more)%nat ->
  slice from' count (ts ++ rest) = slice more count rest.
Proof.
  intros H ->. unfold slice. rewrite skipn_app, H.
  replace (from + more - from)%nat with more by lia.
  rewrite skipn_all2 by lia. reflexivity.
Qed.

Lemma device_step_time_stamps env ts1 ts2 rest b l :
  List.length ts1 = 16%nat -> List.length ts2 = 16%nat ->
  device_step env (ReadBytes (ts1 ++ rest)) b l =
  device_step env (ReadBytes (ts2 ++ rest)) b l.
Proof.
  intros H1 H2. unfold device_step, unpack.
  rewrite !length_app, H1, H2.
  rewrite (slice_after ts1 rest 16 2 H1), (slice_after ts2 rest 16 2 H2).
  rewrite (slice_after_more ts1 rest 16 2 2 18 H1 eq_refl),
          (slice_after_more ts2 rest 16 2 2 18 H2 eq_refl).
  rewrite (slice_after_more ts1 rest 16 4 4 20 H1 eq_refl),
          (slice_after_more ts2 rest 16 4 4 20 H2 eq_refl).
  reflexivity.
Qed.

(** ** Bursts: at most one request in a second *)

Lemma process_scan_late env d l T :
  T <= last_scan_time l -> now env < T + 1 * SECOND ->
  state_of (process_scan env d l) = l /\
  posts (trace_of (process_scan env d l)) = [].
Proof.
  intros Hl Hn. rewrite enh_process_scan_state, enh_process_scan_posts.
  unfold verdict_of. destruct (negb _); [split; reflexivity|].
  destruct (Z.ltb_spec (now env - last_scan_time l) (1 * SECOND));
    [split; reflexivity|lia].
Qed.

Lemma process_scan_once env d l T :
  T <= now env ->
  (state_of (process_scan env d l) = l /\
   posts (trace_of (process_scan env d l)) = []) \/
  (T <= last_scan_time (state_of (process_scan env d l)) /\
   List.length (posts (trace_of (process_scan env d l))) = 1%nat).
Proof.
  intros Hn. rewrite enh_process_scan_state, enh_process_scan_posts.
  destruct (verdict_of env d l); [left|left|right]; split; try reflexivity.
  exact Hn.
Qed.

Lemma device_step_scan_or_nothing env r b l :
  scan_or_nothing env l (device_step env r b l).
Proof.
  destruct r as [data|e]; [|left; split; reflexivity].
  rewrite device_step_unfold.
  destruct (is_key_press data).
  - cbv zeta. destruct (truthy (keycode_to_char _)); [|left; split; reflexivity].
    destruct (String.eqb (keycode_to_char _) _); [|left; split; reflexivity].
    destruct (truthy (strip b)); [|left; split; reflexivity].
    right. exists (strip b). rewrite state_of_bind, trace_of_bind.
    cbn [ret state_of trace_of fst snd]. now rewrite app_nil_r.
  - destruct (_ =? _); left; split; reflexivity.
Qed.

Lemma stdin_step_scan_or_nothing env r b l :
  scan_or_nothing env l (stdin_step env r b l).
Proof.
  destruct r as [c| |e]; try (left; split; reflexivity).
  rewrite stdin_step_char.
  destruct (_ || _)%bool; [|left; split; reflexivity].
  destruct (truthy (strip b)); [|left; split; reflexivity].
  right. exists (strip b). rewrite state_of_bind, trace_of_bind.
  cbn [ret state_of trace_of fst snd]. now rewrite app_nil_r.
Qed.

Lemma step_late {A} env l (r : A * Listener * list Event) T :
  scan_or_nothing env l r ->
  T <= last_scan_time l -> now env < T + 1 * SECOND ->
  state_of r = l /\ posts (trace_of r) = [].
Proof.
  intros [H|(d & Hs & Hp)] Hl Hn; [exact H|].
  rewrite Hs, Hp. now apply (process_scan_late env d l T).
Qed.

Lemma step_once {A} env l (r : A * Listener * list Event) T :
  scan_or_nothing env l r -> T <= now env ->
  (state_of r = l /\ posts (trace_of r) = []) \/
  (T <= last_scan_time (state_of r) /\
   List.length (posts (trace_of r)) = 1%nat).
Proof.
  intros [H|(d & Hs & Hp)] Hn; [now left|].
  rewrite Hs, Hp. now apply process_scan_once.
Qed.

Lemma device_loop_late net T : forall reads b l,
  burst T reads = true -> T <= last_scan_time l ->
  posts (trace_of (device_loop net reads b l)) = [].
Proof.
  induction reads as [|[t r] rest IH]; intros b l Hb Hl; [reflexivity|].
  cbn [burst forallb fst] in Hb. apply andb_true_iff in Hb as [Ht Hb].
  apply andb_true_iff in Ht as [Ht1 Ht2].
  apply Z.leb_le in Ht1. apply Z.ltb_lt in Ht2.
  cbn [device_loop]. rewrite trace_of_bind, posts_app.
  destruct (step_late (at_time net t) l _ T
              (device_step_scan_or_nothing (at_time net t) r b l) Hl Ht2)
    as [Hs Hp].
  rewrite Hp, Hs. now apply IH.
Qed.

Lemma device_loop_burst net T : forall reads b l,
  burst T reads = true ->
  (List.length (posts (trace_of (device_loop net reads b l))) <= 1)%nat.
Proof.
  induction reads as [|[t r] rest IH]; intros b l Hb; [cbn; lia|].
  pose proof Hb as Hb'.
  cbn [burst forallb fst] in Hb. apply andb_true_iff in Hb as [Ht Hb].
  apply andb_true_iff in Ht as [Ht1 Ht2].
  apply Z.leb_le in Ht1. apply Z.ltb_lt in Ht2.
  cbn [device_loop]. rewrite trace_of_bind, posts_app, length_app.
  destruct (step_once (at_time net t) l _ T
              (device_step_scan_or_nothing (at_time net t) r b l) Ht1)
    as [[Hs Hp]|[Hl Hp]].
  - rewrite Hp, Hs. now apply IH.
  - rewrite Hp, (device_loop_late net T rest _ _ Hb Hl). cbn. lia.
Qed.

Lemma stdin_loop_late net T : forall reads b l,
  burst T reads = true -> T <= last_scan_time l ->
  posts (trace_of (stdin_loop net reads b l)) = [].
Proof.
  induction reads as [|[t r] rest IH]; intros b l Hb Hl; [reflexivity|].
  cbn [burst forallb fst] in Hb. apply andb_true_iff in Hb as [Ht Hb].
  apply andb_true_iff in Ht as [Ht1 Ht2].
  apply Z.leb_le in Ht1. apply Z.ltb_lt in Ht2.
  cbn [stdin_loop]. rewrite trace_of_bind, posts_app.
  destruct (step_late (at_time net t) l _ T
              (stdin_step_scan_or_nothing (at_time net t) r b l) Hl Ht2)
    as [Hs Hp].
  rewrite Hp, Hs.
  destruct (value_of (stdin_step (at_time net t) r b l)); [|reflexivity].
  now apply IH.
Qed.

Lemma stdin_loop_burst net T : forall reads b l,
  burst T reads = true ->
  (List.length (posts (trace_of (stdin_loop net reads b l))) <= 1)%nat.
Proof.
  induction reads as [|[t r] rest IH]; intros b l Hb; [cbn; lia|].
  pose proof Hb as Hb'.
  cbn [burst forallb fst] in Hb. apply andb_true_iff in Hb as [Ht Hb].
  apply andb_true_iff in Ht as [Ht1 Ht2].
  apply Z.leb_le in Ht1. apply Z.ltb_lt in Ht2.
  cbn [stdin_loop]. rewrite trace_of_bind, posts_app, length_app.
  destruct (step_once (at_time net t) l _ T
              (stdin_step_scan_or_nothing (at_time net t) r b l) Ht1)
    as [[Hs Hp]|[Hl Hp]].
  - rewrite Hp, Hs.
    destruct (value_of (stdin_step (at_time net t) r b l)); [|cbn; lia].
    now apply IH.
  - rewrite Hp.
    destruct (value_of (stdin_step (at_time net t) r b l)); [|cbn; lia].
    rewrite (stdin_loop_late net T rest _ _ Hb Hl). cbn. lia.
Qed.

Lemma selecting_running run l : running (selecting run l) = true.
Proof. reflexivity. Qed.

Lemma read_rfid_from_stdin_posts net reads l :
  running l = true ->
  posts (trace_of (read_rfid_from_stdin net reads l))
  = posts (trace_of (stdin_loop net reads "" l)).
Proof.
  intros Hr. unfold read_rfid_from_stdin. rewrite !trace_of_bind.
  cbn [emit log trace_of state_of value_of fst snd app posts filter is_post].
  now rewrite (WhileFacts.stdin_while_running net reads "" l Hr).
Qed.

Lemma read_rfid_from_device_posts net p d l :
  running l = true ->
  posts (trace_of (read_rfid_from_device net p d l))
  = match d with
    | Opened reads => posts (trace_of (device_loop net reads "" l))
    | _ => []
    end.
Proof.
  intros Hr. unfold read_rfid_from_device. rewrite !trace_of_bind.
  destruct d as [|e|reads]; try reflexivity.
  cbn [emit log trace_of state_of value_of fst snd app posts filter is_post].
  now rewrite (WhileFacts.device_while_running net reads "" l Hr).
Qed.

(** The requests of a run are those of the read loop it enters. *)
Lemma start_listening_posts run l :
  posts (trace_of (start_listening run l)) =
  match expected_strategy (host run) with
  | DeviceRead _ =>
      match device run with
      | Opened reads =>
          posts (trace_of (device_loop (net run) reads "" (selecting run l)))
      | _ => []
      end
  | StdinRead =>
      posts (trace_of (stdin_loop (net run) (stdin run) "" (selecting run l)))
  end.
Proof.
  rewrite start_listening_trace.
  destruct (find_rfid_device_logs (host run) (set_running true l)) as [_ Hlogs].
  change (posts (?a :: ?t)) with (posts t).
  rewrite posts_app, (posts_logs _ Hlogs). cbn [app].
  unfold expected_strategy. rewrite <- (located_locate run l).
  destruct (located run l) as [p|] eqn:Hloc.
  - destruct (truthy p) eqn:Hp.
    + destruct (truthy_result (probe_value (probe (host run) p))) eqn:Hprobe;
        cbn [andb].
      * rewrite (select_probe_alive run p _ Hp Hprobe).
        destruct (test_device_input_run (host run) p (selecting run l))
          as (logs & E & Hl).
        rewrite E. cbn [trace_of snd]. rewrite posts_app.
        change (posts (Call ?m ?a :: ?t)) with (posts t).
        rewrite (posts_logs _ Hl). cbn [app].
        change (posts (Log ?a ?m :: ?t)) with (posts t).
        apply read_rfid_from_device_posts, selecting_running.
      * rewrite (select_probe_failed run p _ Hp Hprobe).
        destruct (test_device_input_run (host run) p (selecting run l))
          as (logs & E & Hl).
        rewrite E. cbn [trace_of snd]. rewrite posts_app.
        change (posts (Call ?m ?a :: ?t)) with (posts t).
        rewrite (posts_logs _ Hl). cbn [app].
        change (posts (Log ?a ?m :: ?t)) with (posts t).
        apply read_rfid_from_stdin_posts, selecting_running.
    + cbn [andb]. rewrite (select_no_device run (Some p) _ Hp).
      change (posts (Log ?a ?m :: Log ?a' ?m' :: ?t)) with (posts t).
      apply read_rfid_from_stdin_posts, selecting_running.
  - rewrite (select_no_device run None _ eq_refl).
    change (posts (Log ?a ?m :: Log ?a' ?m' :: ?t)) with (posts t).
    apply read_rfid_from_stdin_posts, selecting_running.
Qed.

(** ** The device cannot be opened for reading *)

Lemma logged_at_app lvl t1 t2 :
  logged_at lvl (t1 ++ t2) = (logged_at lvl t1 || logged_at lvl t2)%bool.
Proof. apply existsb_app. Qed.

Lemma read_rfid_from_device_closed net p d l :
  (d = OpenPermissionError \/ exists e, d = OpenRaises e) ->
  exists logs,
    read_rfid_from_device net p d l =
      (None, l, Call "read_rfid_from_device" p :: logs) /\
    forallb is_log logs = true /\ logged_at ERROR logs = true.
Proof.
  intros [->|[e ->]]; eexists; (split; [reflexivity|split; reflexivity]).
Qed.

Lemma select_and_read_closed run p l :
  truthy p = true ->
  truthy_result (probe_value (probe (host run) p)) = true ->
  (device run = OpenPermissionError \/ exists e, device run = OpenRaises e) ->
  exists logs1 logs2,
    select_and_read run (Some p) l =
      (tt, l,
       (Call "test_device_input" p :: logs1
        ++ Log INFO ("Using device input method: " ++ p)
           :: Call "read_rfid_from_device" p :: logs2)%list) /\
    forallb is_log logs1 = true /\ forallb is_log logs2 = true /\
    logged_at ERROR logs2 = true.
Proof.
  intros Hp Hprobe Hd. unfold select_and_read. rewrite Hp.
  destruct (test_device_input_run (host run) p l) as (logs1 & E1 & Hl1).
  destruct (read_rfid_from_device_closed (net run) p (device run) l Hd)
    as (logs2 & E2 & Hl2 & He2).
  exists logs1, logs2. rewrite bind_run, E1.
  cbn [value_of state_of trace_of fst snd]. rewrite Hprobe.
  rewrite !bind_run. cbn [log emit value_of state_of trace_of fst snd].
  rewrite E2. cbn [ret value_of state_of trace_of fst snd app].
  rewrite app_nil_r. repeat split; assumption.
Qed.

Lemma start_listening_run run l :
  start_listening run l =
  (tt, state_of (select_and_read run (located run l) (selecting run l)),
   Log INFO "Enhanced RFID Listener starting..."
     :: (trace_of (find_rfid_device (host run) (set_running true l))
         ++ trace_of (select_and_read run (located run l) (selecting run l)))
        %list).
Proof.
  rewrite <- start_listening_trace.
  assert (Hs : state_of (start_listening run l)
               = state_of (select_and_read run (located run l)
                             (selecting run l))).
  { unfold start_listening, located, selecting.
    repeat (rewrite ?state_of_bind, ?value_of_bind;
            cbn [modify get log emit trace_of state_of value_of fst snd]).
    destruct (find_rfid_device_logs (host run) (set_running true l)) as [-> _].
    reflexivity. }
  rewrite <- Hs. rewrite <- (run_eta (start_listening run l)) at 1.
  now destruct (value_of (start_listening run l)).
Qed.

Lemma device_closed run l p :
  locate (host run) = Some p -> truthy p = true ->
  truthy_result (probe_value (probe (host run) p)) = true ->
  (device run = OpenPermissionError \/ exists e, device run = OpenRaises e) ->
  state_of (start_listening run l) = selecting run l /\
  strategy_of (trace_of (start_listening run l)) = Some (DeviceRead p) /\
  calls "read_rfid_from_stdin" (trace_of (start_listening run l)) = [] /\
  candidates (trace_of (start_listening run l)) = [] /\
  posts (trace_of (start_listening run l)) = [] /\
  logged_at ERROR (trace_of (start_listening run l)) = true.
Proof.
  intros Hloc Hp Hprobe Hd. rewrite <- (located_locate run l) in Hloc.
  rewrite start_listening_run, Hloc.
  destruct (find_rfid_device_logs (host run) (set_running true l)) as [_ Hlogs].
  destruct (select_and_read_closed run p (selecting run l) Hp Hprobe Hd)
    as (logs1 & logs2 & E & Hl1 & Hl2 & He).
  rewrite E. cbn [state_of trace_of fst snd].
  split; [reflexivity|].
  unfold candidates.
  cbn [strategy_of calls String.eqb Ascii.eqb Bool.eqb posts filter is_post].
  rewrite (strategy_of_logs _ _ Hlogs), !(calls_logs_app _ _ _ Hlogs).
  fold (posts (trace_of (find_rfid_device (host run) (set_running true l))
               ++ Call "test_device_input" p :: logs1
               ++ Log INFO ("Using device input method: " ++ p)
                  :: Call "read_rfid_from_device" p :: logs2)).
  rewrite posts_app, (posts_logs _ Hlogs).
  cbn [app strategy_of calls String.eqb Ascii.eqb Bool.eqb posts filter
       is_post].
  fold (posts (logs1 ++ Log INFO ("Using device input method: " ++ p)
                     :: Call "read_rfid_from_device" p :: logs2)).
  rewrite (strategy_of_logs _ _ Hl1), !(calls_logs_app _ _ _ Hl1).
  rewrite posts_app, (posts_logs _ Hl1).
  cbn [app strategy_of calls String.eqb Ascii.eqb Bool.eqb posts filter
       is_post].
  fold (posts logs2).
  rewrite !(calls_logs _ _ Hl2), (posts_logs _ Hl2).
  repeat (split; [reflexivity|]).
  unfold logged_at. cbn [existsb]. rewrite existsb_app. cbn [existsb].
  rewrite existsb_app. cbn [existsb]. fold (logged_at ERROR logs2).
  rewrite He. now rewrite !orb_true_r.
Qed.

End RunFacts.

(* ================================================================== *)
(** * [main]: waiting for the consumer *)
(* ================================================================== *)

Module MainFacts.
Import PyStr Obs TraceFacts MonadFacts MoreObs Main SoundFacts.

Lemma wait_for_flask_ready url retry o rest : forall failed,
  forallb (fun o => negb (check_flask_app o)) failed = true ->
  check_flask_app o = true ->
  wait_for_flask url retry (failed ++ o :: rest) =
  (true,
   (List.concat (map (fun _ => one_wait url retry) failed)
    ++ [HealthGet url 2])%list).
Proof.
  induction failed as [|f failed IH]; intros Hf Ho.
  - cbn [app wait_for_flask map List.concat]. now rewrite Ho.
  - cbn [forallb] in Hf. apply andb_true_iff in Hf as [Hf1 Hf].
    apply negb_true_iff in Hf1.
    cbn [app wait_for_flask map List.concat]. rewrite Hf1, (IH Hf Ho).
    reflexivity.
Qed.

Lemma listener_events_app t1 t2 :
  listener_events (t1 ++ t2) = (listener_events t1 ++ listener_events t2)%list.
Proof.
  induction t1 as [|e t1 IH]; [reflexivity|].
  destruct e as [u tm|[]]; cbn [app listener_events]; try exact IH.
  all: now rewrite IH.
Qed.

Lemma listener_events_sound url : forall t,
  forallb (sound_event url) t = true ->
  forallb (sound_event url) (listener_events (map Of t)) = true.
Proof.
  induction t as [|e t IH]; [reflexivity|]. cbn [forallb map].
  intros H. apply andb_true_iff in H as [He Ht].
  destruct e; cbn [listener_events forallb]; try now apply IH.
  all: rewrite He; now apply IH.
Qed.

Lemma listener_events_waiting url retry checks :
  listener_events (snd (wait_for_flask url retry checks)) = [].
Proof.
  induction checks as [|f checks IH]; [reflexivity|].
  cbn [wait_for_flask]. destruct (check_flask_app f); [reflexivity|].
  destruct (wait_for_flask url retry checks) as [ready t]. exact IH.
Qed.

Lemma wait_for_flask_value url retry checks :
  fst (wait_for_flask url retry checks) = existsb check_flask_app checks.
Proof.
  induction checks as [|f checks IH]; [reflexivity|].
  cbn [wait_for_flask existsb]. destruct (check_flask_app f); [reflexivity|].
  destruct (wait_for_flask url retry checks) as [ready t]. exact IH.
Qed.

End MainFacts.

(* ================================================================== *)
(** * Runs of [EnhancedRFIDListener]: what a run leaves of the listener *)
(* ================================================================== *)

Module FrameFacts.
Import PyStr PyStrFacts Obs TraceFacts MonadFacts EnhancedRFIDListener
  EnhancedObs MoreObs LocatorObs LocatorFacts EnhancedScanFacts LocateFacts
  RunFacts.

Lemma same_but_time_refl l : same_but_time l l.
Proof. now repeat split. Qed.

Lemma same_but_time_trans l1 l2 l3 :
  same_but_time l1 l2 -> same_but_time l2 l3 -> same_but_time l1 l3.
Proof.
  intros (H1 & H2 & H3) (H4 & H5 & H6). repeat split; congruence.
Qed.

Lemma process_scan_same env d l :
  same_but_time l (state_of (process_scan env d l)).
Proof.
  rewrite enh_process_scan_state.
  destruct (verdict_of env d l); now repeat split.
Qed.

Lemma step_same {A} env l (r : A * Listener * list Event) :
  scan_or_nothing env l r -> same_but_time l (state_of r).
Proof.
  intros [[-> _]|(d & -> & _)];
    [apply same_but_time_refl|apply process_scan_same].
Qed.

Lemma device_loop_same net : forall reads b l,
  same_but_time l (state_of (device_loop net reads b l)).
Proof.
  induction reads as [|[t r] rest IH]; intros b l;
    [apply same_but_time_refl|].
  cbn [device_loop]. rewrite state_of_bind.
  eapply same_but_time_trans; [|apply IH].
  apply (step_same (at_time net t)), device_step_scan_or_nothing.
Qed.

Lemma stdin_loop_same net : forall reads b l,
  same_but_time l (state_of (stdin_loop net reads b l)).
Proof.
  induction reads as [|[t r] rest IH]; intros b l;
    [apply same_but_time_refl|].
  cbn [stdin_loop]. rewrite state_of_bind.
  pose proof (step_same (at_time net t) l _
                (stdin_step_scan_or_nothing (at_time net t) r b l)) as Hstep.
  destruct (value_of (stdin_step (at_time net t) r b l)); [|exact Hstep].
  eapply same_but_time_trans; [exact Hstep|apply IH].
Qed.

Lemma read_rfid_from_stdin_same net reads l :
  same_but_time l (state_of (read_rfid_from_stdin net reads l)).
Proof.
  unfold read_rfid_from_stdin. rewrite !state_of_bind.
  cbn [emit log value_of state_of fst snd].
  destruct (WhileFacts.stdin_while_cases net reads "" l) as [->| ->].
  - apply stdin_loop_same.
  - apply same_but_time_refl.
Qed.

Lemma read_rfid_from_device_same net p d l :
  same_but_time l (state_of (read_rfid_from_device net p d l)).
Proof.
  unfold read_rfid_from_device. rewrite !state_of_bind.
  cbn [emit log value_of state_of fst snd].
  destruct d as [|e|reads]; try apply same_but_time_refl.
  destruct (WhileFacts.device_while_cases net reads "" l) as [[-> _]| ->].
  - apply device_loop_same.
  - apply same_but_time_refl.
Qed.

Lemma select_and_read_same run found l :
  same_but_time l (state_of (select_and_read run found l)).
Proof.
  unfold select_and_read.
  assert (Hstdin : same_but_time l
            (state_of
               (bind (log INFO "No RFID device auto-detected, using stdin method")
                  (fun _ =>
                     bind (log INFO "Make sure this terminal has focus when scanning")
                       (fun _ =>
                          bind (read_rfid_from_stdin (net run) (stdin run))
                               (fun _ => ret tt))) l))).
  { rewrite !state_of_bind. apply read_rfid_from_stdin_same. }
  destruct found as [p|]; [|exact Hstdin].
  destruct (truthy p); [|exact Hstdin].
  rewrite state_of_bind.
  destruct (test_device_input_run (host run) p l) as (logs & E & _).
  rewrite E. cbn [value_of state_of fst snd].
  destruct (truthy_result _); rewrite !state_of_bind;
    cbn [log emit value_of state_of fst snd].
  - apply read_rfid_from_device_same.
  - apply read_rfid_from_stdin_same.
Qed.

Lemma start_listening_same run l :
  same_but_time (selecting run l) (state_of (start_listening run l)).
Proof.
  rewrite start_listening_run. cbn [state_of fst snd].
  apply select_and_read_same.
Qed.

End FrameFacts.

(* ================================================================== *)
(** * The consumer: scans, assignments, the table *)
(* ================================================================== *)

Module AppFacts.
Import PyStr PyStrFacts MoreObs DatabaseManager App AppObs.

Lemma valid_truthy r : RFIDListener.is_valid_rfid r = true -> truthy r = true.
Proof.
  unfold RFIDListener.is_valid_rfid.
  destruct (truthy r); [reflexivity|discriminate].
Qed.

Lemma sound_event_body url u body timeout headers :
  sound_event url (HttpPost u body timeout headers) = true ->
  exists r,
    body = [("rfid", r)] /\ RFIDListener.is_valid_rfid r = true /\ strip r = r.
Proof.
  cbn [sound_event]. destruct body as [|[key r] [|q rest]]; try discriminate.
  intros H.
  apply andb_true_iff in H as [H Hs]. apply andb_true_iff in H as [H Hv].
  apply andb_true_iff in H as [H Ht]. apply andb_true_iff in H as [Hu Hk].
  apply String.eqb_eq in Hk, Hs. subst key. now exists r.
Qed.

(** ** [handle_scan] *)

Lemma handle_scan_cases cfg world data st :
  (exists e, handle_scan cfg world data st = (BadRequest e, st, [])) \/
  (exists d value,
     data = Some d /\ item "rfid" d = Some value /\
     truthy (strip value) = true /\
     handle_scan cfg world data st = scan_of_key cfg world (strip value) st).
Proof.
  unfold handle_scan. destruct data as [d|]; [|left; now eexists].
  destruct (truthy_dict d); [|left; destruct (item "rfid" d); now eexists].
  destruct (item "rfid" d) as [value|] eqn:Hi; [|left; now eexists].
  destruct (truthy (strip value)) eqn:Ht; cbn [negb]; [|left; now eexists].
  right. exists d, value. repeat split; try assumption.
  unfold scan_of_key. destruct (get_mapping (strip value) (db st)); [|reflexivity].
  now destruct (trigger_playback cfg world (strip value)).
Qed.

Lemma handle_scan_single cfg world value st :
  truthy (strip value) = true ->
  handle_scan cfg world (Some [("rfid", value)]) st
  = scan_of_key cfg world (strip value) st.
Proof.
  intros Ht. unfold handle_scan. cbn [truthy_dict item String.eqb Ascii.eqb
                                       Bool.eqb].
  rewrite Ht. cbn [negb]. unfold scan_of_key.
  destruct (get_mapping (strip value) (db st)); [|reflexivity].
  now destruct (trigger_playback cfg world (strip value)).
Qed.

Lemma trigger_playback_posts cfg world key :
  play_posts (snd (trigger_playback cfg world key))
  = [Post (play_url cfg) [("rfid", key)] 5].
Proof.
  unfold trigger_playback, play_url.
  now destruct (macos world _ _).
Qed.

Lemma keys_update_last_played now key t :
  map rfid (update_last_played now key t) = map rfid t.
Proof.
  unfold update_last_played. rewrite map_map. apply map_ext.
  intros r. now destruct (has_rfid key r).
Qed.

Lemma rest_update_last_played now key t :
  map but_last_played (update_last_played now key t) = map but_last_played t.
Proof.
  unfold update_last_played. rewrite map_map. apply map_ext.
  intros r. now destruct (has_rfid key r).
Qed.

Lemma scan_of_key_frame cfg world key st :
  let r := scan_of_key cfg world key st in
  reply_key (fst (fst r)) = Some key /\
  map but_last_played (db (snd (fst r))) = map but_last_played (db st) /\
  rfid_queue (snd (fst r)) = (rfid_queue st ++ queued (fst (fst r)))%list /\
  play_posts (snd r) = expected_posts cfg (fst (fst r)) /\
  match fst (fst r) with
  | Mapped k dir title who _ =>
      exists mapping,
        get_mapping k (db st) = Some mapping /\ dir = music_dir mapping /\
        title = album_title mapping /\ who = artist mapping
  | Unmapped k _ => get_mapping k (db st) = None
  | BadRequest _ => False
  end.
Proof.
  unfold scan_of_key. destruct (get_mapping key (db st)) as [mapping|] eqn:Hg;
    cbn [fst snd reply_key queued expected_posts db rfid_queue].
  - rewrite rest_update_last_played, app_nil_r, trigger_playback_posts.
    repeat split. now exists mapping.
  - repeat split. exact Hg.
Qed.

(** ** The table *)

Lemma get_mapping_none key t :
  get_mapping key t = None <-> existsb (has_rfid key) t = false.
Proof.
  unfold get_mapping. induction t as [|r t IH]; [split; reflexivity|].
  cbn [find existsb]. destruct (has_rfid key r); cbn [orb].
  - split; discriminate.
  - exact IH.
Qed.

Lemma get_mapping_not_in key t :
  get_mapping key t = None -> ~ In key (map rfid t).
Proof.
  unfold get_mapping. intros H Hin. apply in_map_iff in Hin as (r & Hr & Hin).
  pose proof (find_none _ _ H r Hin) as Hf. unfold has_rfid in Hf.
  rewrite Hr, String.eqb_refl in Hf. discriminate.
Qed.

Lemma get_mapping_new key t row :
  get_mapping key t = None -> rfid row = key ->
  get_mapping key (t ++ [row])%list = Some row.
Proof.
  unfold get_mapping. intros Hn Hk. induction t as [|r t IH].
  - cbn [app find]. unfold has_rfid. now rewrite Hk, String.eqb_refl.
  - cbn [app find] in *. destruct (has_rfid key r); [discriminate|].
    now apply IH.
Qed.

Lemma get_mapping_deleted key t : get_mapping key (delete_mapping key t) = None.
Proof.
  unfold get_mapping, delete_mapping. induction t as [|r t IH]; [reflexivity|].
  cbn [filter]. destruct (has_rfid key r) eqn:Hr; cbn [negb]; [exact IH|].
  cbn [find]. now rewrite Hr.
Qed.

Lemma create_mapping_new now key dir title who cover t :
  get_mapping key t = None ->
  create_mapping now key dir title who cover t =
  inr (t ++ [{| rfid := key; music_dir := dir; album_title := title;
                artist := who; cover_path := cover; created_at := now;
                last_played := None |}])%list.
Proof.
  intros H. unfold create_mapping.
  now rewrite (proj1 (get_mapping_none key t) H).
Qed.

Lemma NoDup_map_filter {A B} (f : A -> B) (p : A -> bool) l :
  NoDup (map f l) -> NoDup (map f (filter p l)).
Proof.
  induction l as [|x l IH]; [trivial|]. cbn [map filter]. intros H.
  inversion H as [|? ? Hx Hl]; subst.
  destruct (p x); [|now apply IH]. cbn [map]. constructor; [|now apply IH].
  intros Hin. apply Hx. apply in_map_iff in Hin as (y & Hy & Hin).
  apply filter_In in Hin as [Hin _]. apply in_map_iff. now exists y.
Qed.

Lemma keys_update_mapping key dir title who cover t :
  map rfid (update_mapping key dir title who cover t) = map rfid t.
Proof.
  unfold update_mapping. destruct (any_update dir title who cover); [|reflexivity].
  rewrite map_map. apply map_ext. intros r. now destruct (has_rfid key r).
Qed.

Lemma get_mapping_update_last_played now key key' t :
  get_mapping key' (update_last_played now key t)
  = if String.eqb key' key
    then option_map (played now) (get_mapping key' t)
    else get_mapping key' t.
Proof.
  unfold get_mapping, update_last_played.
  induction t as [|r t IH]; [now destruct (String.eqb key' key)|].
  cbn [map find].
  assert (Hr : has_rfid key' (if has_rfid key r then played now r else r)
               = has_rfid key' r).
  { now destruct (has_rfid key r). }
  rewrite Hr. destruct (has_rfid key' r) eqn:Hk'; [|exact IH].
  unfold has_rfid in *. apply String.eqb_eq in Hk'. subst key'.
  now destruct (String.eqb (rfid r) key).
Qed.

Lemma answered_sound cfg world st url e :
  sound_event url e = true -> answered cfg world st e = true.
Proof.
  destruct e as [lv m|u body tm hd|us|id d|id|m a]; try reflexivity.
  intros H. destruct (sound_event_body url u body tm hd H) as (r & -> & Hv & Hs).
  unfold answered. cbn [body_of item String.eqb Ascii.eqb Bool.eqb].
  pose proof (valid_truthy r Hv) as Ht.
  rewrite handle_scan_single by now rewrite Hs.
  rewrite Hs.
  destruct (scan_of_key_frame cfg world r st) as (Hk & _).
  rewrite Hk, String.eqb_refl. cbn [andb].
  unfold scan_of_key. now destruct (get_mapping r (db st)).
Qed.

Lemma answered_all cfg world st url t :
  forallb (sound_event url) t = true ->
  forallb (answered cfg world st) t = true.
Proof.
  induction t as [|e t IH]; [reflexivity|]. cbn [forallb].
  intros H. apply andb_true_iff in H as [He Ht].
  now rewrite (answered_sound cfg world st url e He), IH.
Qed.

(** ** The state that the views keep *)

Lemma well_formed_fresh : well_formed fresh.
Proof. repeat split; constructor. Qed.

Lemma well_formed_scan_of_key cfg world key st :
  truthy key = true -> strip key = key ->
  well_formed st -> well_formed (snd (fst (scan_of_key cfg world key st))).
Proof.
  intros Ht Hs (Hk & Hr & Hq). unfold scan_of_key.
  destruct (get_mapping key (db st)) as [mapping|]; cbn [fst snd];
    unfold well_formed, keys; cbn [db rfid_queue].
  - rewrite keys_update_last_played. split; [exact Hk|]. split; [|exact Hq].
    unfold update_last_played. apply Forall_map.
    apply (Forall_impl _ (P := fun r => truthy (rfid r) = true
                                        /\ truthy (music_dir r) = true));
      [|exact Hr].
    intros r H. now destruct (has_rfid key r).
  - split; [exact Hk|]. split; [exact Hr|].
    apply Forall_app. split; [exact Hq|]. now repeat constructor.
Qed.

Lemma well_formed_handle_scan cfg world data st :
  well_formed st -> well_formed (snd (fst (handle_scan cfg world data st))).
Proof.
  intros H.
  destruct (handle_scan_cases cfg world data st)
    as [[e ->]|(d & value & _ & _ & Ht & ->)]; [exact H|].
  apply well_formed_scan_of_key; [exact Ht|apply strip_idempotent|exact H].
Qed.

Lemma well_formed_assign_get arg st :
  well_formed st -> well_formed (snd (assign_get arg st)).
Proof.
  intros (Hk & Hr & Hq). unfold assign_get.
  destruct (truthy_opt arg); cbn [negb]; [now repeat split|].
  destruct (rfid_queue st) as [|oldest later] eqn:E; cbn [snd].
  - unfold well_formed. rewrite E. repeat split; trivial.
  - unfold well_formed, keys. cbn [db rfid_queue]. repeat split; trivial.
    now inversion Hq.
Qed.

Lemma assign_post_cases world key dir title who st :
  (assign_post world key dir title who st
   = (ToAssign, st, [Flash "RFID and music directory are required" "error"])
   /\ (truthy_opt key = false \/ truthy_opt dir = false)) \/
  (exists k existing,
     key = Some k /\ get_mapping k (db st) = Some existing /\
     assign_post world key dir title who st
     = (ToAssign, st,
        [Flash ("RFID " ++ k ++ " is already assigned to "
                ++ music_dir existing) "error"])) \/
  (exists k d,
     key = Some k /\ dir = Some d /\ truthy k = true /\ truthy d = true /\
     get_mapping k (db st) = None /\
     assign_post world key dir title who st =
     (ToIndex,
      {| db := (db st ++ [{| rfid := k; music_dir := d;
                             album_title := Some title; artist := Some who;
                             cover_path := None; created_at := clock world;
                             last_played := None |}])%list;
         rfid_queue := rfid_queue st |},
      [Flash ("Successfully assigned RFID " ++ k ++ " to " ++ d) "success"])).
Proof.
  unfold assign_post.
  destruct key as [k|]; [|left; split; [reflexivity|now left]].
  destruct dir as [d|]; [|left; split; [reflexivity|now right]].
  destruct (truthy k) eqn:Hk; cbn [negb orb];
    [|left; split; [reflexivity|now left]].
  destruct (truthy d) eqn:Hd; cbn [negb];
    [|left; split; [reflexivity|now right]].
  destruct (get_mapping k (db st)) as [existing|] eqn:Hg.
  - right. left. now exists k, existing.
  - right. right. exists k, d. rewrite (create_mapping_new _ _ _ _ _ _ _ Hg).
    repeat split; assumption.
Qed.

Lemma well_formed_assign_post world key dir title who st :
  well_formed st ->
  well_formed (snd (fst (assign_post world key dir title who st))).
Proof.
  intros H.
  destruct (assign_post_cases world key dir title who st)
    as [[-> _]|[(k & existing & _ & _ & ->)
               |(k & d & _ & _ & Hk & Hd & Hg & ->)]]; [exact H|exact H|].
  destruct H as (Hn & Hr & Hq). cbn [fst snd].
  unfold well_formed, keys. cbn [db rfid_queue]. split; [|split; [|exact Hq]].
  - rewrite map_app. cbn [map rfid].
    apply NoDup_app; [exact Hn|repeat constructor; intros []|].
    intros x Hx [<-|[]]. now apply (get_mapping_not_in k (db st) Hg).
  - apply Forall_app. split; [exact Hr|]. now repeat constructor.
Qed.

Lemma well_formed_edit_post key title who st :
  well_formed st -> well_formed (snd (fst (edit_post key title who st))).
Proof.
  intros H. unfold edit_post.
  destruct (get_mapping key (db st)) as [mapping|]; [|exact H].
  destruct H as (Hn & Hr & Hq). cbn [fst snd].
  unfold well_formed, keys. cbn [db rfid_queue].
  rewrite keys_update_mapping. split; [exact Hn|]. split; [|exact Hq].
  unfold update_mapping. cbn [any_update]. apply Forall_map.
  apply (Forall_impl _ (P := fun r => truthy (rfid r) = true
                                      /\ truthy (music_dir r) = true));
    [|exact Hr].
  intros r Hrow. now destruct (has_rfid key r).
Qed.

Lemma well_formed_unassign key st :
  well_formed st -> well_formed (snd (fst (unassign key st))).
Proof.
  intros H. unfold unassign.
  destruct (get_mapping key (db st)) as [mapping|]; [|exact H].
  destruct H as (Hn & Hr & Hq). cbn [fst snd].
  unfold well_formed, keys. cbn [db rfid_queue].
  split; [|split; [|exact Hq]].
  - unfold delete_mapping. now apply NoDup_map_filter.
  - unfold delete_mapping. apply Forall_forall. intros r Hin.
    apply filter_In in Hin as [Hin _].
    exact (proj1 (Forall_forall _ _) Hr r Hin).
Qed.

Lemma well_formed_serve cfg q st :
  well_formed st -> well_formed (serve cfg q st).
Proof.
  destruct q; cbn [serve].
  - apply well_formed_handle_scan.
  - apply well_formed_assign_get.
  - apply well_formed_assign_post.
  - apply well_formed_edit_post.
  - apply well_formed_unassign.
Qed.

Lemma well_formed_serve_all cfg : forall qs st,
  well_formed st -> well_formed (serve_all cfg qs st).
Proof.
  induction qs as [|q qs IH]; intros st H; [exact H|].
  cbn [serve_all fold_left]. apply IH. now apply well_formed_serve.
Qed.

End AppFacts.

(* ================================================================== *)
(** * The playback host *)
(* ================================================================== *)

Module PlaybackFacts.
Import PyStr PyStrFacts App AppObs PlaybackHost.

Lemma play_directory_run host dir self :
  play_directory host dir self =
  (has_mp3 host dir,
   {| current_process := current_process self; is_playing := false |},
   (snd (stop_current_playback host self)
    ++ if has_mp3 host dir
       then [PrintLine ("Playing "
                        ++ str_of_Z (Z.of_nat
                             (List.length (glob host (path_join dir "*.mp3"))))
                        ++ " MP3 files from " ++ dir);
             ThreadStart (mpv_args host dir)]
       else [PrintLine ("No MP3 files found in " ++ dir)])%list).
Proof.
  unfold play_directory, has_mp3, mpv_args, stop_current_playback.
  now destruct (glob host (path_join dir "*.mp3")).
Qed.

Lemma thread_starts_app t1 t2 :
  thread_starts (t1 ++ t2) = (thread_starts t1 ++ thread_starts t2)%list.
Proof. apply flat_map_app. Qed.

Lemma thread_starts_stop host self :
  thread_starts (snd (stop_current_playback host self)) = [].
Proof.
  unfold stop_current_playback. cbn [snd].
  destruct (current_process self) as [p|]; [|reflexivity].
  destruct (alive host p); [|reflexivity].
  now destruct (ends_in_time host p).
Qed.

(** [play_music] on a body that holds a key. *)
Lemma play_music_key mount host d key player :
  item "rfid" d = Some key -> truthy key = true ->
  let full_path := chosen_path mount d key in
  play_music mount host (Some d) player =
  if negb (path_exists host full_path) then
    (NotFound full_path key, player, [])
  else if negb (isdir host full_path) then
    (NotADirectory full_path key, player, [])
  else
    ((if has_mp3 host full_path then Started key full_path
      else Failed key full_path),
     {| current_process := current_process player; is_playing := false |},
     snd (play_directory host full_path player)).
Proof.
  intros Hi Ht full_path. subst full_path. unfold play_music.
  destruct d as [|kv d']; [discriminate|].
  rewrite Hi, Ht. cbn [negb]. fold (chosen_path mount (kv :: d') key).
  destruct (path_exists host _); cbn [negb]; [|reflexivity].
  destruct (isdir host _); cbn [negb]; [|reflexivity].
  rewrite play_directory_run. cbn [snd].
  now destruct (has_mp3 host _).
Qed.

Lemma play_music_status mount host d key player :
  item "rfid" d = Some key -> truthy key = true ->
  (status_of (fst (fst (play_music mount host (Some d) player))) =? 200)
  = playable host (chosen_path mount d key).
Proof.
  intros Hi Ht. rewrite (play_music_key mount host d key player Hi Ht).
  cbv zeta. unfold playable.
  destruct (path_exists host _); cbn [negb andb]; [|reflexivity].
  destruct (isdir host _); cbn [negb andb]; [|reflexivity].
  now destruct (has_mp3 host _).
Qed.

End PlaybackFacts.

(* ================================================================== *)
(** * Further properties of the listeners *)
(* ================================================================== *)

(** ** The keys of the reader *)

(** X1.  [keycode_to_char] is the table of the source: the codes 2 to
    11 yield the digits [1] to [9] and [0], the codes 16 to 25 the
    letters [qwertyuiop], the codes 30 to 38 the letters [asdfghjkl],
    the codes 44 to 50 the letters [zxcvbnm] and the code 28 the
    newline; every other code yields the empty string.  So a code
    yields the empty string, the newline (the code 28 alone) or one
    digit or lower-case letter, and no two codes of the table yield the
    same character. *)
Theorem X1_keycode_table :
  map EnhancedRFIDListener.keycode_to_char [2; 3; 4; 5; 6; 7; 8; 9; 10; 11]
    = ["1"; "2"; "3"; "4"; "5"; "6"; "7"; "8"; "9"; "0"] /\
  map EnhancedRFIDListener.keycode_to_char
      [16; 17; 18; 19; 20; 21; 22; 23; 24; 25]
    = ["q"; "w"; "e"; "r"; "t"; "y"; "u"; "i"; "o"; "p"] /\
  map EnhancedRFIDListener.keycode_to_char [30; 31; 32; 33; 34; 35; 36; 37; 38]
    = ["a"; "s"; "d"; "f"; "g"; "h"; "j"; "k"; "l"] /\
  map EnhancedRFIDListener.keycode_to_char [44; 45; 46; 47; 48; 49; 50]
    = ["z"; "x"; "c"; "v"; "b"; "n"; "m"] /\
  EnhancedRFIDListener.keycode_to_char 28 = String "010" "" /\
  (forall code,
     ~ (2 <= code <= 11 \/ 16 <= code <= 25 \/ 30 <= code <= 38 \/
        44 <= code <= 50 \/ code = 28) ->
     EnhancedRFIDListener.keycode_to_char code = "") /\
  (forall code,
     EnhancedRFIDListener.keycode_to_char code = "" \/
     exists c,
       EnhancedRFIDListener.keycode_to_char code = String c "" /\
       ((MoreObs.is_key_char c = true /\ code <> 28) \/
        (c = "010"%char /\ code = 28))) /\
  (forall a b,
     EnhancedRFIDListener.keycode_to_char a <> "" ->
     EnhancedRFIDListener.keycode_to_char a
       = EnhancedRFIDListener.keycode_to_char b ->
     a = b).
Proof.
  repeat (split; [reflexivity|]). split; [|split].
  - intros code Hout.
    destruct (string_dec (EnhancedRFIDListener.keycode_to_char code) "")
      as [E|E]; [exact E|].
    destruct (Hout (KeymapFacts.keycode_to_char_outside code E)).
  - exact KeymapFacts.keycode_to_char_range.
  - exact KeymapFacts.keycode_to_char_injective.
Qed.

(** The code 1 (the escape key) and the code 57 (the space bar) are
    outside the table; the code 2 is the only one with the
    character [1]. *)
Lemma X1_keycode_table_witness :
  EnhancedRFIDListener.keycode_to_char 1 = "" /\
  EnhancedRFIDListener.keycode_to_char 57 = "" /\
  EnhancedRFIDListener.keycode_to_char 2 = "1" /\ 2 = 2.
Proof.
  split; [|split; [|split; [reflexivity|]]].
  - apply (proj1 (proj2 (proj2 (proj2 (proj2 (proj2 X1_keycode_table))))) 1).
    lia.
  - apply (proj1 (proj2 (proj2 (proj2 (proj2 (proj2 X1_keycode_table))))) 57).
    lia.
  - apply (proj2 (proj2 (proj2 (proj2 (proj2 (proj2 (proj2
             X1_keycode_table)))))) 2 2); [discriminate|reflexivity].
Defined.

(** X2.  Whatever the device yields, every candidate that the device
    loop hands to [process_scan] is a non-empty string of digits and
    lower-case letters: stripping leaves it as it is, and
    [is_valid_rfid] accepts it exactly when its length is in
    [6, 20]. *)
Theorem X2_device_candidates :
  forall net reads l,
    Forall (fun c =>
              c <> "" /\ all_chars MoreObs.is_key_char c = true /\
              strip c = c /\
              EnhancedRFIDListener.is_valid_rfid c = MoreObs.length_ok c)
           (candidates
              (trace_of (EnhancedRFIDListener.device_loop net reads "" l))).
Proof.
  intros net reads l.
  destruct (DeviceFacts.device_loop_key_chars net reads "" l eq_refl)
    as [_ H].
  apply (Forall_impl _ (P := fun c => all_chars MoreObs.is_key_char c = true
                                      /\ c <> "")); [|exact H].
  intros c [Hc Hne]. split; [exact Hne|]. split; [exact Hc|]. split.
  - now apply DeviceFacts.key_chars_strip.
  - rewrite ValidatorFacts.is_valid_rfid_same.
    now apply DeviceFacts.key_chars_valid.
Qed.

(** ** The locator and the strategy *)

(** X3.  [find_rfid_device] is a layered first-match search: it
    returns what the first block of the registry yields that holds a
    signature, has a handler and whose device exists, and otherwise,
    when the directory of stable names exists, the real path of the
    first name that holds a signature and exists; which of the
    patterns matched makes no difference.  It changes nothing of the
    listener and does nothing but log. *)
Theorem X3_locator_layers :
  forall host l,
    let r := EnhancedRFIDListener.find_rfid_device host l in
    value_of r = LocatorObs.locate host /\
    state_of r = l /\
    forallb is_log (trace_of r) = true.
Proof.
  intros host l r. subst r. split.
  - apply LocateFacts.find_rfid_device_value.
  - apply LocatorFacts.find_rfid_device_logs.
Qed.

(** X4.  A path that [find_rfid_device] returns is either
    [/dev/input/event<n>], [n] a non-empty string of decimal digits,
    taken from the first handler of a block of the registry that holds
    a signature, the path being one that exists; or the real path of
    a name of the directory of stable names that holds a signature
    and exists. *)
Theorem X4_located_path :
  forall host l p,
    value_of (EnhancedRFIDListener.find_rfid_device host l) = Some p ->
    (exists content block digits,
       EnhancedRFIDListener.proc_bus_input_devices host = inr content /\
       In block (Re.split_blank content) /\
       EnhancedObs.matches_signature block = true /\
       Re.first_handler block = Some ("event" ++ digits) /\
       truthy digits = true /\ all_chars isdecimal digits = true /\
       p = "/dev/input/event" ++ digits /\
       EnhancedRFIDListener.path_exists host p = true) \/
    (exists link,
       EnhancedRFIDListener.path_exists host EnhancedRFIDListener.by_id_path
         = true /\
       In link (EnhancedRFIDListener.listdir_by_id host) /\
       EnhancedObs.matches_signature link = true /\
       EnhancedRFIDListener.path_exists host
         (EnhancedRFIDListener.by_id_path ++ "/" ++ link) = true /\
       p = EnhancedRFIDListener.realpath host
             (EnhancedRFIDListener.by_id_path ++ "/" ++ link)).
Proof.
  intros host l p. rewrite LocateFacts.find_rfid_device_value.
  assert (Hid : MoreObs.first_hit (LocatorObs.by_id_hit host)
                  (EnhancedRFIDListener.listdir_by_id host) = Some p ->
                exists link,
                  In link (EnhancedRFIDListener.listdir_by_id host) /\
                  EnhancedObs.matches_signature link = true /\
                  EnhancedRFIDListener.path_exists host
                    (EnhancedRFIDListener.by_id_path ++ "/" ++ link) = true /\
                  p = EnhancedRFIDListener.realpath host
                        (EnhancedRFIDListener.by_id_path ++ "/" ++ link)).
  { intros H.
    destruct (LocateFacts.first_hit_some _ _ _ H) as (link & Hin & Hhit).
    unfold LocatorObs.by_id_hit in Hhit.
    destruct (EnhancedObs.matches_signature link) eqn:Hm; [|discriminate].
    destruct (EnhancedRFIDListener.path_exists host _) eqn:He;
      [|discriminate].
    cbn [andb] in Hhit. exists link. injection Hhit as <-.
    repeat split; assumption. }
  unfold LocatorObs.locate.
  destruct (EnhancedRFIDListener.proc_bus_input_devices host)
    as [e|content] eqn:Hreg.
  - destruct (EnhancedRFIDListener.path_exists host
                EnhancedRFIDListener.by_id_path) eqn:Hdir; [|discriminate].
    intros H. right. destruct (Hid H) as (link & H1 & H2 & H3 & H4).
    exists link. repeat split; assumption.
  - destruct (MoreObs.first_hit (LocatorObs.registry_hit host)
                (Re.split_blank content)) as [q|] eqn:Hfirst.
    + intros H. injection H as <-. left.
      destruct (LocateFacts.first_hit_some _ _ _ Hfirst)
        as (block & Hin & Hhit).
      unfold LocatorObs.registry_hit in Hhit.
      destruct (EnhancedObs.matches_signature block) eqn:Hm; [|discriminate].
      destruct (Re.first_handler block) as [h|] eqn:Hh; [|discriminate].
      destruct (EnhancedRFIDListener.path_exists host _) eqn:He;
        [|discriminate].
      destruct (LocateFacts.first_handler_form _ _ Hh)
        as (digits & -> & Hd1 & Hd2).
      exists content, block, digits. injection Hhit as <-.
      repeat split; assumption.
    + destruct (EnhancedRFIDListener.path_exists host
                  EnhancedRFIDListener.by_id_path) eqn:Hdir; [|discriminate].
      intros H. right. destruct (Hid H) as (link & H1 & H2 & H3 & H4).
      exists link. repeat split; assumption.
Qed.

(** On the host with a reader on [event7] the locator returns
    [/dev/input/event7], and that path has one of the two forms. *)
Lemma X4_located_path_witness :
  let host := Examples.host_with_reader EnhancedRFIDListener.ProbeTimeout in
  value_of (EnhancedRFIDListener.find_rfid_device host Examples.enhanced0)
    = Some "/dev/input/event7" /\
  ((exists content block digits,
      EnhancedRFIDListener.proc_bus_input_devices host = inr content /\
      In block (Re.split_blank content) /\
      EnhancedObs.matches_signature block = true /\
      Re.first_handler block = Some ("event" ++ digits) /\
      truthy digits = true /\ all_chars isdecimal digits = true /\
      "/dev/input/event7" = "/dev/input/event" ++ digits /\
      EnhancedRFIDListener.path_exists host "/dev/input/event7" = true) \/
   (exists link,
      EnhancedRFIDListener.path_exists host EnhancedRFIDListener.by_id_path
        = true /\
      In link (EnhancedRFIDListener.listdir_by_id host) /\
      EnhancedObs.matches_signature link = true /\
      EnhancedRFIDListener.path_exists host
        (EnhancedRFIDListener.by_id_path ++ "/" ++ link) = true /\
      "/dev/input/event7" = EnhancedRFIDListener.realpath host
            (EnhancedRFIDListener.by_id_path ++ "/" ++ link))).
Proof.
  intros host.
  assert (H : value_of (EnhancedRFIDListener.find_rfid_device host
                          Examples.enhanced0) = Some "/dev/input/event7").
  { vm_compute. reflexivity. }
  split; [exact H|].
  exact (X4_located_path host Examples.enhanced0 "/dev/input/event7" H).
Defined.

(** X6.  The strategy of a run of [start_listening] is decided by the
    locator and the probe alone: the run reads from the device at the
    located path exactly when the locator yields a non-empty path and
    the probe of that path returns [True], and from stdin in every
    other case; the probe is called once, on the located path, when a
    non-empty path is located, and not at all otherwise. *)
Theorem X6_strategy_decided :
  forall run l,
    let t := trace_of (EnhancedRFIDListener.start_listening run l) in
    EnhancedRFIDListener.strategy_of t
      = Some (LocatorObs.expected_strategy (EnhancedRFIDListener.host run)) /\
    calls "test_device_input" t
      = match LocatorObs.locate (EnhancedRFIDListener.host run) with
        | Some p => if truthy p then [p] else []
        | None => []
        end.
Proof.
  intros run l t. subst t. apply LocateFacts.start_listening_strategy.
Qed.

(** X7.  When the device has answered the probe and cannot be opened
    for the read loop, [start_listening] does not fall back to stdin:
    the failure is logged at error level and the run ends there, with
    no candidate, no request, the listener still marked as running. *)
Theorem X7_no_fallback_after_probe :
  forall run l p,
    LocatorObs.locate (EnhancedRFIDListener.host run) = Some p ->
    truthy p = true ->
    EnhancedRFIDListener.truthy_result
      (EnhancedObs.probe_value
         (EnhancedRFIDListener.probe (EnhancedRFIDListener.host run) p))
      = true ->
    (EnhancedRFIDListener.device run
       = EnhancedRFIDListener.OpenPermissionError \/
     exists e,
       EnhancedRFIDListener.device run = EnhancedRFIDListener.OpenRaises e) ->
    let r := EnhancedRFIDListener.start_listening run l in
    state_of r = EnhancedObs.selecting run l /\
    EnhancedRFIDListener.running (state_of r) = true /\
    EnhancedRFIDListener.strategy_of (trace_of r)
      = Some (EnhancedRFIDListener.DeviceRead p) /\
    calls "read_rfid_from_stdin" (trace_of r) = [] /\
    candidates (trace_of r) = [] /\
    posts (trace_of r) = [] /\
    logged_at ERROR (trace_of r) = true.
Proof.
  intros run l p Hloc Hp Hprobe Hd r. subst r.
  destruct (RunFacts.device_closed run l p Hloc Hp Hprobe Hd)
    as (Hs & Hrest).
  split; [exact Hs|]. split; [|exact Hrest].
  rewrite Hs. reflexivity.
Qed.

(** The reader of [event7] answers the probe but may not be opened:
    the card typed on stdin is never read. *)
Lemma X7_no_fallback_after_probe_witness :
  let r := EnhancedRFIDListener.start_listening MoreExamples.run_closed
             Examples.enhanced0 in
  calls "read_rfid_from_stdin" (trace_of r) = [] /\
  candidates (trace_of r) = [] /\
  posts (trace_of r) = [] /\
  logged_at ERROR (trace_of r) = true.
Proof.
  intros r.
  refine (proj2 (proj2 (proj2
            (X7_no_fallback_after_probe MoreExamples.run_closed
               Examples.enhanced0 "/dev/input/event7" _ _ _ _)))).
  - vm_compute. reflexivity.
  - reflexivity.
  - reflexivity.
  - left. reflexivity.
Defined.

(** ** Leaving the read loops *)

(** X8.  An exception of a read of stdin ends [read_rfid_from_stdin]:
    the reads that follow are not made and the method returns.  Its
    trace is that of the reads before the exception, followed by the
    one error line of the exception when those reads were all made;
    what was buffered is dropped, and the candidates and the requests
    are those of the reads before the exception.  On a running
    listener whose earlier reads do not raise, those reads are all
    made, so the error line is logged, once and last. *)
Theorem X8_stdin_error_ends_loop :
  forall net reads1 t e reads2 l,
    let r := EnhancedRFIDListener.read_rfid_from_stdin net
               (reads1 ++ (t, EnhancedRFIDListener.ReadRaises e) :: reads2) l in
    let before := EnhancedRFIDListener.read_rfid_from_stdin net reads1 l in
    r = EnhancedRFIDListener.read_rfid_from_stdin net
          (reads1 ++ [(t, EnhancedRFIDListener.ReadRaises e)]) l /\
    value_of r = None /\
    state_of r = state_of before /\
    trace_of r =
      (trace_of before ++
       match value_of before with
       | Some _ => [Log ERROR ("Error reading from stdin: " ++ e)]
       | None => []
       end)%list /\
    candidates (trace_of r) = candidates (trace_of before) /\
    posts (trace_of r) = posts (trace_of before) /\
    (EnhancedRFIDListener.running l = true ->
     forallb (fun r => negb (MoreObs.read_raises (snd r))) reads1 = true ->
     trace_of r =
       (trace_of before
        ++ [Log ERROR ("Error reading from stdin: " ++ e)])%list).
Proof.
  intros net reads1 t e reads2 l r before.
  assert (Hmade : EnhancedRFIDListener.running l = true ->
            forallb (fun r => negb (MoreObs.read_raises (snd r))) reads1 = true ->
            exists b, value_of before = Some b).
  { intros Hr Hn. subst before.
    unfold EnhancedRFIDListener.read_rfid_from_stdin.
    rewrite !MonadFacts.value_of_bind.
    cbn [emit log value_of state_of trace_of fst snd].
    rewrite (WhileFacts.stdin_while_running net reads1 "" l Hr).
    now apply ExitFacts.stdin_loop_value. }
  assert (Ht : trace_of r =
      (trace_of before ++
       match value_of before with
       | Some _ => [Log ERROR ("Error reading from stdin: " ++ e)]
       | None => []
       end)%list).
  { subst r before. unfold EnhancedRFIDListener.read_rfid_from_stdin.
    rewrite !MonadFacts.bind_run.
    cbn [emit log value_of state_of trace_of fst snd app].
    rewrite (ExitFacts.stdin_while_raise net t e). cbv zeta.
    destruct (value_of (EnhancedRFIDListener.stdin_while net reads1 "" l));
      cbn [value_of state_of trace_of fst snd]; [reflexivity|].
    now rewrite app_nil_r. }
  split; [|split; [|split; [|split; [exact Ht|split; [|split]]]]].
  - subst r. unfold EnhancedRFIDListener.read_rfid_from_stdin.
    rewrite !MonadFacts.bind_run.
    cbn [emit log value_of state_of trace_of fst snd app].
    now rewrite !(ExitFacts.stdin_while_raise net t e).
  - subst r. unfold EnhancedRFIDListener.read_rfid_from_stdin.
    rewrite !MonadFacts.value_of_bind.
    cbn [emit log value_of state_of trace_of fst snd].
    rewrite (ExitFacts.stdin_while_raise net t e). cbv zeta.
    destruct (value_of (EnhancedRFIDListener.stdin_while net reads1 "" l))
      eqn:Hv; [reflexivity|exact Hv].
  - subst r before. unfold EnhancedRFIDListener.read_rfid_from_stdin.
    rewrite !MonadFacts.state_of_bind.
    cbn [emit log value_of state_of trace_of fst snd].
    rewrite (ExitFacts.stdin_while_raise net t e). cbv zeta.
    now destruct (value_of (EnhancedRFIDListener.stdin_while net reads1 "" l)).
  - rewrite Ht. unfold candidates. rewrite TraceFacts.calls_app.
    destruct (value_of before); cbn [calls]; now rewrite app_nil_r.
  - rewrite Ht. unfold posts. rewrite filter_app.
    destruct (value_of before); cbn [filter is_post]; now rewrite app_nil_r.
  - intros Hr Hn. rewrite Ht. now destruct (Hmade Hr Hn) as [b ->].
Qed.

(** Six digits are typed on a running listener, then the read raises:
    the error line is the last of the trace. *)
Lemma X8_stdin_error_ends_loop_witness :
  EnhancedRFIDListener.running
    (EnhancedRFIDListener.set_running true Examples.enhanced0) = true /\
  trace_of (EnhancedRFIDListener.read_rfid_from_stdin Examples.net_ok
              (Examples.typed' Examples.T0 "123456"
               ++ (Examples.T0, EnhancedRFIDListener.ReadRaises "closed")
                  :: Examples.typed' Examples.T0 "7")
              (EnhancedRFIDListener.set_running true Examples.enhanced0)) =
  (trace_of (EnhancedRFIDListener.read_rfid_from_stdin Examples.net_ok
               (Examples.typed' Examples.T0 "123456")
               (EnhancedRFIDListener.set_running true Examples.enhanced0))
   ++ [Log ERROR "Error reading from stdin: closed"])%list.
Proof.
  split; [reflexivity|].
  apply (proj2 (proj2 (proj2 (proj2 (proj2 (proj2
           (X8_stdin_error_ends_loop Examples.net_ok
              (Examples.typed' Examples.T0 "123456") Examples.T0 "closed"
              (Examples.typed' Examples.T0 "7")
              (EnhancedRFIDListener.set_running true Examples.enhanced0)))))))).
  - reflexivity.
  - reflexivity.
Defined.

(** ** The requests of a run *)

(** X11.  Every request that a run of [RFIDListener.start_listening]
    makes, by a terminator or by the timer, is a POST to the scan URL
    that the listener was given, with the timeout 5 and a body of the
    one key [rfid] whose value is valid and has no whitespace at
    either end; the URL of the listener is never changed. *)
Theorem X11_requests_of_a_run :
  forall net reads horizon w,
    let r := RFIDListener.start_listening net reads horizon w in
    RFIDListener.flask_url (RFIDListener.self (state_of r))
      = RFIDListener.flask_url (RFIDListener.self w) /\
    forallb (MoreObs.sound_event (RFIDListener.flask_url (RFIDListener.self w)))
            (trace_of r) = true.
Proof.
  intros net reads horizon w r. subst r.
  exact (BasicSound.sound_start_listening net reads horizon w).
Qed.

(** X12.  Every request that a run of
    [EnhancedRFIDListener.start_listening] makes, on the device path
    or on stdin, is a POST to the scan URL that the listener was
    given, with the timeout 5 and a body of the one key [rfid] whose
    value is valid and has no whitespace at either end; nothing of
    the run changes the URL. *)
Theorem X12_requests_of_an_enhanced_run :
  forall run l,
    let r := EnhancedRFIDListener.start_listening run l in
    EnhancedRFIDListener.flask_url (state_of r)
      = EnhancedRFIDListener.flask_url l /\
    forallb (MoreObs.sound_event (EnhancedRFIDListener.flask_url l))
            (trace_of r) = true.
Proof.
  intros run l r. subst r.
  exact (EnhancedSound.sound_enh_start_listening run l).
Qed.

(** X13.  A run of [EnhancedRFIDListener.start_listening] whose reads
    all happen within one second makes at most one request, whatever
    is read and whatever the time of the last scan before the run. *)
Theorem X13_one_request_per_second :
  forall run l T,
    MoreObs.burst T (EnhancedRFIDListener.stdin run) = true ->
    match EnhancedRFIDListener.device run with
    | EnhancedRFIDListener.Opened reads => MoreObs.burst T reads
    | _ => true
    end = true ->
    (List.length (posts (trace_of (EnhancedRFIDListener.start_listening run l)))
     <= 1)%nat.
Proof.
  intros run l T Hs Hd. rewrite RunFacts.start_listening_posts.
  destruct (LocatorObs.expected_strategy (EnhancedRFIDListener.host run)).
  - destruct (EnhancedRFIDListener.device run) as [|e|reads];
      [cbn; lia|cbn; lia|].
    now apply (RunFacts.device_loop_burst _ T).
  - now apply (RunFacts.stdin_loop_burst _ T).
Qed.

(** Two valid cards typed in the same instant: one request. *)
Lemma X13_one_request_per_second_witness :
  (List.length
     (posts (trace_of (EnhancedRFIDListener.start_listening
                         MoreExamples.run_two_cards Examples.enhanced0)))
   <= 1)%nat.
Proof.
  apply (X13_one_request_per_second MoreExamples.run_two_cards
           Examples.enhanced0 Examples.T0).
  - vm_compute. reflexivity.
  - reflexivity.
Defined.

(** X14.  A turn of the device loop does not look at the two time
    stamps of a record: two records that differ in their first
    sixteen bytes only do the same. *)
Theorem X14_time_stamps_ignored :
  forall env ts1 ts2 rest b l,
    List.length ts1 = 16%nat -> List.length ts2 = 16%nat ->
    EnhancedRFIDListener.device_step env
      (EnhancedRFIDListener.ReadBytes (ts1 ++ rest)) b l
    = EnhancedRFIDListener.device_step env
        (EnhancedRFIDListener.ReadBytes (ts2 ++ rest)) b l.
Proof.
  intros env ts1 ts2 rest b l H1 H2.
  now apply RunFacts.device_step_time_stamps.
Qed.

(** The press of the key 1 with two different pairs of time stamps. *)
Lemma X14_time_stamps_ignored_witness :
  let env := at_time Examples.net_ok Examples.T0 in
  EnhancedRFIDListener.device_step env
    (EnhancedRFIDListener.ReadBytes
       (repeat "000"%byte 16 ++ MoreExamples.key_1)) "" Examples.enhanced0
  = EnhancedRFIDListener.device_step env
      (EnhancedRFIDListener.ReadBytes
         (repeat "255"%byte 16 ++ MoreExamples.key_1)) "" Examples.enhanced0.
Proof.
  intros env.
  apply (X14_time_stamps_ignored env (repeat "000"%byte 16)
           (repeat "255"%byte 16)); reflexivity.
Defined.

(** ** [main] *)

(** X15.  [main] of [rfid_listener.py] starts the listener after the
    first health check that is answered with the status 200 and not
    before: each check before it, whether it raised or was answered
    with another status, is followed by one line and one sleep of
    five seconds, and no later check is made.  While no check
    succeeds no listener exists and nothing is read.  Every request
    of the listener that [main] starts goes to
    [http://localhost:5000/scan]. *)
Theorem X15_main_waits_for_consumer :
  (forall failed o rest net reads horizon,
     forallb (fun o => negb (Main.check_flask_app o)) failed = true ->
     Main.check_flask_app o = true ->
     let r := RFIDListener.start_listening net reads horizon
                (RFIDListener.boot
                   (RFIDListener.__init__ "localhost" 5000)) in
     let retry := "Flask app not available at localhost:5000, retrying in 5 seconds..." in
     Main.main_basic (failed ++ o :: rest) net reads horizon =
     ((Main.Of (Log INFO "Starting RFID Listener Service")
       :: Main.Of (Log INFO "Waiting for Flask app to be available...")
       :: List.concat
            (map (fun _ =>
                    [Main.HealthGet "http://localhost:5000/health" 2;
                     Main.Of (Log INFO retry);
                     Main.Of (Sleep (5 * SECOND))]) failed)
          ++ Main.HealthGet "http://localhost:5000/health" 2
             :: Main.Of (Log INFO
                           "Flask app is available, starting RFID listener")
             :: map Main.Of (trace_of r))%list,
      Some (state_of r))) /\
  (forall checks net reads horizon,
     existsb Main.check_flask_app checks = false ->
     snd (Main.main_basic checks net reads horizon) = None /\
     Main.listener_events (fst (Main.main_basic checks net reads horizon))
       = []) /\
  (forall checks net reads horizon,
     forallb (MoreObs.sound_event "http://localhost:5000/scan")
       (Main.listener_events (fst (Main.main_basic checks net reads horizon)))
     = true).
Proof.
  split; [|split].
  - intros failed o rest net reads horizon Hf Ho r retry. subst r retry.
    unfold Main.main_basic.
    rewrite (MainFacts.wait_for_flask_ready _ _ o rest failed Hf Ho).
    cbn [app]. rewrite <- app_assoc. reflexivity.
  - intros checks net reads horizon H. unfold Main.main_basic.
    pose proof (MainFacts.wait_for_flask_value
                  (Main.health_url RFIDListener.FLASK_HOST
                     RFIDListener.FLASK_PORT)
                  ("Flask app not available at " ++ RFIDListener.FLASK_HOST
                   ++ ":" ++ PyStr.str_of_Z RFIDListener.FLASK_PORT
                   ++ ", retrying in 5 seconds...") checks) as Hv.
    pose proof (MainFacts.listener_events_waiting
                  (Main.health_url RFIDListener.FLASK_HOST
                     RFIDListener.FLASK_PORT)
                  ("Flask app not available at " ++ RFIDListener.FLASK_HOST
                   ++ ":" ++ PyStr.str_of_Z RFIDListener.FLASK_PORT
                   ++ ", retrying in 5 seconds...") checks) as Hw.
    destruct (Main.wait_for_flask _ _ checks) as [ready t].
    cbn [fst snd] in Hv, Hw. rewrite H in Hv. subst ready.
    split; [reflexivity|exact Hw].
  - intros checks net reads horizon. unfold Main.main_basic.
    pose proof (MainFacts.listener_events_waiting
                  (Main.health_url RFIDListener.FLASK_HOST
                     RFIDListener.FLASK_PORT)
                  ("Flask app not available at " ++ RFIDListener.FLASK_HOST
                   ++ ":" ++ PyStr.str_of_Z RFIDListener.FLASK_PORT
                   ++ ", retrying in 5 seconds...") checks) as Hw.
    destruct (Main.wait_for_flask _ _ checks) as [ready t].
    cbn [fst snd] in Hw.
    destruct ready; cbn [fst Main.listener_events];
      [|now rewrite Hw].
    rewrite MainFacts.listener_events_app.
    cbn [app Main.listener_events]. rewrite Hw. cbn [app].
    apply MainFacts.listener_events_sound.
    exact (proj2 (BasicSound.sound_start_listening net reads horizon
                    (RFIDListener.boot
                       (RFIDListener.__init__ RFIDListener.FLASK_HOST
                          RFIDListener.FLASK_PORT)))).
Qed.

(** The consumer raises, answers 503, then answers 200: two sleeps,
    then the listener, which reads a card. *)
Lemma X15_main_waits_for_consumer_witness :
  let reads := (Examples.typed Examples.T0 "123456"
                ++ [(Examples.T0, RFIDListener.ReadChar "010")])%list in
  let m := Main.main_basic MoreExamples.slow_start Examples.net_ok reads
             (Examples.T0 + 2 * SECOND) in
  List.length (filter (fun e => match e with
                                | Main.Of (Sleep _) => true
                                | _ => false
                                end) (fst m)) = 2%nat /\
  candidates (Main.listener_events (fst m)) = ["123456"].
Proof.
  intros reads m. subst m.
  change MoreExamples.slow_start
    with ([Main.HealthRaises; Main.HealthStatus 503]
          ++ Main.HealthStatus 200 :: [])%list.
  rewrite (proj1 X15_main_waits_for_consumer
             [Main.HealthRaises; Main.HealthStatus 503]
             (Main.HealthStatus 200) [] Examples.net_ok reads
             (Examples.T0 + 2 * SECOND) eq_refl eq_refl).
  split; vm_compute; reflexivity.
Defined.

(** X16.  [main] of [rfid_listener_enhanced.py] starts the listener
    after the first health check that is answered with the status 200
    and not before: each check before it, whether it raised or was
    answered with another status, is followed by one line and one
    sleep of five seconds, and no later check is made.  While no
    check succeeds no listener exists, no device is looked for and
    nothing is read.  Every request of the listener that [main]
    starts goes to [http://localhost:5000/scan]. *)
Theorem X16_enhanced_main_waits_for_consumer :
  (forall failed o rest run,
     forallb (fun o => negb (Main.check_flask_app o)) failed = true ->
     Main.check_flask_app o = true ->
     let r := EnhancedRFIDListener.start_listening run
                (EnhancedRFIDListener.__init__ "localhost" 5000) in
     let retry := "Flask app not available at localhost:5000, retrying..." in
     Main.main_enhanced (failed ++ o :: rest) run =
     ((Main.Of (Log INFO "Enhanced RFID Listener Service starting...")
       :: Main.Of (Log INFO "Waiting for Flask app...")
       :: List.concat
            (map (fun _ =>
                    [Main.HealthGet "http://localhost:5000/health" 2;
                     Main.Of (Log INFO retry);
                     Main.Of (Sleep (5 * SECOND))]) failed)
          ++ Main.HealthGet "http://localhost:5000/health" 2
             :: Main.Of (Log INFO "✓ Flask app is available")
             :: map Main.Of (trace_of r))%list,
      Some (state_of r))) /\
  (forall checks run,
     existsb Main.check_flask_app checks = false ->
     snd (Main.main_enhanced checks run) = None /\
     Main.listener_events (fst (Main.main_enhanced checks run)) = []) /\
  (forall checks run,
     forallb (MoreObs.sound_event "http://localhost:5000/scan")
       (Main.listener_events (fst (Main.main_enhanced checks run)))
     = true).
Proof.
  split; [|split].
  - intros failed o rest run Hf Ho r retry. subst r retry.
    unfold Main.main_enhanced.
    rewrite (MainFacts.wait_for_flask_ready _ _ o rest failed Hf Ho).
    cbn [app]. rewrite <- app_assoc. reflexivity.
  - intros checks run H. unfold Main.main_enhanced.
    pose proof (MainFacts.wait_for_flask_value
                  (Main.health_url EnhancedRFIDListener.FLASK_HOST
                     EnhancedRFIDListener.FLASK_PORT)
                  ("Flask app not available at "
                   ++ EnhancedRFIDListener.FLASK_HOST
                   ++ ":" ++ PyStr.str_of_Z EnhancedRFIDListener.FLASK_PORT
                   ++ ", retrying...") checks) as Hv.
    pose proof (MainFacts.listener_events_waiting
                  (Main.health_url EnhancedRFIDListener.FLASK_HOST
                     EnhancedRFIDListener.FLASK_PORT)
                  ("Flask app not available at "
                   ++ EnhancedRFIDListener.FLASK_HOST
                   ++ ":" ++ PyStr.str_of_Z EnhancedRFIDListener.FLASK_PORT
                   ++ ", retrying...") checks) as Hw.
    destruct (Main.wait_for_flask _ _ checks) as [ready t].
    cbn [fst snd] in Hv, Hw. rewrite H in Hv. subst ready.
    split; [reflexivity|exact Hw].
  - intros checks run. unfold Main.main_enhanced.
    pose proof (MainFacts.listener_events_waiting
                  (Main.health_url EnhancedRFIDListener.FLASK_HOST
                     EnhancedRFIDListener.FLASK_PORT)
                  ("Flask app not available at "
                   ++ EnhancedRFIDListener.FLASK_HOST
                   ++ ":" ++ PyStr.str_of_Z EnhancedRFIDListener.FLASK_PORT
                   ++ ", retrying...") checks) as Hw.
    destruct (Main.wait_for_flask _ _ checks) as [ready t].
    cbn [fst snd] in Hw.
    destruct ready; cbn [fst Main.listener_events];
      [|now rewrite Hw].
    rewrite MainFacts.listener_events_app.
    cbn [app Main.listener_events]. rewrite Hw. cbn [app].
    apply MainFacts.listener_events_sound.
    exact (proj2 (EnhancedSound.sound_enh_start_listening run
                    (EnhancedRFIDListener.__init__
                       EnhancedRFIDListener.FLASK_HOST
                       EnhancedRFIDListener.FLASK_PORT))).
Qed.

(** The consumer raises, answers 503, then answers 200: two sleeps,
    then the listener, which reads two cards from stdin. *)
Lemma X16_enhanced_main_waits_for_consumer_witness :
  let m := Main.main_enhanced MoreExamples.slow_start
             MoreExamples.run_two_cards in
  List.length (filter (fun e => match e with
                                | Main.Of (Sleep _) => true
                                | _ => false
                                end) (fst m)) = 2%nat /\
  candidates (Main.listener_events (fst m)) = ["123456"; "654321"].
Proof.
  intros m. subst m.
  change MoreExamples.slow_start
    with ([Main.HealthRaises; Main.HealthStatus 503]
          ++ Main.HealthStatus 200 :: [])%list.
  rewrite (proj1 X16_enhanced_main_waits_for_consumer
             [Main.HealthRaises; Main.HealthStatus 503]
             (Main.HealthStatus 200) [] MoreExamples.run_two_cards
             eq_refl eq_refl).
  split; vm_compute; reflexivity.
Defined.

(* ================================================================== *)
(** * Further properties: the consumer and the playback host *)
(* ================================================================== *)

(** ** [handle_scan] *)

(** X17.  Every request that a run of either listener makes is
    answered by [handle_scan] with the status 200, as mapped or as not
    mapped, for the very identifier of the request, whatever the state
    of the application: the replies with the status 400 are never met
    by a listener. *)
Theorem X17_scans_are_served :
  (forall net reads horizon w cfg world st,
     forallb (AppObs.answered cfg world st)
       (trace_of (RFIDListener.start_listening net reads horizon w)) = true) /\
  (forall run l cfg world st,
     forallb (AppObs.answered cfg world st)
       (trace_of (EnhancedRFIDListener.start_listening run l)) = true).
Proof.
  split.
  - intros net reads horizon w cfg world st.
    apply (AppFacts.answered_all cfg world st
             (RFIDListener.flask_url (RFIDListener.self w))).
    exact (proj2 (BasicSound.sound_start_listening net reads horizon w)).
  - intros run l cfg world st.
    apply (AppFacts.answered_all cfg world st
             (EnhancedRFIDListener.flask_url l)).
    exact (proj2 (EnhancedSound.sound_enh_start_listening run l)).
Qed.

(** X18.  Whatever the body of the request, [handle_scan] changes
    nothing of the table but the column [last_played]; it adds the
    identifier to the queue when it replies that the identifier is not
    mapped and leaves the queue as it is otherwise; it makes one
    request to the playback host, with the timeout 5 and a body of the
    one key [rfid], when it replies that the identifier is mapped, and
    none otherwise.  The identifier of a reply is not empty and has
    no whitespace at either end; it is in the table, with the
    directory, the title and the artist of the reply, exactly when the
    reply says so.  A reply with the status 400 goes with no change
    and no effect. *)
Theorem X18_scan_effects :
  forall cfg world data st,
    let r := App.handle_scan cfg world data st in
    map App.but_last_played (App.db (snd (fst r)))
      = map App.but_last_played (App.db st) /\
    App.rfid_queue (snd (fst r))
      = (App.rfid_queue st ++ AppObs.queued (fst (fst r)))%list /\
    App.play_posts (snd r) = AppObs.expected_posts cfg (fst (fst r)) /\
    match fst (fst r) with
    | App.Mapped k dir title who _ =>
        truthy k = true /\ strip k = k /\
        exists mapping,
          DatabaseManager.get_mapping k (App.db st) = Some mapping /\
          dir = DatabaseManager.music_dir mapping /\
          title = DatabaseManager.album_title mapping /\
          who = DatabaseManager.artist mapping
    | App.Unmapped k _ =>
        truthy k = true /\ strip k = k /\
        DatabaseManager.get_mapping k (App.db st) = None
    | App.BadRequest _ => snd (fst r) = st /\ snd r = []
    end.
Proof.
  intros cfg world data st r. subst r.
  destruct (AppFacts.handle_scan_cases cfg world data st)
    as [[e ->]|(d & value & _ & _ & Ht & ->)].
  - cbn [fst snd AppObs.queued AppObs.expected_posts App.play_posts filter].
    rewrite app_nil_r. repeat split.
  - destruct (AppFacts.scan_of_key_frame cfg world (strip value) st)
      as (Hk & Hrest & Hq & Hp & Hm).
    repeat (split; [assumption|]).
    destruct (fst (fst (AppObs.scan_of_key cfg world (strip value) st)))
      as [e|k dir title who ok|k msg]; [contradiction| |];
      cbn [AppObs.reply_key] in Hk; injection Hk as ->;
      (split; [exact Ht|]); (split; [apply PyStrFacts.strip_idempotent|]);
      exact Hm.
Qed.

(** X19.  A mapped scan marks the row as played at the time of the
    request and replies that the identifier is mapped, whatever
    becomes of the request to the playback host: that request failing,
    by an exception or by a status other than 200, only makes
    [playback_triggered] false.  The rows of the other identifiers
    are as they were. *)
Theorem X19_mapped_scan_is_recorded :
  forall cfg world value st mapping,
    truthy (strip value) = true ->
    DatabaseManager.get_mapping (strip value) (App.db st) = Some mapping ->
    let r := App.handle_scan cfg world (Some [("rfid", value)]) st in
    fst (fst r)
      = App.Mapped (strip value) (DatabaseManager.music_dir mapping)
          (DatabaseManager.album_title mapping)
          (DatabaseManager.artist mapping)
          (AppObs.triggered
             (App.macos world (AppObs.play_url cfg)
                [("rfid", strip value)])) /\
    DatabaseManager.get_mapping (strip value) (App.db (snd (fst r)))
      = Some (DatabaseManager.played (App.clock world) mapping) /\
    forall other,
      other <> strip value ->
      DatabaseManager.get_mapping other (App.db (snd (fst r)))
        = DatabaseManager.get_mapping other (App.db st).
Proof.
  intros cfg world value st mapping Ht Hg r. subst r.
  rewrite AppFacts.handle_scan_single by assumption.
  unfold AppObs.scan_of_key. rewrite Hg. cbn [fst snd App.db].
  split; [|split].
  - unfold App.trigger_playback, AppObs.play_url, AppObs.triggered.
    now destruct (App.macos world _ _).
  - rewrite AppFacts.get_mapping_update_last_played, String.eqb_refl, Hg.
    reflexivity.
  - intros other Ho. rewrite AppFacts.get_mapping_update_last_played.
    destruct (String.eqb_spec other (strip value)); [contradiction|reflexivity].
Qed.

(** The card of the album, scanned while the playback host cannot be
    reached. *)
Lemma X19_mapped_scan_is_recorded_witness :
  let r := App.handle_scan App.defaults AppExamples.unreachable
             (Some [("rfid", " 123456 ")]) AppExamples.one_album in
  fst (fst r)
    = App.Mapped "123456" "/home/music/album" (Some "Album") (Some "Artist")
        false /\
  DatabaseManager.get_mapping "123456" (App.db (snd (fst r)))
    = Some (DatabaseManager.played Examples.T0 AppExamples.album_row).
Proof.
  intros r.
  destruct (X19_mapped_scan_is_recorded App.defaults AppExamples.unreachable
              " 123456 " AppExamples.one_album AppExamples.album_row
              eq_refl eq_refl) as (H1 & H2 & _).
  split; [exact H1|exact H2].
Defined.

(** ** The table and the queue *)

(** X20.  Every request keeps the state of the application well
    formed: no two rows of the table have the same identifier, every
    row has an identifier and a directory that are not empty, and
    every identifier of the queue is not empty and has no whitespace
    at either end.  So it is after any sequence of scans, assignments,
    edits and removals on a new database. *)
Theorem X20_state_stays_well_formed :
  (forall cfg q st,
     AppObs.well_formed st -> AppObs.well_formed (App.serve cfg q st)) /\
  (forall cfg qs, AppObs.well_formed (App.serve_all cfg qs App.fresh)).
Proof.
  split.
  - exact AppFacts.well_formed_serve.
  - intros cfg qs. apply AppFacts.well_formed_serve_all.
    exact AppFacts.well_formed_fresh.
Qed.

(** A card that is not mapped, scanned on a new database. *)
Lemma X20_state_stays_well_formed_witness :
  AppObs.well_formed
    (App.serve App.defaults
       (App.Scan AppExamples.unreachable (Some [("rfid", "654321")]))
       App.fresh).
Proof.
  apply (proj1 X20_state_stays_well_formed).
  repeat split; constructor.
Defined.

(** X21.  [assign] never changes or removes a row: it adds at most
    one row, under an identifier that was not in the table, and it
    leaves the queue as it is.  When the identifier is in the table,
    or when the form has none, the state is left as it is and the
    request is sent back to the form. *)
Theorem X21_assign_keeps_the_rows :
  forall world key dir title who st,
    let r := App.assign_post world key dir title who st in
    App.rfid_queue (snd (fst r)) = App.rfid_queue st /\
    (exists added,
       App.db (snd (fst r)) = (App.db st ++ added)%list /\
       (List.length added <= 1)%nat /\
       Forall (fun row =>
                 key = Some (DatabaseManager.rfid row) /\
                 DatabaseManager.get_mapping (DatabaseManager.rfid row)
                   (App.db st) = None) added) /\
    match key with
    | Some k =>
        match DatabaseManager.get_mapping k (App.db st) with
        | Some _ => snd (fst r) = st /\ fst (fst r) = App.ToAssign
        | None => True
        end
    | None => snd (fst r) = st /\ fst (fst r) = App.ToAssign
    end.
Proof.
  intros world key dir title who st r. subst r.
  destruct (AppFacts.assign_post_cases world key dir title who st)
    as [[-> Hf]|[(k & existing & -> & Hg & ->)
                |(k & d & -> & -> & Hk & Hd & Hg & ->)]];
    cbn [fst snd App.db App.rfid_queue].
  - split; [reflexivity|]. split.
    + exists []. rewrite app_nil_r. repeat split; [cbn; lia|constructor].
    + destruct key as [k|]; [|now split].
      now destruct (DatabaseManager.get_mapping k (App.db st)).
  - split; [reflexivity|]. split.
    + exists []. rewrite app_nil_r. repeat split; [cbn; lia|constructor].
    + rewrite Hg. now split.
  - split; [reflexivity|]. split.
    + eexists. split; [reflexivity|]. split; [cbn; lia|].
      repeat constructor. exact Hg.
    + rewrite Hg. exact I.
Qed.

(** X22.  After [assign] has added a row, a scan whose identifier is,
    once stripped, the identifier of the row is replied to as mapped,
    with the directory, the title and the artist of the form.  The
    form is taken as it is and a scan is stripped: a row assigned
    under an identifier with whitespace at an end is met by no scan
    whatever. *)
Theorem X22_assign_then_scan :
  forall cfg world world' key dir title who st value,
    truthy key = true -> truthy dir = true ->
    DatabaseManager.get_mapping key (App.db st) = None ->
    let assigned := App.assign_post world (Some key) (Some dir) title who st in
    fst (fst assigned) = App.ToIndex /\
    (strip value = key ->
     exists ok,
       fst (fst (App.handle_scan cfg world' (Some [("rfid", value)])
                   (snd (fst assigned))))
       = App.Mapped key dir (Some title) (Some who) ok) /\
    (strip key <> key ->
     forall data,
       AppObs.reply_key
         (fst (fst (App.handle_scan cfg world' data (snd (fst assigned)))))
       <> Some key).
Proof.
  intros cfg world world' key dir title who st value Hk Hd Hg assigned.
  subst assigned.
  destruct (AppFacts.assign_post_cases world (Some key) (Some dir) title who st)
    as [[_ [Hf|Hf]]|[(k & existing & E & Hg' & _)
                    |(k & d & E1 & E2 & _ & _ & _ & ->)]].
  - cbn [App.truthy_opt] in Hf. congruence.
  - cbn [App.truthy_opt] in Hf. congruence.
  - injection E as <-. congruence.
  - injection E1 as <-. injection E2 as <-. cbn [fst snd].
    split; [reflexivity|]. split.
    + intros Hv. rewrite AppFacts.handle_scan_single by now rewrite Hv.
      rewrite Hv. unfold AppObs.scan_of_key. cbn [App.db].
      rewrite (AppFacts.get_mapping_new key (App.db st) _ Hg) by reflexivity.
      cbn [fst DatabaseManager.music_dir DatabaseManager.album_title
           DatabaseManager.artist].
      now eexists.
    + intros Hs data.
      match goal with
      | |- context [App.handle_scan cfg world' data ?s] => set (st1 := s)
      end.
      intros Hr.
      destruct (AppFacts.handle_scan_cases cfg world' data st1)
        as [[e E]|(d' & v & _ & _ & _ & E)]; rewrite E in Hr.
      * discriminate.
      * destruct (AppFacts.scan_of_key_frame cfg world' (strip v) st1)
          as (Hkey & _).
        rewrite Hkey in Hr. injection Hr as Hr. apply Hs.
        rewrite <- Hr. apply PyStrFacts.strip_idempotent.
Qed.

(** A card assigned on a new database, then scanned with a newline
    after its digits. *)
Lemma X22_assign_then_scan_witness :
  let assigned := App.assign_post AppExamples.unreachable (Some "123456")
                    (Some "/home/music/album") "Album" "Artist" App.fresh in
  fst (fst assigned) = App.ToIndex /\
  exists ok,
    fst (fst (App.handle_scan App.defaults AppExamples.unreachable
                (Some [("rfid", String "1" (String "2" (String "3" (String "4"
                         (String "5" (String "6" (String "010" "")))))))])
                (snd (fst assigned))))
    = App.Mapped "123456" "/home/music/album" (Some "Album") (Some "Artist") ok.
Proof.
  intros assigned.
  destruct (X22_assign_then_scan App.defaults AppExamples.unreachable
              AppExamples.unreachable "123456" "/home/music/album"
              "Album" "Artist" App.fresh
              (String "1" (String "2" (String "3" (String "4"
                 (String "5" (String "6" (String "010" "")))))))
              eq_refl eq_refl eq_refl) as (H1 & H2 & _).
  split; [exact H1|]. apply H2. reflexivity.
Defined.

(** X23.  After [unassign], whether the identifier was mapped or not,
    a scan of the identifier is replied to as not mapped: it makes no
    request to the playback host and puts the identifier in the
    queue. *)
Theorem X23_unassign_then_scan :
  forall cfg world key st value,
    strip value = key -> truthy key = true ->
    let st1 := snd (fst (App.unassign key st)) in
    App.handle_scan cfg world (Some [("rfid", value)]) st1 =
    (App.Unmapped key "RFID not mapped. Please assign via web interface.",
     {| App.db := App.db st1;
        App.rfid_queue := (App.rfid_queue st ++ [key])%list |},
     []).
Proof.
  intros cfg world key st value Hv Hk st1. subst st1.
  rewrite AppFacts.handle_scan_single by now rewrite Hv.
  rewrite Hv. unfold AppObs.scan_of_key, App.unassign.
  destruct (DatabaseManager.get_mapping key (App.db st)) as [mapping|] eqn:Hg;
    cbn [fst snd App.db App.rfid_queue].
  - now rewrite AppFacts.get_mapping_deleted.
  - now rewrite Hg.
Qed.

(** The card of the album, removed and scanned. *)
Lemma X23_unassign_then_scan_witness :
  fst (fst (App.handle_scan App.defaults AppExamples.unreachable
              (Some [("rfid", "123456")])
              (snd (fst (App.unassign "123456" AppExamples.one_album)))))
  = App.Unmapped "123456" "RFID not mapped. Please assign via web interface.".
Proof.
  rewrite (X23_unassign_then_scan App.defaults AppExamples.unreachable
             "123456" AppExamples.one_album "123456" eq_refl eq_refl).
  reflexivity.
Defined.

(** ** The playback host *)

(** X24.  [play_music] replies with the status 200 exactly when the
    body holds an identifier that is not empty and the directory it
    looks at, that of the body if it holds one and else the one named
    after the identifier under the mount point, exists, is a
    directory and holds files of the pattern.  It starts [mpv] once,
    on those files, when it replies that playback has started, and
    not at all otherwise.  What is
    playing has been stopped when the reply is that playback has
    started and also when it is that playback failed for want of
    files; the other replies leave the player as it is. *)
Theorem X24_play_music_decides :
  forall mount host data player,
    let r := PlaybackHost.play_music mount host data player in
    (PlaybackHost.status_of (fst (fst r)) =? 200)
      = match data with
        | Some d =>
            match App.item "rfid" d with
            | Some k =>
                (truthy k && AppObs.playable host (AppObs.chosen_path mount d k))
                %bool
            | None => false
            end
        | None => false
        end /\
    PlaybackHost.thread_starts (snd r)
      = match fst (fst r) with
        | PlaybackHost.Started _ p => [AppObs.mpv_args host p]
        | _ => []
        end /\
    match fst (fst r) with
    | PlaybackHost.Started k p =>
        (exists d, data = Some d /\ App.item "rfid" d = Some k /\
                   p = AppObs.chosen_path mount d k) /\
        truthy k = true /\ AppObs.playable host p = true /\
        snd (fst r)
          = {| PlaybackHost.current_process :=
                 PlaybackHost.current_process player;
               PlaybackHost.is_playing := false |} /\
        exists rest,
          snd r = (snd (PlaybackHost.stop_current_playback host player)
                   ++ rest)%list
    | PlaybackHost.Failed k p =>
        (exists d, data = Some d /\ App.item "rfid" d = Some k /\
                   p = AppObs.chosen_path mount d k) /\
        truthy k = true /\
        PlaybackHost.path_exists host p = true /\
        PlaybackHost.isdir host p = true /\
        AppObs.has_mp3 host p = false /\
        snd (fst r)
          = {| PlaybackHost.current_process :=
                 PlaybackHost.current_process player;
               PlaybackHost.is_playing := false |} /\
        exists rest,
          snd r = (snd (PlaybackHost.stop_current_playback host player)
                   ++ rest)%list
    | PlaybackHost.NotFound p _ =>
        PlaybackHost.path_exists host p = false /\
        snd (fst r) = player /\ snd r = []
    | PlaybackHost.NotADirectory p _ =>
        PlaybackHost.path_exists host p = true /\
        PlaybackHost.isdir host p = false /\
        snd (fst r) = player /\ snd r = []
    | PlaybackHost.NoData | PlaybackHost.NoRfid =>
        snd (fst r) = player /\ snd r = []
    end.
Proof.
  intros mount host data player r. subst r.
  destruct data as [d|]; [|now repeat split].
  destruct (App.item "rfid" d) as [k|] eqn:Hi.
  - destruct (truthy k) eqn:Ht.
    + split.
      { rewrite (PlaybackFacts.play_music_status mount host d k player Hi Ht).
        reflexivity. }
      rewrite (PlaybackFacts.play_music_key mount host d k player Hi Ht).
      cbv zeta. unfold AppObs.playable.
      destruct (PlaybackHost.path_exists host _) eqn:He; cbn [negb];
        [|now repeat split].
      destruct (PlaybackHost.isdir host _) eqn:Hd; cbn [negb];
        [|now repeat split].
      rewrite PlaybackFacts.play_directory_run. cbn [fst snd].
      rewrite PlaybackFacts.thread_starts_app,
        PlaybackFacts.thread_starts_stop.
      destruct (AppObs.has_mp3 host _) eqn:Hm; cbn [app andb].
      * split; [reflexivity|]. split; [now exists d|].
        split; [exact Ht|]. split; [now rewrite He, Hd, Hm|].
        split; [reflexivity|]. now eexists.
      * split; [reflexivity|]. split; [now exists d|].
        split; [exact Ht|]. split; [exact He|]. split; [exact Hd|].
        split; [exact Hm|]. split; [reflexivity|]. now eexists.
    + unfold PlaybackHost.play_music.
      destruct d as [|kv d']; [discriminate|].
      rewrite Hi, Ht. now repeat split.
  - unfold PlaybackHost.play_music.
    destruct d as [|kv d']; [now repeat split|].
    rewrite Hi. now repeat split.
Qed.

(** X25.  The request of [trigger_playback] carries the identifier
    and no directory, so that [play_music] looks at the directory of
    that name under its mount point: served by the playback host, a
    mapped scan sets playback going exactly when that directory
    exists, is a directory and holds files of the pattern, whatever
    directory the table maps the identifier to. *)
Theorem X25_playback_follows_the_identifier :
  forall cfg mount host player now value st mapping,
    truthy (strip value) = true ->
    DatabaseManager.get_mapping (strip value) (App.db st) = Some mapping ->
    let world := {| App.clock := now;
                    App.macos := PlaybackHost.serving mount host player |} in
    fst (fst (App.handle_scan cfg world (Some [("rfid", value)]) st))
    = App.Mapped (strip value) (DatabaseManager.music_dir mapping)
        (DatabaseManager.album_title mapping) (DatabaseManager.artist mapping)
        (AppObs.playable host (PlaybackHost.path_join mount (strip value))).
Proof.
  intros cfg mount host player now value st mapping Ht Hg world. subst world.
  rewrite AppFacts.handle_scan_single by assumption.
  unfold AppObs.scan_of_key. rewrite Hg. cbn [fst]. f_equal.
  unfold App.trigger_playback. cbn [App.macos PlaybackHost.serving fst].
  rewrite (PlaybackFacts.play_music_status mount host
             [("rfid", strip value)] (strip value) player eq_refl Ht).
  reflexivity.
Qed.

(** The card of the album is mapped to [/home/music/album]; the share
    of the playback host holds a directory named after the card, and
    that is what is played. *)
Lemma X25_playback_follows_the_identifier_witness :
  fst (fst (App.handle_scan App.defaults
              {| App.clock := Examples.T0;
                 App.macos := PlaybackHost.serving "/Volumes/music"
                                AppExamples.share PlaybackHost.__init__ |}
              (Some [("rfid", "123456")]) AppExamples.one_album))
  = App.Mapped "123456" "/home/music/album" (Some "Album") (Some "Artist")
      true.
Proof.
  exact (X25_playback_follows_the_identifier App.defaults "/Volumes/music"
           AppExamples.share PlaybackHost.__init__ Examples.T0 "123456"
           AppExamples.one_album AppExamples.album_row eq_refl eq_refl).
Defined.

(** ** What a run leaves of the enhanced listener *)

(** X26.  Nothing in a run of [EnhancedRFIDListener.start_listening]
    calls [stop_listening] or resets the flag that the read loops
    test: whatever is read, on whichever path and however the run
    ends, the listener is left marked as running, and its
    [device_path] is what the locator returned at the start. *)
Theorem X26_enhanced_run_stays_marked :
  forall run l,
    let l' := state_of (EnhancedRFIDListener.start_listening run l) in
    EnhancedRFIDListener.running l' = true /\
    EnhancedRFIDListener.device_path l'
      = LocatorObs.locate (EnhancedRFIDListener.host run).
Proof.
  intros run l l'. subst l'.
  destruct (FrameFacts.start_listening_same run l) as (_ & Hr & Hd).
  rewrite Hr, Hd. unfold EnhancedObs.selecting.
  cbn [EnhancedRFIDListener.set_device_path EnhancedRFIDListener.set_running
       EnhancedRFIDListener.running EnhancedRFIDListener.device_path].
  split; [reflexivity|apply LocateFacts.located_locate].
Qed.
